(** * api2spec-fixture-gin: the in-memory store and its HTTP handlers

    A shallow embedding of [internal/store/memory.go], the model structs of
    [internal/models], the teapot, tea and brew handlers of
    [internal/handlers] and the routes of [internal/router], followed by the
    properties of the store's filter / sort / paginate contract and of the
    handlers built on it.

    Conventions.
    - Go's [int] is the 64-bit two's-complement integer of the platforms the
      service is built for; it is a [Z] kept in range by [GoInt.wrap].
    - A [time.Time] is an instant, a [Z]: the handlers take every timestamp
      from [time.Now().UTC()], which carries no monotonic reading.
    - The store's mutex is not modelled: every operation is one atomic step
      from a store to a store.
    - A Go run-time panic (slice bounds, integer division by zero) is [None].
    - What the handlers obtain from outside (the bound request, the fresh
      identifier, the clock reading) is an argument of the handler. *)

From Stdlib Require Import ZArith Lia.
From stdpp Require Import gmap strings list fin_maps sorting.

Local Open Scope Z_scope.

(** ** Go integers *)

Module GoInt.

Definition min_int : Z := - 2 ^ 63.
Definition max_int : Z := 2 ^ 63 - 1.

(** Reduction of a mathematical integer to the representable range. *)
Definition wrap (z : Z) : Z := (z + 2 ^ 63) mod 2 ^ 64 - 2 ^ 63.

Definition in_range (z : Z) : Prop := min_int <= z <= max_int.

Definition add (a b : Z) : Z := wrap (a + b).
Definition sub (a b : Z) : Z := wrap (a - b).
Definition mul (a b : Z) : Z := wrap (a * b).

(** [a / b]: truncated division; a zero divisor panics. *)
Definition div (a b : Z) : option Z :=
  if b =? 0 then None else Some (wrap (Z.quot a b)).

End GoInt.

(** ** Go slices *)

(** [len(s)]. *)
Definition len {A} (s : list A) : Z := Z.of_nat (length s).

(** The simple slice expression [s[lo:hi]].  It panics unless
    [0 <= lo <= hi <= cap(s)]; every use below has [hi <= len(s)], so the
    capacity never decides and [len(s)] stands for it. *)
Definition slice_expr {A} (s : list A) (lo hi : Z) : option (list A) :=
  if (0 <=? lo) && (lo <=? hi) && (hi <=? len s)
  then Some (take (Z.to_nat (hi - lo)) (drop (Z.to_nat lo) s))
  else None.

(** ** Time *)

Definition Time : Type := Z.

(** [t.After(u)]. *)
Definition After (t u : Time) : bool := u <? t.

(** ** What the Go runtime and the libraries provide

    [map_range] is the order in which [for _, v := range m] visits a map: the
    language leaves it unspecified, so it is any enumeration of the values.
    [sort_Slice] is [sort.Slice]: not stable, and specified only for a [less]
    that is a strict weak ordering.  [uuid_Parse] tells whether
    [uuid.Parse] accepts a string. *)

Definition asymmetric {A} (less : A → A → bool) : Prop :=
  ∀ a b, less a b = true → less b a = false.

Definition negatively_transitive {A} (less : A → A → bool) : Prop :=
  ∀ a b c, less a b = false → less b c = false → less a c = false.

(** No element is ordered before one of its predecessors. *)
Definition sorted_by {A} (less : A → A → bool) (l : list A) : Prop :=
  StronglySorted (λ a b, less b a = false) l.

Class GoRuntime := {
  map_range : ∀ {V}, gmap string V → list V;
  map_range_perm : ∀ V (m : gmap string V), map_range m ≡ₚ (map_to_list m).*2;
  sort_Slice : ∀ {A}, (A → A → bool) → list A → list A;
  sort_Slice_perm : ∀ A (less : A → A → bool) l, sort_Slice less l ≡ₚ l;
  sort_Slice_sorted : ∀ A (less : A → A → bool) l,
    asymmetric less → negatively_transitive less →
    sorted_by less (sort_Slice less l);
  uuid_Parse : string → bool
}.

(** ** internal/models *)

Module PaginationQuery.
Record t := mk { Page : Z; Limit : Z }.
End PaginationQuery.

Module Pagination.
Record t := mk { Page : Z; Limit : Z; Total : Z; TotalPages : Z }.
End Pagination.

Module Error.
Record t := mk { Code : string; Message : string }.
End Error.

(** The enumerations are Go string types with named constants. *)
Definition TeapotMaterial : Type := string.
Definition TeapotStyle : Type := string.
Definition TeaType : Type := string.
Definition CaffeineLevel : Type := string.
Definition BrewStatus : Type := string.

Definition StyleEnglish : TeapotStyle := "english".
Definition CaffeineMedium : CaffeineLevel := "medium".
Definition BrewPreparing : BrewStatus := "preparing".

Module Teapot.
Record t := mk {
  ID : string;
  Name : string;
  Material : TeapotMaterial;
  CapacityMl : Z;
  Style : TeapotStyle;
  Description : option string;
  CreatedAt : Time;
  UpdatedAt : Time
}.
(** The zero value, returned by a failed map lookup. *)
Definition zero : t := mk "" "" "" 0 "" None 0 0.
End Teapot.

Module CreateTeapotRequest.
Record t := mk {
  Name : string;
  Material : TeapotMaterial;
  CapacityMl : Z;
  Style : TeapotStyle;
  Description : option string
}.
End CreateTeapotRequest.

Module UpdateTeapotRequest.
Record t := mk {
  Name : string;
  Material : TeapotMaterial;
  CapacityMl : Z;
  Style : TeapotStyle;
  Description : option string
}.
End UpdateTeapotRequest.

Module PatchTeapotRequest.
Record t := mk {
  Name : option string;
  Material : option TeapotMaterial;
  CapacityMl : option Z;
  Style : option TeapotStyle;
  Description : option string
}.
End PatchTeapotRequest.

Module TeapotQuery.
Record t := mk {
  PaginationQuery : PaginationQuery.t;
  Material : option TeapotMaterial;
  Style : option TeapotStyle
}.
Definition Page (q : t) : Z := PaginationQuery.Page (PaginationQuery q).
Definition Limit (q : t) : Z := PaginationQuery.Limit (PaginationQuery q).
End TeapotQuery.

Module Tea.
Record t := mk {
  ID : string;
  Name : string;
  Type_ : TeaType;
  Origin : option string;
  CaffeineLevel : CaffeineLevel;
  SteepTempCelsius : Z;
  SteepTimeSeconds : Z;
  Description : option string;
  CreatedAt : Time;
  UpdatedAt : Time
}.
Definition zero : t := mk "" "" "" None "" 0 0 None 0 0.
End Tea.

Module CreateTeaRequest.
Record t := mk {
  Name : string;
  Type_ : TeaType;
  Origin : option string;
  CaffeineLevel : CaffeineLevel;
  SteepTempCelsius : Z;
  SteepTimeSeconds : Z;
  Description : option string
}.
End CreateTeaRequest.

Module UpdateTeaRequest.
Record t := mk {
  Name : string;
  Type_ : TeaType;
  Origin : option string;
  CaffeineLevel : CaffeineLevel;
  SteepTempCelsius : Z;
  SteepTimeSeconds : Z;
  Description : option string
}.
End UpdateTeaRequest.

Module PatchTeaRequest.
Record t := mk {
  Name : option string;
  Type_ : option TeaType;
  Origin : option string;
  CaffeineLevel : option CaffeineLevel;
  SteepTempCelsius : option Z;
  SteepTimeSeconds : option Z;
  Description : option string
}.
End PatchTeaRequest.

Module TeaQuery.
Record t := mk {
  PaginationQuery : PaginationQuery.t;
  Type_ : option TeaType;
  CaffeineLevel : option CaffeineLevel
}.
Definition Page (q : t) : Z := PaginationQuery.Page (PaginationQuery q).
Definition Limit (q : t) : Z := PaginationQuery.Limit (PaginationQuery q).
End TeaQuery.

Module Brew.
Record t := mk {
  ID : string;
  TeapotID : string;
  TeaID : string;
  Status : BrewStatus;
  WaterTempCelsius : Z;
  Notes : option string;
  StartedAt : Time;
  CompletedAt : option Time;
  CreatedAt : Time;
  UpdatedAt : Time
}.
Definition zero : t := mk "" "" "" "" 0 None 0 None 0 0.
End Brew.

Module CreateBrewRequest.
Record t := mk {
  TeapotID : string;
  TeaID : string;
  WaterTempCelsius : option Z;
  Notes : option string
}.
End CreateBrewRequest.

Module PatchBrewRequest.
Record t := mk {
  Status : option BrewStatus;
  Notes : option string;
  CompletedAt : option Time
}.
End PatchBrewRequest.

Module BrewQuery.
Record t := mk {
  PaginationQuery : PaginationQuery.t;
  Status : option BrewStatus;
  TeapotID : option string;
  TeaID : option string
}.
Definition Page (q : t) : Z := PaginationQuery.Page (PaginationQuery q).
Definition Limit (q : t) : Z := PaginationQuery.Limit (PaginationQuery q).
End BrewQuery.

Module Steep.
Record t := mk {
  ID : string;
  BrewID : string;
  SteepNumber : Z;
  DurationSeconds : Z;
  Rating : option Z;
  Notes : option string;
  CreatedAt : Time
}.
Definition zero : t := mk "" "" 0 0 None None 0.
End Steep.

Module CreateSteepRequest.
Record t := mk {
  DurationSeconds : Z;
  Rating : option Z;
  Notes : option string
}.
End CreateSteepRequest.

(** ** internal/store/memory.go *)

Record MemoryStore := mkStore {
  teapots : gmap string Teapot.t;
  teas : gmap string Tea.t;
  brews : gmap string Brew.t;
  steeps : gmap string Steep.t
}.

Definition NewMemoryStore : MemoryStore := mkStore ∅ ∅ ∅ ∅.

(** [p != nil && v != *p], the test that makes a filter loop [continue]. *)
Definition differs {A} `{EqDecision A} (p : option A) (v : A) : bool :=
  match p with
  | Some w => bool_decide (v ≠ w)
  | None => false
  end.

(** The tail shared, statement for statement, by the five list operations:
<<
  total := len(filtered)
  start := (page - 1) * limit
  end := start + limit
  if start >= total { return []T{}, total }
  if end > total { end = total }
  return filtered[start:end], total
>>
    [window_start] is [start]; [window_end] is [end] when the slice
    expression is reached. *)
Definition window_start (page limit : Z) : Z :=
  GoInt.mul (GoInt.sub page 1) limit.

Definition window_end (total page limit : Z) : Z :=
  let end_ := GoInt.add (window_start page limit) limit in
  if total <? end_ then total else end_.

Definition paginate {A} (filtered : list A) (page limit : Z)
  : option (list A * Z) :=
  let total := len filtered in
  let start := window_start page limit in
  if total <=? start then Some ([], total)
  else
    match slice_expr filtered start (window_end total page limit) with
    | Some window => Some (window, total)
    | None => None
    end.

Definition teapot_less (a b : Teapot.t) : bool :=
  After (Teapot.CreatedAt a) (Teapot.CreatedAt b).
Definition tea_less (a b : Tea.t) : bool :=
  After (Tea.CreatedAt a) (Tea.CreatedAt b).
Definition brew_less (a b : Brew.t) : bool :=
  After (Brew.CreatedAt a) (Brew.CreatedAt b).
Definition steep_less (a b : Steep.t) : bool :=
  Steep.SteepNumber a <? Steep.SteepNumber b.

Section Store.
Context `{rt : GoRuntime}.

(** *** Teapots *)

(** The [for _, t := range s.teapots] loop of [ListTeapots]. *)
Definition ListTeapots_filtered (s : MemoryStore) (query : TeapotQuery.t)
  : list Teapot.t :=
  foldl (λ filtered t,
           if differs (TeapotQuery.Material query) (Teapot.Material t)
           then filtered
           else if differs (TeapotQuery.Style query) (Teapot.Style t)
           then filtered
           else filtered ++ [t])
        [] (map_range (teapots s)).

Definition ListTeapots (s : MemoryStore) (query : TeapotQuery.t)
  : option (list Teapot.t * Z) :=
  paginate (sort_Slice teapot_less (ListTeapots_filtered s query))
           (TeapotQuery.Page query) (TeapotQuery.Limit query).

Definition CreateTeapot (s : MemoryStore) (t : Teapot.t) : MemoryStore :=
  mkStore (<[Teapot.ID t := t]> (teapots s)) (teas s) (brews s) (steeps s).

Definition GetTeapot (s : MemoryStore) (id : string) : Teapot.t * bool :=
  match teapots s !! id with
  | Some t => (t, true)
  | None => (Teapot.zero, false)
  end.

Definition UpdateTeapot (s : MemoryStore) (t : Teapot.t) : MemoryStore :=
  mkStore (<[Teapot.ID t := t]> (teapots s)) (teas s) (brews s) (steeps s).

Definition DeleteTeapot (s : MemoryStore) (id : string) : MemoryStore * bool :=
  match teapots s !! id with
  | None => (s, false)
  | Some _ =>
      (mkStore (delete id (teapots s)) (teas s) (brews s) (steeps s), true)
  end.

(** *** Teas *)

Definition ListTeas_filtered (s : MemoryStore) (query : TeaQuery.t)
  : list Tea.t :=
  foldl (λ filtered t,
           if differs (TeaQuery.Type_ query) (Tea.Type_ t)
           then filtered
           else if differs (TeaQuery.CaffeineLevel query) (Tea.CaffeineLevel t)
           then filtered
           else filtered ++ [t])
        [] (map_range (teas s)).

Definition ListTeas (s : MemoryStore) (query : TeaQuery.t)
  : option (list Tea.t * Z) :=
  paginate (sort_Slice tea_less (ListTeas_filtered s query))
           (TeaQuery.Page query) (TeaQuery.Limit query).

Definition CreateTea (s : MemoryStore) (t : Tea.t) : MemoryStore :=
  mkStore (teapots s) (<[Tea.ID t := t]> (teas s)) (brews s) (steeps s).

Definition GetTea (s : MemoryStore) (id : string) : Tea.t * bool :=
  match teas s !! id with
  | Some t => (t, true)
  | None => (Tea.zero, false)
  end.

Definition UpdateTea (s : MemoryStore) (t : Tea.t) : MemoryStore :=
  mkStore (teapots s) (<[Tea.ID t := t]> (teas s)) (brews s) (steeps s).

Definition DeleteTea (s : MemoryStore) (id : string) : MemoryStore * bool :=
  match teas s !! id with
  | None => (s, false)
  | Some _ =>
      (mkStore (teapots s) (delete id (teas s)) (brews s) (steeps s), true)
  end.

(** *** Brews *)

Definition ListBrews_filtered (s : MemoryStore) (query : BrewQuery.t)
  : list Brew.t :=
  foldl (λ filtered b,
           if differs (BrewQuery.Status query) (Brew.Status b)
           then filtered
           else if differs (BrewQuery.TeapotID query) (Brew.TeapotID b)
           then filtered
           else if differs (BrewQuery.TeaID query) (Brew.TeaID b)
           then filtered
           else filtered ++ [b])
        [] (map_range (brews s)).

Definition ListBrews (s : MemoryStore) (query : BrewQuery.t)
  : option (list Brew.t * Z) :=
  paginate (sort_Slice brew_less (ListBrews_filtered s query))
           (BrewQuery.Page query) (BrewQuery.Limit query).

Definition ListBrewsByTeapot_filtered (s : MemoryStore) (teapotID : string)
  : list Brew.t :=
  foldl (λ filtered b,
           if bool_decide (Brew.TeapotID b = teapotID)
           then filtered ++ [b]
           else filtered)
        [] (map_range (brews s)).

Definition ListBrewsByTeapot (s : MemoryStore) (teapotID : string)
  (page limit : Z) : option (list Brew.t * Z) :=
  paginate (sort_Slice brew_less (ListBrewsByTeapot_filtered s teapotID))
           page limit.

Definition CreateBrew (s : MemoryStore) (b : Brew.t) : MemoryStore :=
  mkStore (teapots s) (teas s) (<[Brew.ID b := b]> (brews s)) (steeps s).

Definition GetBrew (s : MemoryStore) (id : string) : Brew.t * bool :=
  match brews s !! id with
  | Some b => (b, true)
  | None => (Brew.zero, false)
  end.

Definition UpdateBrew (s : MemoryStore) (b : Brew.t) : MemoryStore :=
  mkStore (teapots s) (teas s) (<[Brew.ID b := b]> (brews s)) (steeps s).

Definition DeleteBrew (s : MemoryStore) (id : string) : MemoryStore * bool :=
  match brews s !! id with
  | None => (s, false)
  | Some _ =>
      (mkStore (teapots s) (teas s) (delete id (brews s)) (steeps s), true)
  end.

(** *** Steeps *)

Definition ListSteepsByBrew_filtered (s : MemoryStore) (brewID : string)
  : list Steep.t :=
  foldl (λ filtered steep,
           if bool_decide (Steep.BrewID steep = brewID)
           then filtered ++ [steep]
           else filtered)
        [] (map_range (steeps s)).

Definition ListSteepsByBrew (s : MemoryStore) (brewID : string)
  (page limit : Z) : option (list Steep.t * Z) :=
  paginate (sort_Slice steep_less (ListSteepsByBrew_filtered s brewID))
           page limit.

(** [count++] once per matching steep. *)
Definition CountSteepsByBrew (s : MemoryStore) (brewID : string) : Z :=
  foldl (λ count steep,
           if bool_decide (Steep.BrewID steep = brewID)
           then GoInt.add count 1
           else count)
        0 (map_range (steeps s)).

Definition CreateSteep (s : MemoryStore) (steep : Steep.t) : MemoryStore :=
  mkStore (teapots s) (teas s) (brews s) (<[Steep.ID steep := steep]> (steeps s)).

Definition GetSteep (s : MemoryStore) (id : string) : Steep.t * bool :=
  match steeps s !! id with
  | Some steep => (steep, true)
  | None => (Steep.zero, false)
  end.

End Store.

(** ** internal/handlers *)

(** The outcome of [c.ShouldBindQuery] / [c.ShouldBindJSON]: the bound value,
    or the text of the error. *)
Inductive Bind (A : Type) : Type :=
| BindOk (v : A)
| BindErr (err : string).
Arguments BindOk {A} v.
Arguments BindErr {A} err.

(** The struct tags of [models.PaginationQuery]:
    [Page] is [binding:"omitempty,min=1"] and
    [Limit] is [binding:"omitempty,min=1,max=100"].  A query is bound
    without error only if it satisfies them. *)
Definition binding_PaginationQuery (q : PaginationQuery.t) : bool :=
  ((PaginationQuery.Page q =? 0) || (1 <=? PaginationQuery.Page q)) &&
  ((PaginationQuery.Limit q =? 0) ||
   ((1 <=? PaginationQuery.Limit q) && (PaginationQuery.Limit q <=? 100))).

Definition StatusOK : Z := 200.
Definition StatusCreated : Z := 201.
Definition StatusNoContent : Z := 204.
Definition StatusBadRequest : Z := 400.
Definition StatusNotFound : Z := 404.

Inductive Body : Type :=
| ErrorBody (e : Error.t)
| TeapotBody (t : Teapot.t)
| TeaBody (t : Tea.t)
| BrewBody (b : Brew.t)
| SteepBody (s : Steep.t)
| TeapotListResponse (Data : list Teapot.t) (p : Pagination.t)
| TeaListResponse (Data : list Tea.t) (p : Pagination.t)
| BrewListResponse (Data : list Brew.t) (p : Pagination.t)
| SteepListResponse (Data : list Steep.t) (p : Pagination.t).

(** What a handler writes: [c.JSON(code, obj)] or [c.Status(code)]. *)
Inductive Response : Type :=
| JSON (code : Z) (obj : Body)
| Status (code : Z).

Definition validation_error (message : string) : Response :=
  JSON StatusBadRequest (ErrorBody (Error.mk "VALIDATION_ERROR" message)).

Definition not_found (message : string) : Response :=
  JSON StatusNotFound (ErrorBody (Error.mk "NOT_FOUND" message)).

(** The "Set defaults" block of every list handler. *)
Definition set_defaults (query : PaginationQuery.t) : PaginationQuery.t :=
  let query :=
    if PaginationQuery.Page query =? 0
    then PaginationQuery.mk 1 (PaginationQuery.Limit query) else query in
  if PaginationQuery.Limit query =? 0
  then PaginationQuery.mk (PaginationQuery.Page query) 20 else query.

(** [totalPages := (total + limit - 1) / limit], then the clamp
    [if totalPages < 0 { totalPages = 0 }]. *)
Definition totalPages (total limit : Z) : option Z :=
  match GoInt.div (GoInt.sub (GoInt.add total limit) 1) limit with
  | None => None
  | Some totalPages => Some (if totalPages <? 0 then 0 else totalPages)
  end.

(** Field assignments [existing.F = v]. *)
Definition Teapot_set_Name (v : string) (t : Teapot.t) : Teapot.t :=
  Teapot.mk (Teapot.ID t) v (Teapot.Material t) (Teapot.CapacityMl t)
    (Teapot.Style t) (Teapot.Description t) (Teapot.CreatedAt t)
    (Teapot.UpdatedAt t).
Definition Teapot_set_Material (v : TeapotMaterial) (t : Teapot.t) : Teapot.t :=
  Teapot.mk (Teapot.ID t) (Teapot.Name t) v (Teapot.CapacityMl t)
    (Teapot.Style t) (Teapot.Description t) (Teapot.CreatedAt t)
    (Teapot.UpdatedAt t).
Definition Teapot_set_CapacityMl (v : Z) (t : Teapot.t) : Teapot.t :=
  Teapot.mk (Teapot.ID t) (Teapot.Name t) (Teapot.Material t) v
    (Teapot.Style t) (Teapot.Description t) (Teapot.CreatedAt t)
    (Teapot.UpdatedAt t).
Definition Teapot_set_Style (v : TeapotStyle) (t : Teapot.t) : Teapot.t :=
  Teapot.mk (Teapot.ID t) (Teapot.Name t) (Teapot.Material t)
    (Teapot.CapacityMl t) v (Teapot.Description t) (Teapot.CreatedAt t)
    (Teapot.UpdatedAt t).
Definition Teapot_set_Description (v : option string) (t : Teapot.t) : Teapot.t :=
  Teapot.mk (Teapot.ID t) (Teapot.Name t) (Teapot.Material t)
    (Teapot.CapacityMl t) (Teapot.Style t) v (Teapot.CreatedAt t)
    (Teapot.UpdatedAt t).
Definition Teapot_set_UpdatedAt (v : Time) (t : Teapot.t) : Teapot.t :=
  Teapot.mk (Teapot.ID t) (Teapot.Name t) (Teapot.Material t)
    (Teapot.CapacityMl t) (Teapot.Style t) (Teapot.Description t)
    (Teapot.CreatedAt t) v.

Definition Tea_set_Name (v : string) (t : Tea.t) : Tea.t :=
  Tea.mk (Tea.ID t) v (Tea.Type_ t) (Tea.Origin t) (Tea.CaffeineLevel t)
    (Tea.SteepTempCelsius t) (Tea.SteepTimeSeconds t) (Tea.Description t)
    (Tea.CreatedAt t) (Tea.UpdatedAt t).
Definition Tea_set_Type (v : TeaType) (t : Tea.t) : Tea.t :=
  Tea.mk (Tea.ID t) (Tea.Name t) v (Tea.Origin t) (Tea.CaffeineLevel t)
    (Tea.SteepTempCelsius t) (Tea.SteepTimeSeconds t) (Tea.Description t)
    (Tea.CreatedAt t) (Tea.UpdatedAt t).
Definition Tea_set_Origin (v : option string) (t : Tea.t) : Tea.t :=
  Tea.mk (Tea.ID t) (Tea.Name t) (Tea.Type_ t) v (Tea.CaffeineLevel t)
    (Tea.SteepTempCelsius t) (Tea.SteepTimeSeconds t) (Tea.Description t)
    (Tea.CreatedAt t) (Tea.UpdatedAt t).
Definition Tea_set_CaffeineLevel (v : CaffeineLevel) (t : Tea.t) : Tea.t :=
  Tea.mk (Tea.ID t) (Tea.Name t) (Tea.Type_ t) (Tea.Origin t) v
    (Tea.SteepTempCelsius t) (Tea.SteepTimeSeconds t) (Tea.Description t)
    (Tea.CreatedAt t) (Tea.UpdatedAt t).
Definition Tea_set_SteepTempCelsius (v : Z) (t : Tea.t) : Tea.t :=
  Tea.mk (Tea.ID t) (Tea.Name t) (Tea.Type_ t) (Tea.Origin t)
    (Tea.CaffeineLevel t) v (Tea.SteepTimeSeconds t) (Tea.Description t)
    (Tea.CreatedAt t) (Tea.UpdatedAt t).
Definition Tea_set_SteepTimeSeconds (v : Z) (t : Tea.t) : Tea.t :=
  Tea.mk (Tea.ID t) (Tea.Name t) (Tea.Type_ t) (Tea.Origin t)
    (Tea.CaffeineLevel t) (Tea.SteepTempCelsius t) v (Tea.Description t)
    (Tea.CreatedAt t) (Tea.UpdatedAt t).
Definition Tea_set_Description (v : option string) (t : Tea.t) : Tea.t :=
  Tea.mk (Tea.ID t) (Tea.Name t) (Tea.Type_ t) (Tea.Origin t)
    (Tea.CaffeineLevel t) (Tea.SteepTempCelsius t) (Tea.SteepTimeSeconds t) v
    (Tea.CreatedAt t) (Tea.UpdatedAt t).
Definition Tea_set_UpdatedAt (v : Time) (t : Tea.t) : Tea.t :=
  Tea.mk (Tea.ID t) (Tea.Name t) (Tea.Type_ t) (Tea.Origin t)
    (Tea.CaffeineLevel t) (Tea.SteepTempCelsius t) (Tea.SteepTimeSeconds t)
    (Tea.Description t) (Tea.CreatedAt t) v.

Definition Brew_set_Status (v : BrewStatus) (b : Brew.t) : Brew.t :=
  Brew.mk (Brew.ID b) (Brew.TeapotID b) (Brew.TeaID b) v
    (Brew.WaterTempCelsius b) (Brew.Notes b) (Brew.StartedAt b)
    (Brew.CompletedAt b) (Brew.CreatedAt b) (Brew.UpdatedAt b).
Definition Brew_set_Notes (v : option string) (b : Brew.t) : Brew.t :=
  Brew.mk (Brew.ID b) (Brew.TeapotID b) (Brew.TeaID b) (Brew.Status b)
    (Brew.WaterTempCelsius b) v (Brew.StartedAt b)
    (Brew.CompletedAt b) (Brew.CreatedAt b) (Brew.UpdatedAt b).
Definition Brew_set_CompletedAt (v : option Time) (b : Brew.t) : Brew.t :=
  Brew.mk (Brew.ID b) (Brew.TeapotID b) (Brew.TeaID b) (Brew.Status b)
    (Brew.WaterTempCelsius b) (Brew.Notes b) (Brew.StartedAt b)
    v (Brew.CreatedAt b) (Brew.UpdatedAt b).
Definition Brew_set_UpdatedAt (v : Time) (b : Brew.t) : Brew.t :=
  Brew.mk (Brew.ID b) (Brew.TeapotID b) (Brew.TeaID b) (Brew.Status b)
    (Brew.WaterTempCelsius b) (Brew.Notes b) (Brew.StartedAt b)
    (Brew.CompletedAt b) (Brew.CreatedAt b) v.

(** [if p != nil { existing.F = *p }] for a value field, and
    [if p != nil { existing.F = p }] for a pointer field. *)
Definition patch_value {A R} (set : A → R → R) (p : option A) (existing : R) : R :=
  match p with
  | Some v => set v existing
  | None => existing
  end.

Definition patch_pointer {A R} (set : option A → R → R) (p : option A)
  (existing : R) : R :=
  match p with
  | Some v => set (Some v) existing
  | None => existing
  end.

(** In the handlers below, [id] is [c.Param("id")], [query] and [body] are
    the outcomes of [c.ShouldBindQuery] and [c.ShouldBindJSON], [newid] is
    [uuid.New().String()] and [now] is [time.Now().UTC()].  A handler returns
    the store it leaves behind and the response it writes; a list handler
    leaves the store as it is and returns only the response. *)

Module TeapotHandler.
Section Handlers.
Context `{rt : GoRuntime}.

Definition List (s : MemoryStore) (query : Bind TeapotQuery.t)
  : option Response :=
  match query with
  | BindErr err => Some (validation_error err)
  | BindOk query =>
      let query :=
        TeapotQuery.mk (set_defaults (TeapotQuery.PaginationQuery query))
          (TeapotQuery.Material query) (TeapotQuery.Style query) in
      match ListTeapots s query with
      | None => None
      | Some (teapots, total) =>
          match totalPages total (TeapotQuery.Limit query) with
          | None => None
          | Some totalPages =>
              Some (JSON StatusOK
                      (TeapotListResponse teapots
                         (Pagination.mk (TeapotQuery.Page query)
                            (TeapotQuery.Limit query) total totalPages)))
          end
      end
  end.

Definition Create (s : MemoryStore) (body : Bind CreateTeapotRequest.t)
  (newid : string) (now : Time) : MemoryStore * Response :=
  match body with
  | BindErr err => (s, validation_error err)
  | BindOk req =>
      let Style :=
        if bool_decide (CreateTeapotRequest.Style req = "")
        then StyleEnglish else CreateTeapotRequest.Style req in
      let teapot :=
        Teapot.mk newid (CreateTeapotRequest.Name req)
          (CreateTeapotRequest.Material req)
          (CreateTeapotRequest.CapacityMl req) Style
          (CreateTeapotRequest.Description req) now now in
      (CreateTeapot s teapot, JSON StatusCreated (TeapotBody teapot))
  end.

Definition Patch (s : MemoryStore) (id : string)
  (body : Bind PatchTeapotRequest.t) (now : Time) : MemoryStore * Response :=
  if negb (uuid_Parse id) then (s, validation_error "Invalid teapot ID format")
  else
    let '(existing, found) := GetTeapot s id in
    if negb found then (s, not_found "Teapot not found")
    else
      match body with
      | BindErr err => (s, validation_error err)
      | BindOk req =>
          let existing :=
            patch_value Teapot_set_Name (PatchTeapotRequest.Name req) existing in
          let existing :=
            patch_value Teapot_set_Material (PatchTeapotRequest.Material req)
              existing in
          let existing :=
            patch_value Teapot_set_CapacityMl
              (PatchTeapotRequest.CapacityMl req) existing in
          let existing :=
            patch_value Teapot_set_Style (PatchTeapotRequest.Style req)
              existing in
          let existing :=
            patch_pointer Teapot_set_Description
              (PatchTeapotRequest.Description req) existing in
          let existing := Teapot_set_UpdatedAt now existing in
          (UpdateTeapot s existing, JSON StatusOK (TeapotBody existing))
      end.

Definition Get (s : MemoryStore) (id : string) : Response :=
  if negb (uuid_Parse id) then validation_error "Invalid teapot ID format"
  else
    let '(teapot, found) := GetTeapot s id in
    if negb found then not_found "Teapot not found"
    else JSON StatusOK (TeapotBody teapot).

Definition Update (s : MemoryStore) (id : string)
  (body : Bind UpdateTeapotRequest.t) (now : Time) : MemoryStore * Response :=
  if negb (uuid_Parse id) then (s, validation_error "Invalid teapot ID format")
  else
    let '(existing, found) := GetTeapot s id in
    if negb found then (s, not_found "Teapot not found")
    else
      match body with
      | BindErr err => (s, validation_error err)
      | BindOk req =>
          let teapot :=
            Teapot.mk id (UpdateTeapotRequest.Name req)
              (UpdateTeapotRequest.Material req)
              (UpdateTeapotRequest.CapacityMl req)
              (UpdateTeapotRequest.Style req)
              (UpdateTeapotRequest.Description req)
              (Teapot.CreatedAt existing) now in
          (UpdateTeapot s teapot, JSON StatusOK (TeapotBody teapot))
      end.

Definition Delete (s : MemoryStore) (id : string) : MemoryStore * Response :=
  if negb (uuid_Parse id) then (s, validation_error "Invalid teapot ID format")
  else
    let '(s', removed) := DeleteTeapot s id in
    if negb removed then (s', not_found "Teapot not found")
    else (s', Status StatusNoContent).

End Handlers.
End TeapotHandler.

Module TeaHandler.
Section Handlers.
Context `{rt : GoRuntime}.

Definition List (s : MemoryStore) (query : Bind TeaQuery.t)
  : option Response :=
  match query with
  | BindErr err => Some (validation_error err)
  | BindOk query =>
      let query :=
        TeaQuery.mk (set_defaults (TeaQuery.PaginationQuery query))
          (TeaQuery.Type_ query) (TeaQuery.CaffeineLevel query) in
      match ListTeas s query with
      | None => None
      | Some (teas, total) =>
          match totalPages total (TeaQuery.Limit query) with
          | None => None
          | Some totalPages =>
              Some (JSON StatusOK
                      (TeaListResponse teas
                         (Pagination.mk (TeaQuery.Page query)
                            (TeaQuery.Limit query) total totalPages)))
          end
      end
  end.

Definition Create (s : MemoryStore) (body : Bind CreateTeaRequest.t)
  (newid : string) (now : Time) : MemoryStore * Response :=
  match body with
  | BindErr err => (s, validation_error err)
  | BindOk req =>
      let CaffeineLevel :=
        if bool_decide (CreateTeaRequest.CaffeineLevel req = "")
        then CaffeineMedium else CreateTeaRequest.CaffeineLevel req in
      let tea :=
        Tea.mk newid (CreateTeaRequest.Name req) (CreateTeaRequest.Type_ req)
          (CreateTeaRequest.Origin req) CaffeineLevel
          (CreateTeaRequest.SteepTempCelsius req)
          (CreateTeaRequest.SteepTimeSeconds req)
          (CreateTeaRequest.Description req) now now in
      (CreateTea s tea, JSON StatusCreated (TeaBody tea))
  end.

Definition Patch (s : MemoryStore) (id : string)
  (body : Bind PatchTeaRequest.t) (now : Time) : MemoryStore * Response :=
  if negb (uuid_Parse id) then (s, validation_error "Invalid tea ID format")
  else
    let '(existing, found) := GetTea s id in
    if negb found then (s, not_found "Tea not found")
    else
      match body with
      | BindErr err => (s, validation_error err)
      | BindOk req =>
          let existing :=
            patch_value Tea_set_Name (PatchTeaRequest.Name req) existing in
          let existing :=
            patch_value Tea_set_Type (PatchTeaRequest.Type_ req) existing in
          let existing :=
            patch_pointer Tea_set_Origin (PatchTeaRequest.Origin req)
              existing in
          let existing :=
            patch_value Tea_set_CaffeineLevel
              (PatchTeaRequest.CaffeineLevel req) existing in
          let existing :=
            patch_value Tea_set_SteepTempCelsius
              (PatchTeaRequest.SteepTempCelsius req) existing in
          let existing :=
            patch_value Tea_set_SteepTimeSeconds
              (PatchTeaRequest.SteepTimeSeconds req) existing in
          let existing :=
            patch_pointer Tea_set_Description
              (PatchTeaRequest.Description req) existing in
          let existing := Tea_set_UpdatedAt now existing in
          (UpdateTea s existing, JSON StatusOK (TeaBody existing))
      end.

Definition Get (s : MemoryStore) (id : string) : Response :=
  if negb (uuid_Parse id) then validation_error "Invalid tea ID format"
  else
    let '(tea, found) := GetTea s id in
    if negb found then not_found "Tea not found"
    else JSON StatusOK (TeaBody tea).

Definition Update (s : MemoryStore) (id : string)
  (body : Bind UpdateTeaRequest.t) (now : Time) : MemoryStore * Response :=
  if negb (uuid_Parse id) then (s, validation_error "Invalid tea ID format")
  else
    let '(existing, found) := GetTea s id in
    if negb found then (s, not_found "Tea not found")
    else
      match body with
      | BindErr err => (s, validation_error err)
      | BindOk req =>
          let tea :=
            Tea.mk id (UpdateTeaRequest.Name req) (UpdateTeaRequest.Type_ req)
              (UpdateTeaRequest.Origin req) (UpdateTeaRequest.CaffeineLevel req)
              (UpdateTeaRequest.SteepTempCelsius req)
              (UpdateTeaRequest.SteepTimeSeconds req)
              (UpdateTeaRequest.Description req)
              (Tea.CreatedAt existing) now in
          (UpdateTea s tea, JSON StatusOK (TeaBody tea))
      end.

Definition Delete (s : MemoryStore) (id : string) : MemoryStore * Response :=
  if negb (uuid_Parse id) then (s, validation_error "Invalid tea ID format")
  else
    let '(s', removed) := DeleteTea s id in
    if negb removed then (s', not_found "Tea not found")
    else (s', Status StatusNoContent).

End Handlers.
End TeaHandler.

Module BrewHandler.
Section Handlers.
Context `{rt : GoRuntime}.

Definition List (s : MemoryStore) (query : Bind BrewQuery.t)
  : option Response :=
  match query with
  | BindErr err => Some (validation_error err)
  | BindOk query =>
      let query :=
        BrewQuery.mk (set_defaults (BrewQuery.PaginationQuery query))
          (BrewQuery.Status query) (BrewQuery.TeapotID query)
          (BrewQuery.TeaID query) in
      match ListBrews s query with
      | None => None
      | Some (brews, total) =>
          match totalPages total (BrewQuery.Limit query) with
          | None => None
          | Some totalPages =>
              Some (JSON StatusOK
                      (BrewListResponse brews
                         (Pagination.mk (BrewQuery.Page query)
                            (BrewQuery.Limit query) total totalPages)))
          end
      end
  end.

Definition Create (s : MemoryStore) (body : Bind CreateBrewRequest.t)
  (newid : string) (now : Time) : MemoryStore * Response :=
  match body with
  | BindErr err => (s, validation_error err)
  | BindOk req =>
      if negb (GetTeapot s (CreateBrewRequest.TeapotID req)).2
      then (s, validation_error "Teapot not found")
      else
        let '(tea, found) := GetTea s (CreateBrewRequest.TeaID req) in
        if negb found then (s, validation_error "Tea not found")
        else
          let waterTemp :=
            match CreateBrewRequest.WaterTempCelsius req with
            | Some w => w
            | None => Tea.SteepTempCelsius tea
            end in
          let brew :=
            Brew.mk newid (CreateBrewRequest.TeapotID req)
              (CreateBrewRequest.TeaID req) BrewPreparing waterTemp
              (CreateBrewRequest.Notes req) now None now now in
          (CreateBrew s brew, JSON StatusCreated (BrewBody brew))
  end.

Definition Patch (s : MemoryStore) (id : string)
  (body : Bind PatchBrewRequest.t) (now : Time) : MemoryStore * Response :=
  if negb (uuid_Parse id) then (s, validation_error "Invalid brew ID format")
  else
    let '(existing, found) := GetBrew s id in
    if negb found then (s, not_found "Brew not found")
    else
      match body with
      | BindErr err => (s, validation_error err)
      | BindOk req =>
          let existing :=
            patch_value Brew_set_Status (PatchBrewRequest.Status req)
              existing in
          let existing :=
            patch_pointer Brew_set_Notes (PatchBrewRequest.Notes req)
              existing in
          let existing :=
            patch_pointer Brew_set_CompletedAt
              (PatchBrewRequest.CompletedAt req) existing in
          let existing := Brew_set_UpdatedAt now existing in
          (UpdateBrew s existing, JSON StatusOK (BrewBody existing))
      end.

Definition ListByTeapot (s : MemoryStore) (teapotID : string)
  (query : Bind PaginationQuery.t) : option Response :=
  if negb (uuid_Parse teapotID)
  then Some (validation_error "Invalid teapot ID format")
  else if negb (GetTeapot s teapotID).2
  then Some (not_found "Teapot not found")
  else
    match query with
    | BindErr err => Some (validation_error err)
    | BindOk query =>
        let query := set_defaults query in
        match ListBrewsByTeapot s teapotID (PaginationQuery.Page query)
                (PaginationQuery.Limit query) with
        | None => None
        | Some (brews, total) =>
            match totalPages total (PaginationQuery.Limit query) with
            | None => None
            | Some totalPages =>
                Some (JSON StatusOK
                        (BrewListResponse brews
                           (Pagination.mk (PaginationQuery.Page query)
                              (PaginationQuery.Limit query) total totalPages)))
            end
        end
    end.

Definition ListSteeps (s : MemoryStore) (brewID : string)
  (query : Bind PaginationQuery.t) : option Response :=
  if negb (uuid_Parse brewID)
  then Some (validation_error "Invalid brew ID format")
  else if negb (GetBrew s brewID).2
  then Some (not_found "Brew not found")
  else
    match query with
    | BindErr err => Some (validation_error err)
    | BindOk query =>
        let query := set_defaults query in
        match ListSteepsByBrew s brewID (PaginationQuery.Page query)
                (PaginationQuery.Limit query) with
        | None => None
        | Some (steeps, total) =>
            match totalPages total (PaginationQuery.Limit query) with
            | None => None
            | Some totalPages =>
                Some (JSON StatusOK
                        (SteepListResponse steeps
                           (Pagination.mk (PaginationQuery.Page query)
                              (PaginationQuery.Limit query) total totalPages)))
            end
        end
    end.

Definition CreateSteep (s : MemoryStore) (brewID : string)
  (body : Bind CreateSteepRequest.t) (newid : string) (now : Time)
  : MemoryStore * Response :=
  if negb (uuid_Parse brewID)
  then (s, validation_error "Invalid brew ID format")
  else if negb (GetBrew s brewID).2 then (s, not_found "Brew not found")
  else
    match body with
    | BindErr err => (s, validation_error err)
    | BindOk req =>
        let steepNumber := GoInt.add (CountSteepsByBrew s brewID) 1 in
        let steep :=
          Steep.mk newid brewID steepNumber
            (CreateSteepRequest.DurationSeconds req)
            (CreateSteepRequest.Rating req) (CreateSteepRequest.Notes req)
            now in
        (CreateSteep s steep, JSON StatusCreated (SteepBody steep))
    end.

Definition Get (s : MemoryStore) (id : string) : Response :=
  if negb (uuid_Parse id) then validation_error "Invalid brew ID format"
  else
    let '(brew, found) := GetBrew s id in
    if negb found then not_found "Brew not found"
    else JSON StatusOK (BrewBody brew).

Definition Delete (s : MemoryStore) (id : string) : MemoryStore * Response :=
  if negb (uuid_Parse id) then (s, validation_error "Invalid brew ID format")
  else
    let '(s', removed) := DeleteBrew s id in
    if negb removed then (s', not_found "Brew not found")
    else (s', Status StatusNoContent).

End Handlers.
End BrewHandler.

(** ** internal/router

    The routes that can change the store, each with the handler the router
    gives it.  The remaining routes (the lists, the point reads and the
    health endpoints) leave the store as it is. *)

Inductive Request : Type :=
| POST_teapots (body : Bind CreateTeapotRequest.t)
| PUT_teapots_id (id : string) (body : Bind UpdateTeapotRequest.t)
| PATCH_teapots_id (id : string) (body : Bind PatchTeapotRequest.t)
| DELETE_teapots_id (id : string)
| POST_teas (body : Bind CreateTeaRequest.t)
| PUT_teas_id (id : string) (body : Bind UpdateTeaRequest.t)
| PATCH_teas_id (id : string) (body : Bind PatchTeaRequest.t)
| DELETE_teas_id (id : string)
| POST_brews (body : Bind CreateBrewRequest.t)
| PATCH_brews_id (id : string) (body : Bind PatchBrewRequest.t)
| DELETE_brews_id (id : string)
| POST_brews_id_steeps (id : string) (body : Bind CreateSteepRequest.t).

Section Router.
Context `{rt : GoRuntime}.

Definition serve (s : MemoryStore) (r : Request) (newid : string)
  (now : Time) : MemoryStore * Response :=
  match r with
  | POST_teapots body => TeapotHandler.Create s body newid now
  | PUT_teapots_id id body => TeapotHandler.Update s id body now
  | PATCH_teapots_id id body => TeapotHandler.Patch s id body now
  | DELETE_teapots_id id => TeapotHandler.Delete s id
  | POST_teas body => TeaHandler.Create s body newid now
  | PUT_teas_id id body => TeaHandler.Update s id body now
  | PATCH_teas_id id body => TeaHandler.Patch s id body now
  | DELETE_teas_id id => TeaHandler.Delete s id
  | POST_brews body => BrewHandler.Create s body newid now
  | PATCH_brews_id id body => BrewHandler.Patch s id body now
  | DELETE_brews_id id => BrewHandler.Delete s id
  | POST_brews_id_steeps id body => BrewHandler.CreateSteep s id body newid now
  end.

(** [served clock s]: the store [s] is what a server started by
    [router.Setup] holds after some sequence of requests, the last clock
    reading being [clock], when the clock readings taken along the way
    never decrease. *)
Inductive served : Time → MemoryStore → Prop :=
| served_Setup clock : served clock NewMemoryStore
| served_request clock s r newid now :
    served clock s → clock ≤ now → served now (serve s r newid now).1.

End Router.

(** ** Vocabulary of the specification *)

(** The values held by a table, one per key. *)
Definition records {V} (m : gmap string V) : list V := (map_to_list m).*2.

(** The page of [limit] elements that starts at offset [(page-1)*limit]:
    the window [[(page-1)*limit, (page-1)*limit + limit)], clipped to the
    list. *)
Definition page_of {A} (l : list A) (page limit : Z) : list A :=
  take (Z.to_nat limit) (drop (Z.to_nat ((page - 1) * limit)) l).

(** A nil filter field is ignored; a non-nil one demands equality. *)
Definition matches_field {A} (filter : option A) (v : A) : Prop :=
  ∀ w, filter = Some w → v = w.

Definition TeapotQuery_matches (q : TeapotQuery.t) (t : Teapot.t) : Prop :=
  matches_field (TeapotQuery.Material q) (Teapot.Material t) ∧
  matches_field (TeapotQuery.Style q) (Teapot.Style t).

Definition TeaQuery_matches (q : TeaQuery.t) (t : Tea.t) : Prop :=
  matches_field (TeaQuery.Type_ q) (Tea.Type_ t) ∧
  matches_field (TeaQuery.CaffeineLevel q) (Tea.CaffeineLevel t).

Definition BrewQuery_matches (q : BrewQuery.t) (b : Brew.t) : Prop :=
  matches_field (BrewQuery.Status q) (Brew.Status b) ∧
  matches_field (BrewQuery.TeapotID q) (Brew.TeapotID b) ∧
  matches_field (BrewQuery.TeaID q) (Brew.TeaID b).

#[export] Instance matches_field_dec {A} `{EqDecision A} (filter : option A)
  (v : A) : Decision (matches_field filter v).
Proof.
  refine (match filter with
          | Some w => cast_if (decide (v = w))
          | None => left _
          end); unfold matches_field; intros; try congruence.
  intros Hw. by specialize (Hw w eq_refl).
Defined.

#[export] Instance TeapotQuery_matches_dec q t :
  Decision (TeapotQuery_matches q t).
Proof. unfold TeapotQuery_matches. apply _. Defined.

#[export] Instance TeaQuery_matches_dec q t : Decision (TeaQuery_matches q t).
Proof. unfold TeaQuery_matches. apply _. Defined.

#[export] Instance BrewQuery_matches_dec q b :
  Decision (BrewQuery_matches q b).
Proof. unfold BrewQuery_matches. apply _. Defined.

(** The number of entries of a table that satisfy [P]. *)
Definition count_matching {V} (P : V → Prop) `{∀ x, Decision (P x)}
  (m : gmap string V) : Z :=
  len (filter P (records m)).

(** What claim C3 asks of a list operation [list_op] over [table], whose
    loop leaves [filtered]: the loop keeps exactly the entries that match,
    each as often as it is stored, and the total returned next to any page
    is the number of matching entries, whatever the page. *)
Definition filter_contract {V Q} (P : Q → V → Prop)
  `{∀ q x, Decision (P q x)} (table : gmap string V)
  (filtered : Q → list V) (list_op : Q → option (list V * Z)) : Prop :=
  ∀ q,
    (∀ x, x ∈ filtered q ↔ x ∈ records table ∧ P q x) ∧
    filtered q ≡ₚ filter (P q) (records table) ∧
    (∀ window total, list_op q = Some (window, total) →
       total = count_matching (P q) table ∧
       ∀ x, x ∈ window → x ∈ records table ∧ P q x).

(** Each element was created no later than its predecessor. *)
Definition newest_first {A} (created : A → Time) (l : list A) : Prop :=
  ∀ (i : nat) a b, l !! i = Some a → l !! S i = Some b →
    After (created b) (created a) = false.

(** Each element's key is not less than its predecessor's. *)
Definition ascending {A} (key : A → Z) (l : list A) : Prop :=
  ∀ (i : nat) a b, l !! i = Some a → l !! S i = Some b → ¬ key b < key a.

(** [n] is the ceiling of [total / limit], for a positive [limit]. *)
Definition is_ceil_div (n total limit : Z) : Prop :=
  (n - 1) * limit < total ≤ n * limit.

(** The Go runtime allocates at most [maxAlloc = 1 << 48] bytes on the 64-bit
    platforms, so no map or slice has more elements than that. *)
Definition maxAlloc : Z := 2 ^ 48.

Definition fits_memory {V} (m : gmap string V) : Prop :=
  Z.of_nat (size m) ≤ maxAlloc.

(** The effect of one patch statement on one field. *)
Definition patched_value {A} (p : option A) (old new : A) : Prop :=
  match p with
  | Some v => new = v
  | None => new = old
  end.

Definition patched_pointer {A} (p : option A) (old new : option A) : Prop :=
  match p with
  | Some v => new = Some v
  | None => new = old
  end.

(** What a PATCH makes of a record: every field of the request changes its
    field of the record when supplied and leaves it alone when nil,
    [UpdatedAt] becomes the clock reading, and nothing else changes. *)
Definition Teapot_patched (req : PatchTeapotRequest.t) (now : Time)
  (existing patched : Teapot.t) : Prop :=
  patched_value (PatchTeapotRequest.Name req)
    (Teapot.Name existing) (Teapot.Name patched) ∧
  patched_value (PatchTeapotRequest.Material req)
    (Teapot.Material existing) (Teapot.Material patched) ∧
  patched_value (PatchTeapotRequest.CapacityMl req)
    (Teapot.CapacityMl existing) (Teapot.CapacityMl patched) ∧
  patched_value (PatchTeapotRequest.Style req)
    (Teapot.Style existing) (Teapot.Style patched) ∧
  patched_pointer (PatchTeapotRequest.Description req)
    (Teapot.Description existing) (Teapot.Description patched) ∧
  Teapot.UpdatedAt patched = now ∧
  Teapot.CreatedAt patched = Teapot.CreatedAt existing ∧
  Teapot.ID patched = Teapot.ID existing.

Definition Tea_patched (req : PatchTeaRequest.t) (now : Time)
  (existing patched : Tea.t) : Prop :=
  patched_value (PatchTeaRequest.Name req)
    (Tea.Name existing) (Tea.Name patched) ∧
  patched_value (PatchTeaRequest.Type_ req)
    (Tea.Type_ existing) (Tea.Type_ patched) ∧
  patched_pointer (PatchTeaRequest.Origin req)
    (Tea.Origin existing) (Tea.Origin patched) ∧
  patched_value (PatchTeaRequest.CaffeineLevel req)
    (Tea.CaffeineLevel existing) (Tea.CaffeineLevel patched) ∧
  patched_value (PatchTeaRequest.SteepTempCelsius req)
    (Tea.SteepTempCelsius existing) (Tea.SteepTempCelsius patched) ∧
  patched_value (PatchTeaRequest.SteepTimeSeconds req)
    (Tea.SteepTimeSeconds existing) (Tea.SteepTimeSeconds patched) ∧
  patched_pointer (PatchTeaRequest.Description req)
    (Tea.Description existing) (Tea.Description patched) ∧
  Tea.UpdatedAt patched = now ∧
  Tea.CreatedAt patched = Tea.CreatedAt existing ∧
  Tea.ID patched = Tea.ID existing.

Definition Brew_patched (req : PatchBrewRequest.t) (now : Time)
  (existing patched : Brew.t) : Prop :=
  patched_value (PatchBrewRequest.Status req)
    (Brew.Status existing) (Brew.Status patched) ∧
  patched_pointer (PatchBrewRequest.Notes req)
    (Brew.Notes existing) (Brew.Notes patched) ∧
  patched_pointer (PatchBrewRequest.CompletedAt req)
    (Brew.CompletedAt existing) (Brew.CompletedAt patched) ∧
  Brew.TeapotID patched = Brew.TeapotID existing ∧
  Brew.TeaID patched = Brew.TeaID existing ∧
  Brew.WaterTempCelsius patched = Brew.WaterTempCelsius existing ∧
  Brew.StartedAt patched = Brew.StartedAt existing ∧
  Brew.UpdatedAt patched = now ∧
  Brew.CreatedAt patched = Brew.CreatedAt existing ∧
  Brew.ID patched = Brew.ID existing.

(** What holds of every store a server can hold when its last clock reading
    is [clock]: a record is stored under its own identifier, and no
    record was updated after [clock]. *)
Definition store_invariant (clock : Time) (s : MemoryStore) : Prop :=
  map_Forall (λ k t, Teapot.ID t = k ∧ Teapot.UpdatedAt t ≤ clock) (teapots s) ∧
  map_Forall (λ k t, Tea.ID t = k ∧ Tea.UpdatedAt t ≤ clock) (teas s) ∧
  map_Forall (λ k b, Brew.ID b = k ∧ Brew.UpdatedAt b ≤ clock) (brews s).

(** The number of steeps stored for a brew. *)
Definition steeps_of_brew (s : MemoryStore) (brewID : string) : Z :=
  count_matching (λ st, Steep.BrewID st = brewID) (steeps s).

(** The steep number carried by a response. *)
Definition steep_number_of (r : Response) : option Z :=
  match r with
  | JSON _ (SteepBody st) => Some (Steep.SteepNumber st)
  | _ => None
  end.

(** The bounds contract of a list operation that returned [result] for
    [page] and [limit] over [total] filtered entries.  From page 1 on, and
    as long as [page * limit] is representable, the operation returns and,
    where the slice expression is reached, its bounds are in order and
    within the list; for a page below 1 and a positive limit, with at least
    one entry, the start index is negative and the operation panics. *)
Definition bounds_at {A} (result : option (list A * Z))
  (total page limit : Z) : Prop :=
  (1 ≤ page → 0 ≤ limit → page * limit ≤ GoInt.max_int →
   is_Some result ∧
   (window_start page limit < total →
    0 ≤ window_start page limit ≤ window_end total page limit ∧
    window_end total page limit ≤ total)) ∧
  (page ≤ 0 → 1 ≤ limit → GoInt.min_int ≤ (page - 1) * limit → 1 ≤ total →
   window_start page limit < 0 ∧ result = None).

(** A pagination query as a handler passes it on: bound without error, with
    the defaults filled in. *)
Definition effective_query (q : PaginationQuery.t) : Prop :=
  ∃ q0, binding_PaginationQuery q0 = true ∧ q = set_defaults q0.

(** The pagination block of a list response. *)
Definition pagination_of (r : Response) : option Pagination.t :=
  match r with
  | JSON _ (TeapotListResponse _ p) => Some p
  | JSON _ (TeaListResponse _ p) => Some p
  | JSON _ (BrewListResponse _ p) => Some p
  | JSON _ (SteepListResponse _ p) => Some p
  | _ => None
  end.

(** [n] is the page count the specification asks for. *)
Definition is_page_count (n total limit : Z) : Prop :=
  1 ≤ limit ∧ 0 ≤ total ∧
  n = (total + limit - 1) `div` limit ∧
  is_ceil_div n total limit ∧
  (total ≤ limit → n = if total =? 0 then 0 else 1).

(** The pagination block of every list response meets [is_page_count]. *)
Definition pages_of_response (r : option Response) : Prop :=
  ∀ resp p, r = Some resp → pagination_of resp = Some p →
    is_page_count (Pagination.TotalPages p) (Pagination.Total p)
      (Pagination.Limit p).

(** ** Sample data

    The records of the specification's end-to-end example, and a table of
    three teapots created at different times. *)

Definition sample_teapot_id : string := "550e8400-e29b-41d4-a716-446655440000".
Definition sample_tea_id : string := "550e8400-e29b-41d4-a716-446655440001".
Definition sample_brew_id : string := "550e8400-e29b-41d4-a716-446655440002".
Definition first_steep_id : string := "550e8400-e29b-41d4-a716-446655440003".
Definition second_steep_id : string := "550e8400-e29b-41d4-a716-446655440004".
Definition third_steep_id : string := "550e8400-e29b-41d4-a716-446655440005".
Definition missing_id : string := "550e8400-e29b-41d4-a716-4466554400ff".

Definition sample_store : MemoryStore :=
  let created :=
    (TeapotHandler.Create NewMemoryStore
       (BindOk (CreateTeapotRequest.mk "My Kyusu" "clay" 350 "kyusu" None))
       sample_teapot_id 1000).1 in
  (TeaHandler.Create created
     (BindOk (CreateTeaRequest.mk "Dragon Well" "green" None "" 80 120 None))
     sample_tea_id 2000).1.

Definition sample_brew_request : CreateBrewRequest.t :=
  CreateBrewRequest.mk sample_teapot_id sample_tea_id None None.

Definition sample_brew : Brew.t :=
  Brew.mk sample_brew_id sample_teapot_id sample_tea_id "preparing" 80 None
    3000 None 3000 3000.

Definition brewing_store : MemoryStore :=
  (BrewHandler.Create sample_store (BindOk sample_brew_request)
     sample_brew_id 3000).1.

Definition teapot_a : Teapot.t :=
  Teapot.mk "a" "Tetsubin" "cast-iron" 900 "kyusu" None 5 5.
Definition teapot_b : Teapot.t :=
  Teapot.mk "b" "Glass pot" "glass" 600 "english" None 7 7.
Definition teapot_c : Teapot.t :=
  Teapot.mk "c" "Gaiwan" "cast-iron" 150 "gaiwan" None 6 6.

Definition three_teapots : MemoryStore :=
  CreateTeapot (CreateTeapot (CreateTeapot NewMemoryStore teapot_a) teapot_b)
    teapot_c.

Definition teapot_query (page limit : Z) (material : option TeapotMaterial)
  : TeapotQuery.t :=
  TeapotQuery.mk (PaginationQuery.mk page limit) material None.

(** ** internal/handlers/health.go *)

Definition StatusTeapot : Z := 418.
Definition StatusServiceUnavailable : Z := 503.

Module HealthCheck.
Record t := mk {
  Name : string;
  Status : string;
  LatencyMs : option Z;
  Message : option string
}.
End HealthCheck.

Module HealthResponse.
Record t := mk {
  Status : string;
  Timestamp : Time;
  Version : option string;
  Checks : list HealthCheck.t
}.
End HealthResponse.

Module TeapotResponse.
Record t := mk { Error : string; Message : string; Spec : string }.
End TeapotResponse.

(** What a health endpoint writes with [c.JSON]. *)
Inductive HealthBody : Type :=
| HealthResponseBody (r : HealthResponse.t)
| gin_H_status (status : string)
| TeapotResponseBody (r : TeapotResponse.t).

Module HealthHandler.

Definition Health (now : Time) : Z * HealthBody :=
  let version := "1.0.0" in
  (StatusOK, HealthResponseBody (HealthResponse.mk "ok" now (Some version) [])).

Definition Live : Z * HealthBody := (StatusOK, gin_H_status "ok").

(** The loop of [Ready]: [allOk] starts true and the first check whose
    status is not ["ok"] sets it to false and breaks. *)
Fixpoint allOk (checks : list HealthCheck.t) : bool :=
  match checks with
  | [] => true
  | check :: checks =>
      if bool_decide (HealthCheck.Status check ≠ "ok") then false
      else allOk checks
  end.

(** [Ready] from the point where [checks] is set. *)
Definition Ready_with (checks : list HealthCheck.t) (now : Time)
  : Z * HealthBody :=
  let allOk := allOk checks in
  let '(status, statusCode) :=
    if negb allOk then ("degraded", StatusServiceUnavailable)
    else ("ok", StatusOK) in
  (statusCode, HealthResponseBody (HealthResponse.mk status now None checks)).

Definition Ready (now : Time) : Z * HealthBody :=
  Ready_with [HealthCheck.mk "memory" "ok" None None;
              HealthCheck.mk "database" "ok" None None] now.

Definition Brew : Z * HealthBody :=
  (StatusTeapot,
   TeapotResponseBody
     (TeapotResponse.mk "I'm a teapot"
        "This server is TIF-compliant and cannot brew coffee"
        "https://teapotframework.dev")).

End HealthHandler.

(** ** Further vocabulary *)

(** A list result never holds more than [limit] records, nor more than the
    total it reports, and the total is a count of entries of a table of
    [size] entries. *)
Definition window_within {A} (result : option (list A * Z))
  (limit : Z) (size : nat) : Prop :=
  ∀ window total, result = Some (window, total) →
    len window ≤ limit ∧ len window ≤ total ∧ 0 ≤ total ≤ Z.of_nat size.

(** The windows of pages 1 to [n], in order, when every one is returned. *)
Definition first_pages {A} (l : list A) (limit : Z) (n : nat)
  : option (list (list A)) :=
  mapM (λ p : nat, fst <$> paginate l (Z.of_nat p) limit) (seq 1 n).

(** A list result seen through a key of its records. *)
Definition keys_of {A K} (key : A → K) (result : option (list A * Z))
  : option (list K * Z) :=
  match result with
  | Some (window, total) => Some (key <$> window, total)
  | None => None
  end.

(** The response is one of the error forms. *)
Definition is_error (r : Response) : Prop :=
  match r with
  | JSON _ (ErrorBody _) => True
  | _ => False
  end.

(** The status code of a response. *)
Definition status_of (r : Response) : Z :=
  match r with
  | JSON code _ => code
  | Status code => code
  end.

(** The number of records and the pagination block of a list response. *)
Definition list_summary (r : Response) : option (Z * Pagination.t) :=
  match r with
  | JSON _ (TeapotListResponse Data p) => Some (len Data, p)
  | JSON _ (TeaListResponse Data p) => Some (len Data, p)
  | JSON _ (BrewListResponse Data p) => Some (len Data, p)
  | JSON _ (SteepListResponse Data p) => Some (len Data, p)
  | _ => None
  end.

(** What a list response shows of the query [q] it answers, [matching]
    being the number of entries that pass the filters: status 200, the
    effective page and limit, the matching count as total, and no more
    records than the limit, which is at most 100. *)
Definition list_response_ok (r : option Response) (q : PaginationQuery.t)
  (matching : Z) : Prop :=
  ∀ resp n p, r = Some resp → list_summary resp = Some (n, p) →
    status_of resp = StatusOK ∧
    Pagination.Page p = PaginationQuery.Page (set_defaults q) ∧
    Pagination.Limit p = PaginationQuery.Limit (set_defaults q) ∧
    Pagination.Total p = matching ∧
    1 ≤ Pagination.Page p ∧
    n ≤ Pagination.Limit p ≤ 100 ∧ n ≤ Pagination.Total p.

(** The path parameter of a route, when it has one. *)
Definition route_id (r : Request) : option string :=
  match r with
  | PUT_teapots_id id _ | PATCH_teapots_id id _ | DELETE_teapots_id id
  | PUT_teas_id id _ | PATCH_teas_id id _ | DELETE_teas_id id
  | PATCH_brews_id id _ | DELETE_brews_id id
  | POST_brews_id_steeps id _ => Some id
  | POST_teapots _ | POST_teas _ | POST_brews _ => None
  end.

(** The identifier under which a route writes: the fresh one for the
    creating routes, the path parameter for the others. *)
Definition written_id (r : Request) (newid : string) : string :=
  match r with
  | POST_teapots _ | POST_teas _ | POST_brews _
  | POST_brews_id_steeps _ _ => newid
  | PUT_teapots_id id _ | PATCH_teapots_id id _ | DELETE_teapots_id id
  | PUT_teas_id id _ | PATCH_teas_id id _ | DELETE_teas_id id
  | PATCH_brews_id id _ | DELETE_brews_id id => id
  end.

(** The table a route works on. *)
Inductive Table : Type := Teapots | Teas | Brews | Steeps.

Definition route_table (r : Request) : Table :=
  match r with
  | POST_teapots _ | PUT_teapots_id _ _ | PATCH_teapots_id _ _
  | DELETE_teapots_id _ => Teapots
  | POST_teas _ | PUT_teas_id _ _ | PATCH_teas_id _ _
  | DELETE_teas_id _ => Teas
  | POST_brews _ | PATCH_brews_id _ _ | DELETE_brews_id _ => Brews
  | POST_brews_id_steeps _ _ => Steeps
  end.

(** Whether the record a route with a path parameter addresses is stored:
    the teapot, the tea, the brew, and for the steeps route the parent
    brew. *)
Definition addressed (s : MemoryStore) (r : Request) (id : string) : bool :=
  match route_table r with
  | Teapots => (GetTeapot s id).2
  | Teas => (GetTea s id).2
  | Brews | Steeps => (GetBrew s id).2
  end.

(** Every record sits under its own identifier, was created no later than
    it was last updated, and was last updated no later than [clock]. *)
Definition records_consistent (clock : Time) (s : MemoryStore) : Prop :=
  map_Forall (λ k t, Teapot.ID t = k ∧
                Teapot.CreatedAt t ≤ Teapot.UpdatedAt t ≤ clock) (teapots s) ∧
  map_Forall (λ k t, Tea.ID t = k ∧
                Tea.CreatedAt t ≤ Tea.UpdatedAt t ≤ clock) (teas s) ∧
  map_Forall (λ k b, Brew.ID b = k ∧
                Brew.CreatedAt b ≤ Brew.UpdatedAt b ≤ clock ∧
                Brew.StartedAt b = Brew.CreatedAt b) (brews s) ∧
  map_Forall (λ k st, Steep.ID st = k ∧ Steep.CreatedAt st ≤ clock) (steeps s).

(** The parent tests of the two relationship listings. *)
Definition belongs_to_teapot (teapotID : string) (b : Brew.t) : Prop :=
  Brew.TeapotID b = teapotID.

Definition belongs_to_brew (brewID : string) (st : Steep.t) : Prop :=
  Steep.BrewID st = brewID.

Definition belongs_to_teapot_dec (teapotID : string) (b : Brew.t)
  : Decision (belongs_to_teapot teapotID b) :=
  decide (Brew.TeapotID b = teapotID).

Definition belongs_to_brew_dec (brewID : string) (st : Steep.t)
  : Decision (belongs_to_brew brewID st) :=
  decide (Steep.BrewID st = brewID).


Section FreshIdentifiers.
Context `{rt : GoRuntime}.


End FreshIdentifiers.

(** ** A reference runtime

    One admissible runtime, used to run the model: a map is visited in the
    order of its list view, [sort.Slice] is an insertion sort and
    [uuid.Parse] accepts the 36-character form. *)

Fixpoint insert_by {A} (less : A → A → bool) (x : A) (l : list A) : list A :=
  match l with
  | [] => [x]
  | y :: l' => if less y x then y :: insert_by less x l' else x :: l
  end.

Definition insertion_sort {A} (less : A → A → bool) (l : list A) : list A :=
  foldr (insert_by less) [] l.

Definition uuid_length_ok (s : string) : bool :=
  bool_decide (String.length s = 36%nat).

Definition reference_runtime : GoRuntime.
Proof.
  assert (Hinsert : ∀ A (less : A → A → bool) x l,
            insert_by less x l ≡ₚ x :: l).
  { intros A less x l. induction l as [|y l IH]; simpl; [done|].
    destruct (less y x); [|done]. rewrite IH. apply Permutation_swap. }
  refine {| map_range := @records;
            sort_Slice := @insertion_sort;
            uuid_Parse := uuid_length_ok |}.
  - (* the list view is an enumeration of the values *)
    done.
  - (* insertion sort permutes *)
    intros A less l. induction l as [|x l IH]; simpl; [done|].
    rewrite Hinsert. by rewrite IH.
  - (* insertion sort sorts, for a strict weak ordering *)
    intros A less l Hasym Hneg. unfold sorted_by.
    induction l as [|x l IH]; simpl; [constructor|].
    revert IH. generalize (insertion_sort less l). clear l.
    induction 1 as [|y l Hs IH Hy]; simpl.
    + repeat constructor.
    + destruct (less y x) eqn:Hyx.
      * constructor; [done|].
        rewrite Hinsert. constructor; [by apply Hasym | done].
      * constructor; [by constructor|].
        constructor; [done|].
        eapply Forall_impl; [exact Hy|].
        intros z Hz. simpl in *. by apply (Hneg z y x).
Defined.



(** * Properties *)

(** ** Integer arithmetic *)

Lemma wrap_id z : GoInt.in_range z → GoInt.wrap z = z.
Proof.
  unfold GoInt.in_range, GoInt.min_int, GoInt.max_int, GoInt.wrap.
  intros Hz. rewrite Z.mod_small; lia.
Qed.

Lemma wrap_in_range z : GoInt.in_range (GoInt.wrap z).
Proof.
  unfold GoInt.in_range, GoInt.min_int, GoInt.max_int, GoInt.wrap.
  pose proof (Z.mod_pos_bound (z + 2 ^ 63) (2 ^ 64)). lia.
Qed.

Lemma wrap_shift z k : GoInt.wrap (z + k * 2 ^ 64) = GoInt.wrap z.
Proof.
  unfold GoInt.wrap.
  replace (z + k * 2 ^ 64 + 2 ^ 63) with (z + 2 ^ 63 + k * 2 ^ 64) by lia.
  by rewrite Z_mod_plus_full.
Qed.

Lemma wrap_decompose z : ∃ k, GoInt.wrap z = z + k * 2 ^ 64.
Proof.
  exists (- ((z + 2 ^ 63) `div` 2 ^ 64)). unfold GoInt.wrap.
  pose proof (Z.div_mod (z + 2 ^ 63) (2 ^ 64)). lia.
Qed.

Lemma wrap_add_l a b : GoInt.wrap (GoInt.wrap a + b) = GoInt.wrap (a + b).
Proof.
  destruct (wrap_decompose a) as [k ->].
  replace (a + k * 2 ^ 64 + b) with (a + b + k * 2 ^ 64) by lia.
  apply wrap_shift.
Qed.

Lemma wrap_sub_l a b : GoInt.wrap (GoInt.wrap a - b) = GoInt.wrap (a - b).
Proof.
  destruct (wrap_decompose a) as [k ->].
  replace (a + k * 2 ^ 64 - b) with (a - b + k * 2 ^ 64) by lia.
  apply wrap_shift.
Qed.

Lemma wrap_mul_l a b : GoInt.wrap (GoInt.wrap a * b) = GoInt.wrap (a * b).
Proof.
  destruct (wrap_decompose a) as [k ->].
  replace ((a + k * 2 ^ 64) * b) with (a * b + (k * b) * 2 ^ 64) by lia.
  apply wrap_shift.
Qed.

Lemma window_start_wrap page limit :
  window_start page limit = GoInt.wrap ((page - 1) * limit).
Proof. unfold window_start, GoInt.mul, GoInt.sub. apply wrap_mul_l. Qed.

Lemma window_stop_wrap page limit :
  GoInt.add (window_start page limit) limit = GoInt.wrap (page * limit).
Proof.
  rewrite window_start_wrap. unfold GoInt.add. rewrite wrap_add_l.
  f_equal. lia.
Qed.

(** Without overflow the bounds are the mathematical ones. *)
Lemma window_start_exact page limit :
  GoInt.in_range ((page - 1) * limit) →
  window_start page limit = (page - 1) * limit.
Proof. intros. rewrite window_start_wrap. by apply wrap_id. Qed.

Lemma window_end_exact total page limit :
  GoInt.in_range (page * limit) →
  window_end total page limit = Z.min total (page * limit).
Proof.
  intros Hr. unfold window_end. rewrite window_stop_wrap, wrap_id by done.
  destruct (Z.ltb_spec total (page * limit)); lia.
Qed.

Lemma in_range_window page limit :
  1 ≤ page → 0 ≤ limit → page * limit ≤ GoInt.max_int →
  GoInt.in_range ((page - 1) * limit) ∧ GoInt.in_range (page * limit) ∧
  0 ≤ (page - 1) * limit ≤ page * limit.
Proof.
  unfold GoInt.in_range, GoInt.min_int, GoInt.max_int. intros. nia.
Qed.

(** ** Slices and windows *)

Lemma len_nonneg {A} (l : list A) : 0 ≤ len l.
Proof. unfold len. lia. Qed.

Lemma slice_expr_Some {A} (l : list A) lo hi :
  0 ≤ lo ≤ hi → hi ≤ len l →
  slice_expr l lo hi = Some (take (Z.to_nat (hi - lo)) (drop (Z.to_nat lo) l)).
Proof.
  intros [??] ?. unfold slice_expr.
  destruct (Z.leb_spec 0 lo), (Z.leb_spec lo hi), (Z.leb_spec hi (len l));
    simpl; first [done | lia].
Qed.

Lemma slice_expr_negative {A} (l : list A) lo hi :
  lo < 0 → slice_expr l lo hi = None.
Proof.
  intros. unfold slice_expr. by destruct (Z.leb_spec 0 lo); [lia|].
Qed.

Lemma page_of_lookup {A} (l : list A) page limit (i : nat) :
  page_of l page limit !! i =
  if decide (Z.of_nat i < limit)
  then l !! (Z.to_nat ((page - 1) * limit) + i)%nat else None.
Proof.
  unfold page_of. case_decide.
  - rewrite lookup_take_lt by lia. by rewrite lookup_drop.
  - apply lookup_take_ge. lia.
Qed.

Lemma paginate_in_range {A} (l : list A) page limit :
  1 ≤ page → 0 ≤ limit → page * limit ≤ GoInt.max_int →
  paginate l page limit = Some (page_of l page limit, len l).
Proof.
  intros Hp Hl Hmax.
  destruct (in_range_window page limit) as (Hs & He & Hle); [done..|].
  unfold paginate, page_of.
  rewrite window_start_exact, window_end_exact by done.
  set (start := (page - 1) * limit) in *.
  destruct (Z.leb_spec (len l) start) as [Hge|Hlt].
  - rewrite drop_ge by (unfold len in Hge; lia). by rewrite take_nil.
  - rewrite slice_expr_Some by lia. do 2 f_equal.
    destruct (Z.min_spec (len l) (page * limit)) as [[? ->]|[? ->]].
    + rewrite !take_ge; [done | | ]; rewrite length_drop; unfold len in *;
        subst start; lia.
    + f_equal. subst start. lia.
Qed.

Lemma paginate_Some {A} (l : list A) page limit window total :
  paginate l page limit = Some (window, total) →
  total = len l ∧ ∃ lo n, window = take n (drop lo l).
Proof.
  unfold paginate, slice_expr. intros Hp.
  repeat case_match; simplify_eq; split; try done.
  - by exists 0%nat, 0%nat.
  - eauto.
Qed.

Lemma elem_of_take_drop {A} (l : list A) lo n x :
  x ∈ take n (drop lo l) → x ∈ l.
Proof.
  intros Hx. apply list_elem_of_lookup in Hx as [i Hi].
  apply lookup_take_Some in Hi as [Hi _]. rewrite lookup_drop in Hi.
  by eapply list_elem_of_lookup_2.
Qed.

(** ** Filtering *)

Lemma differs_false {A} `{EqDecision A} (p : option A) (v : A) :
  differs p v = false ↔ matches_field p v.
Proof.
  unfold differs, matches_field. destruct p as [w|].
  - rewrite bool_decide_eq_false. split.
    + intros Hn w' [= <-]. by destruct (decide (v = w)).
    + intros Hm Hne. by apply Hne, Hm.
  - split; [congruence | done].
Qed.

Lemma differs_true {A} `{EqDecision A} (p : option A) (v : A) :
  differs p v = true ↔ ¬ matches_field p v.
Proof.
  rewrite <- differs_false. destruct (differs p v); naive_solver.
Qed.

(** A loop that appends the elements satisfying [P] and skips the others
    computes [filter P]. *)
Lemma range_loop_filter {A} (P : A → Prop) `{∀ x, Decision (P x)}
  (body : list A → A → list A) :
  (∀ acc x, P x → body acc x = acc ++ [x]) →
  (∀ acc x, ¬ P x → body acc x = acc) →
  ∀ l acc, foldl body acc l = acc ++ filter P l.
Proof.
  intros Hkeep Hskip. induction l as [|x l IH]; intros acc; simpl.
  - by rewrite app_nil_r.
  - rewrite IH, filter_cons. destruct (decide (P x)).
    + rewrite Hkeep by done. by rewrite <- app_assoc.
    + by rewrite Hskip.
Qed.

Lemma elem_of_records {V} (m : gmap string V) (v : V) :
  v ∈ records m ↔ ∃ k, m !! k = Some v.
Proof.
  unfold records. rewrite list_elem_of_fmap. split.
  - intros [[k v'] [-> Hin]]. exists k. by apply elem_of_map_to_list.
  - intros [k Hk]. exists (k, v). split; [done|].
    by apply elem_of_map_to_list.
Qed.

Lemma length_records {V} (m : gmap string V) : length (records m) = size m.
Proof. unfold records. by rewrite length_fmap, length_map_to_list. Qed.

Section Filtering.
Context `{rt : GoRuntime}.

Lemma map_range_records {V} (m : gmap string V) : map_range m ≡ₚ records m.
Proof. apply map_range_perm. Qed.

Lemma ListTeapots_filtered_filter s q :
  ListTeapots_filtered s q = filter (TeapotQuery_matches q) (map_range (teapots s)).
Proof.
  unfold ListTeapots_filtered.
  rewrite (range_loop_filter (TeapotQuery_matches q)); [done|..];
    intros acc t; unfold TeapotQuery_matches; rewrite <- !differs_false;
    destruct (differs (TeapotQuery.Material q) _),
             (differs (TeapotQuery.Style q) _); intuition congruence.
Qed.

Lemma ListTeas_filtered_filter s q :
  ListTeas_filtered s q = filter (TeaQuery_matches q) (map_range (teas s)).
Proof.
  unfold ListTeas_filtered.
  rewrite (range_loop_filter (TeaQuery_matches q)); [done|..];
    intros acc t; unfold TeaQuery_matches; rewrite <- !differs_false;
    destruct (differs (TeaQuery.Type_ q) _),
             (differs (TeaQuery.CaffeineLevel q) _); intuition congruence.
Qed.

Lemma ListBrews_filtered_filter s q :
  ListBrews_filtered s q = filter (BrewQuery_matches q) (map_range (brews s)).
Proof.
  unfold ListBrews_filtered.
  rewrite (range_loop_filter (BrewQuery_matches q)); [done|..];
    intros acc t; unfold BrewQuery_matches; rewrite <- !differs_false;
    destruct (differs (BrewQuery.Status q) _),
             (differs (BrewQuery.TeapotID q) _),
             (differs (BrewQuery.TeaID q) _); intuition congruence.
Qed.

Lemma ListBrewsByTeapot_filtered_filter s teapotID :
  ListBrewsByTeapot_filtered s teapotID =
  filter (λ b, Brew.TeapotID b = teapotID) (map_range (brews s)).
Proof.
  unfold ListBrewsByTeapot_filtered.
  rewrite (range_loop_filter (λ b, Brew.TeapotID b = teapotID)); [done|..];
    intros acc b Hb; case_bool_decide; naive_solver.
Qed.

Lemma ListSteepsByBrew_filtered_filter s brewID :
  ListSteepsByBrew_filtered s brewID =
  filter (λ st, Steep.BrewID st = brewID) (map_range (steeps s)).
Proof.
  unfold ListSteepsByBrew_filtered.
  rewrite (range_loop_filter (λ st, Steep.BrewID st = brewID)); [done|..];
    intros acc b Hb; case_bool_decide; naive_solver.
Qed.

(** Any operation built as "filter the table, sort, paginate" meets the
    filter contract. *)
Lemma filter_contract_intro {V Q} (P : Q → V → Prop)
  `{∀ q x, Decision (P q x)} (table : gmap string V)
  (filtered : Q → list V) (list_op : Q → option (list V * Z))
  (less : V → V → bool) (page limit : Q → Z) :
  (∀ q, filtered q = filter (P q) (map_range table)) →
  (∀ q, list_op q = paginate (sort_Slice less (filtered q)) (page q) (limit q)) →
  filter_contract P table filtered list_op.
Proof.
  intros Hf Hop q.
  assert (Hperm : filtered q ≡ₚ filter (P q) (records table)).
  { rewrite Hf. by rewrite map_range_records. }
  assert (Hin : ∀ x, x ∈ filtered q ↔ x ∈ records table ∧ P q x).
  { intros x. rewrite Hperm, list_elem_of_filter. tauto. }
  split_and!; [done..|].
  intros window total Hlist. rewrite Hop in Hlist.
  apply paginate_Some in Hlist as [-> (lo & n & ->)]. split.
  - unfold count_matching, len.
    by rewrite (Permutation_length (sort_Slice_perm _ less _)), Hperm.
  - intros x Hx%elem_of_take_drop. apply Hin.
    by rewrite <- (sort_Slice_perm _ less).
Qed.

End Filtering.

(** C3.  For teapots, teas and brews alike: an entry of the table is kept by
    the filter loop if and only if it equals every non-nil filter field of
    the query (nil fields are ignored, several fields are conjoined), and the
    total returned with a page is the number of entries of the table that
    satisfy the filters, independently of the page cut out of them. *)
Theorem list_filter_and_total `{rt : GoRuntime} (s : MemoryStore) :
  filter_contract TeapotQuery_matches (teapots s)
    (ListTeapots_filtered s) (ListTeapots s) ∧
  filter_contract TeaQuery_matches (teas s)
    (ListTeas_filtered s) (ListTeas s) ∧
  filter_contract BrewQuery_matches (brews s)
    (ListBrews_filtered s) (ListBrews s).
Proof.
  split_and!.
  - eapply filter_contract_intro; [apply ListTeapots_filtered_filter | done].
  - eapply filter_contract_intro; [apply ListTeas_filtered_filter | done].
  - eapply filter_contract_intro; [apply ListBrews_filtered_filter | done].
Qed.

(** ** Ordering *)

Lemma After_asymmetric {A} (created : A → Time) :
  asymmetric (λ a b, After (created a) (created b)).
Proof.
  intros a b. unfold After. rewrite Z.ltb_lt, Z.ltb_ge. lia.
Qed.

Lemma After_negatively_transitive {A} (created : A → Time) :
  negatively_transitive (λ a b, After (created a) (created b)).
Proof.
  intros a b c. unfold After. rewrite !Z.ltb_ge. lia.
Qed.

Lemma steep_less_asymmetric : asymmetric steep_less.
Proof.
  intros a b. unfold steep_less. rewrite Z.ltb_lt, Z.ltb_ge. lia.
Qed.

Lemma steep_less_negatively_transitive : negatively_transitive steep_less.
Proof.
  intros a b c. unfold steep_less. rewrite !Z.ltb_ge. lia.
Qed.

Lemma sorted_by_take_drop {A} (less : A → A → bool) (l : list A) lo n :
  sorted_by less l → sorted_by less (take n (drop lo l)).
Proof.
  unfold sorted_by. intros Hs.
  rewrite <- (take_drop lo l) in Hs. apply StronglySorted_app_1_r in Hs.
  rewrite <- (take_drop n (drop lo l)) in Hs.
  by apply StronglySorted_app_1_l in Hs.
Qed.

Lemma sorted_by_adjacent {A} (less : A → A → bool) (l : list A) (i : nat) a b :
  sorted_by less l → l !! i = Some a → l !! S i = Some b → less b a = false.
Proof.
  unfold sorted_by. intros Hs. revert i.
  induction Hs as [|x l Hs IH Hx]; intros i Ha Hb; [done|].
  destruct i as [|i]; simpl in *.
  - simplify_eq. rewrite Forall_forall in Hx. apply Hx.
    by eapply list_elem_of_lookup_2.
  - by eapply IH.
Qed.

Lemma paginate_sorted {A} (less : A → A → bool) (l : list A) page limit
  window total :
  sorted_by less l → paginate l page limit = Some (window, total) →
  sorted_by less window.
Proof.
  intros Hs (_ & lo & n & ->)%paginate_Some. by apply sorted_by_take_drop.
Qed.

Section Ordering.
Context `{rt : GoRuntime}.

Lemma sort_by_CreatedAt {A} (created : A → Time) (l : list A) :
  sorted_by (λ a b, After (created a) (created b))
    (sort_Slice (λ a b, After (created a) (created b)) l).
Proof.
  apply sort_Slice_sorted;
    [apply After_asymmetric | apply After_negatively_transitive].
Qed.

Lemma page_newest_first {A} (created : A → Time) (l : list A) page limit
  window total :
  paginate (sort_Slice (λ a b, After (created a) (created b)) l) page limit
    = Some (window, total) →
  newest_first created window.
Proof.
  intros Hp i a b Ha Hb.
  eapply paginate_sorted in Hp; [|apply sort_by_CreatedAt].
  by apply (sorted_by_adjacent _ _ _ _ _ Hp Ha Hb).
Qed.

Lemma page_ascending (l : list Steep.t) page limit window total :
  paginate (sort_Slice steep_less l) page limit = Some (window, total) →
  ascending Steep.SteepNumber window.
Proof.
  intros Hp i a b Ha Hb.
  eapply paginate_sorted in Hp;
    [|by apply sort_Slice_sorted;
        [apply steep_less_asymmetric | apply steep_less_negatively_transitive]].
  pose proof (sorted_by_adjacent _ _ _ _ _ Hp Ha Hb) as Hlt.
  unfold steep_less in Hlt. apply Z.ltb_ge in Hlt. lia.
Qed.

End Ordering.

(** C2.  Teapots, teas and brews (also the brews of one teapot) are sorted
    by [CreatedAt], newest first, before the page is cut: in every returned
    page no element's [CreatedAt] is after its predecessor's.  The steeps of
    a brew are sorted by [SteepNumber] instead: in every returned page no
    element's [SteepNumber] is less than its predecessor's. *)
Theorem list_pages_ordered `{rt : GoRuntime} (s : MemoryStore) :
  (∀ q window total,
     sorted_by teapot_less (sort_Slice teapot_less (ListTeapots_filtered s q)) ∧
     (ListTeapots s q = Some (window, total) →
      newest_first Teapot.CreatedAt window)) ∧
  (∀ q window total,
     sorted_by tea_less (sort_Slice tea_less (ListTeas_filtered s q)) ∧
     (ListTeas s q = Some (window, total) →
      newest_first Tea.CreatedAt window)) ∧
  (∀ q window total,
     sorted_by brew_less (sort_Slice brew_less (ListBrews_filtered s q)) ∧
     (ListBrews s q = Some (window, total) →
      newest_first Brew.CreatedAt window)) ∧
  (∀ teapotID page limit window total,
     sorted_by brew_less
       (sort_Slice brew_less (ListBrewsByTeapot_filtered s teapotID)) ∧
     (ListBrewsByTeapot s teapotID page limit = Some (window, total) →
      newest_first Brew.CreatedAt window)) ∧
  (∀ brewID page limit window total,
     sorted_by steep_less
       (sort_Slice steep_less (ListSteepsByBrew_filtered s brewID)) ∧
     (ListSteepsByBrew s brewID page limit = Some (window, total) →
      ascending Steep.SteepNumber window)).
Proof.
  split_and!; intros; split;
    first [ apply sort_by_CreatedAt
          | by apply sort_Slice_sorted;
              [apply steep_less_asymmetric
              |apply steep_less_negatively_transitive]
          | by apply page_newest_first
          | by apply page_ascending ].
Qed.

(** ** Point operations *)

(** C8.  For each of the four tables, [Get] of the identifier of a record
    just passed to [Create] returns that record with [found = true]; for the
    three tables that have a [Delete], [Get] of an identifier just deleted
    returns [found = false] (and the zero record). *)
Theorem get_after_create_and_delete (s : MemoryStore) :
  (∀ t, GetTeapot (CreateTeapot s t) (Teapot.ID t) = (t, true)) ∧
  (∀ id, GetTeapot (DeleteTeapot s id).1 id = (Teapot.zero, false)) ∧
  (∀ t, GetTea (CreateTea s t) (Tea.ID t) = (t, true)) ∧
  (∀ id, GetTea (DeleteTea s id).1 id = (Tea.zero, false)) ∧
  (∀ b, GetBrew (CreateBrew s b) (Brew.ID b) = (b, true)) ∧
  (∀ id, GetBrew (DeleteBrew s id).1 id = (Brew.zero, false)) ∧
  (∀ st, GetSteep (CreateSteep s st) (Steep.ID st) = (st, true)).
Proof.
  split_and!; intros.
  - unfold GetTeapot, CreateTeapot; simpl. by rewrite lookup_insert_eq.
  - unfold GetTeapot, DeleteTeapot.
    destruct (teapots s !! id) eqn:Hid; simpl;
      [by rewrite lookup_delete_eq | by rewrite Hid].
  - unfold GetTea, CreateTea; simpl. by rewrite lookup_insert_eq.
  - unfold GetTea, DeleteTea.
    destruct (teas s !! id) eqn:Hid; simpl;
      [by rewrite lookup_delete_eq | by rewrite Hid].
  - unfold GetBrew, CreateBrew; simpl. by rewrite lookup_insert_eq.
  - unfold GetBrew, DeleteBrew.
    destruct (brews s !! id) eqn:Hid; simpl;
      [by rewrite lookup_delete_eq | by rewrite Hid].
  - unfold GetSteep, CreateSteep; simpl. by rewrite lookup_insert_eq.
Qed.

(** ** Creating a brew *)

Lemma GetBrew_Some s id b : brews s !! id = Some b → GetBrew s id = (b, true).
Proof. unfold GetBrew. by intros ->. Qed.

(** C7.  A brew request whose [teapotId] or [teaId] names no stored teapot
    or tea is answered with status 400 and code [VALIDATION_ERROR] (never
    with the 404 / [NOT_FOUND] form), and the store is left exactly as it
    was: no brew is created. *)
Theorem create_brew_missing_reference (s : MemoryStore)
  (req : CreateBrewRequest.t) (newid : string) (now : Time) :
  teapots s !! CreateBrewRequest.TeapotID req = None ∨
  teas s !! CreateBrewRequest.TeaID req = None →
  ∃ message,
    BrewHandler.Create s (BindOk req) newid now
      = (s, JSON StatusBadRequest
              (ErrorBody (Error.mk "VALIDATION_ERROR" message))) ∧
    (message = "Teapot not found" ∨ message = "Tea not found") ∧
    (∀ m, (BrewHandler.Create s (BindOk req) newid now).2 ≠ not_found m) ∧
    brews (BrewHandler.Create s (BindOk req) newid now).1 = brews s.
Proof.
  intros Hmissing. unfold BrewHandler.Create, GetTeapot, GetTea.
  destruct (teapots s !! CreateBrewRequest.TeapotID req) as [teapot|] eqn:Htp;
    simpl.
  - destruct Hmissing as [? | ->]; [done|]. simpl.
    exists "Tea not found". by split_and!; [done | right | intros m [=] | done].
  - exists "Teapot not found".
    by split_and!; [done | left | intros m [=] | done].
Qed.

(** C6.  A brew created without [waterTempCelsius] against an existing
    teapot and tea is stored with the tea's [SteepTempCelsius] of that
    moment and with status ["preparing"].  The value is copied: whatever is
    later done to teas (a store update or delete, a PUT, PATCH or DELETE
    through the tea handler), the stored brew is the same record. *)
Theorem create_brew_default_temperature `{rt : GoRuntime} (s : MemoryStore)
  (req : CreateBrewRequest.t) (newid : string) (now : Time)
  (teapot : Teapot.t) (tea : Tea.t) :
  teapots s !! CreateBrewRequest.TeapotID req = Some teapot →
  teas s !! CreateBrewRequest.TeaID req = Some tea →
  CreateBrewRequest.WaterTempCelsius req = None →
  ∃ brew s',
    BrewHandler.Create s (BindOk req) newid now
      = (s', JSON StatusCreated (BrewBody brew)) ∧
    GetBrew s' newid = (brew, true) ∧
    Brew.WaterTempCelsius brew = Tea.SteepTempCelsius tea ∧
    Brew.Status brew = "preparing" ∧
    (∀ tea', GetBrew (UpdateTea s' tea') newid = (brew, true)) ∧
    (∀ id, GetBrew (DeleteTea s' id).1 newid = (brew, true)) ∧
    (∀ id body now',
       GetBrew (TeaHandler.Patch s' id body now').1 newid = (brew, true)) ∧
    (∀ id body now',
       GetBrew (TeaHandler.Update s' id body now').1 newid = (brew, true)) ∧
    (∀ id, GetBrew (TeaHandler.Delete s' id).1 newid = (brew, true)).
Proof.
  intros Htp Htea Hnil. unfold BrewHandler.Create, GetTeapot, GetTea.
  rewrite Htp, Htea, Hnil. simpl. eexists _, _. split; [reflexivity|].
  assert (Hget : ∀ s'', brews s'' =
      <[newid := Brew.mk newid (CreateBrewRequest.TeapotID req)
                   (CreateBrewRequest.TeaID req) BrewPreparing
                   (Tea.SteepTempCelsius tea) (CreateBrewRequest.Notes req)
                   now None now now]> (brews s) →
    GetBrew s'' newid = (Brew.mk newid (CreateBrewRequest.TeapotID req)
                   (CreateBrewRequest.TeaID req) BrewPreparing
                   (Tea.SteepTempCelsius tea) (CreateBrewRequest.Notes req)
                   now None now now, true)).
  { intros s'' Hs''. apply GetBrew_Some. rewrite Hs''. apply lookup_insert_eq. }
  split_and!; try done.
  - by apply Hget.
  - intros. by apply Hget.
  - intros. apply Hget. unfold DeleteTea. simpl. by case_match.
  - intros. apply Hget. unfold TeaHandler.Patch.
    destruct (negb (uuid_Parse id)); [done|].
    destruct (GetTea _ id) as [existing found].
    destruct (negb found); [done|]. by destruct body.
  - intros. apply Hget. unfold TeaHandler.Update.
    destruct (negb (uuid_Parse id)); [done|].
    destruct (GetTea _ id) as [existing found].
    destruct (negb found); [done|]. by destruct body.
  - intros. apply Hget. unfold TeaHandler.Delete, DeleteTea.
    destruct (negb (uuid_Parse id)); [done|].
    by destruct (teas _ !! id).
Qed.

(** ** Partial updates *)

Section Patch.
Context `{rt : GoRuntime}.

Lemma TeapotHandler_Patch_ok s id req now existing :
  uuid_Parse id = true → teapots s !! id = Some existing →
  ∃ patched,
    TeapotHandler.Patch s id (BindOk req) now
      = (UpdateTeapot s patched, JSON StatusOK (TeapotBody patched)) ∧
    Teapot_patched req now existing patched.
Proof.
  intros Hid Hex. unfold TeapotHandler.Patch, GetTeapot, Teapot_patched.
  rewrite Hid, Hex. simpl. eexists. split; [reflexivity|].
  destruct req as [[?|] [?|] [?|] [?|] [?|]]; by split_and!.
Qed.

Lemma TeaHandler_Patch_ok s id req now existing :
  uuid_Parse id = true → teas s !! id = Some existing →
  ∃ patched,
    TeaHandler.Patch s id (BindOk req) now
      = (UpdateTea s patched, JSON StatusOK (TeaBody patched)) ∧
    Tea_patched req now existing patched.
Proof.
  intros Hid Hex. unfold TeaHandler.Patch, GetTea, Tea_patched.
  rewrite Hid, Hex. simpl. eexists. split; [reflexivity|].
  destruct req as [[?|] [?|] [?|] [?|] [?|] [?|] [?|]]; by split_and!.
Qed.

Lemma BrewHandler_Patch_ok s id req now existing :
  uuid_Parse id = true → brews s !! id = Some existing →
  ∃ patched,
    BrewHandler.Patch s id (BindOk req) now
      = (UpdateBrew s patched, JSON StatusOK (BrewBody patched)) ∧
    Brew_patched req now existing patched.
Proof.
  intros Hid Hex. unfold BrewHandler.Patch, GetBrew, Brew_patched.
  rewrite Hid, Hex. simpl. eexists. split; [reflexivity|].
  destruct req as [[?|] [?|] [?|]]; by split_and!.
Qed.

End Patch.

Lemma store_invariant_mono clock now s :
  clock ≤ now → store_invariant clock s → store_invariant now s.
Proof.
  intros Hle (Htp & Htea & Hbrew).
  split_and!; (eapply map_Forall_impl; [eassumption|]);
    intros k x [? ?]; split; [done | lia | done | lia | done | lia].
Qed.

Section Served.
Context `{rt : GoRuntime}.

Lemma serve_invariant clock s r newid now :
  clock ≤ now → store_invariant clock s →
  store_invariant now (serve s r newid now).1.
Proof.
  intros Hle Hinv%(store_invariant_mono clock now); [|done].
  destruct Hinv as (Htp & Htea & Hbrew).
  destruct r as [body|id body|id body|id|body|id body|id body|id|body
                |id body|id|id body]; simpl.
  - (* POST /teapots *)
    unfold TeapotHandler.Create. destruct body as [req|err]; [|done].
    split_and!; [|done..]. simpl. apply map_Forall_insert_2; [|done].
    simpl. split; [done | lia].
  - (* PUT /teapots/:id *)
    unfold TeapotHandler.Update, GetTeapot.
    destruct (negb (uuid_Parse id)); [done|].
    destruct (teapots s !! id) as [existing|]; simpl; [|done].
    destruct body as [req|err]; [|done].
    split_and!; [|done..]. simpl. apply map_Forall_insert_2; [|done].
    simpl. split; [done | lia].
  - (* PATCH /teapots/:id *)
    unfold TeapotHandler.Patch, GetTeapot.
    destruct (negb (uuid_Parse id)); [done|].
    destruct (teapots s !! id) as [existing|] eqn:Hex; simpl; [|done].
    destruct body as [req|err]; [|done].
    split_and!; [|done..]. simpl.
    destruct (Htp id existing Hex) as [Hkey _].
    destruct req as [[?|] [?|] [?|] [?|] [?|]]; simpl;
      (apply map_Forall_insert_2; [simpl; split; [done | lia] | done]).
  - (* DELETE /teapots/:id *)
    unfold TeapotHandler.Delete, DeleteTeapot.
    destruct (negb (uuid_Parse id)); [done|].
    destruct (teapots s !! id); simpl; [|done].
    split_and!; [|done..]. simpl. by apply map_Forall_delete.
  - (* POST /teas *)
    unfold TeaHandler.Create. destruct body as [req|err]; [|done].
    split_and!; [done| |done]. simpl. apply map_Forall_insert_2; [|done].
    simpl. split; [done | lia].
  - (* PUT /teas/:id *)
    unfold TeaHandler.Update, GetTea.
    destruct (negb (uuid_Parse id)); [done|].
    destruct (teas s !! id) as [existing|]; simpl; [|done].
    destruct body as [req|err]; [|done].
    split_and!; [done| |done]. simpl. apply map_Forall_insert_2; [|done].
    simpl. split; [done | lia].
  - (* PATCH /teas/:id *)
    unfold TeaHandler.Patch, GetTea.
    destruct (negb (uuid_Parse id)); [done|].
    destruct (teas s !! id) as [existing|] eqn:Hex; simpl; [|done].
    destruct body as [req|err]; [|done].
    split_and!; [done| |done]. simpl.
    destruct (Htea id existing Hex) as [Hkey _].
    destruct req as [[?|] [?|] [?|] [?|] [?|] [?|] [?|]]; simpl;
      (apply map_Forall_insert_2; [simpl; split; [done | lia] | done]).
  - (* DELETE /teas/:id *)
    unfold TeaHandler.Delete, DeleteTea.
    destruct (negb (uuid_Parse id)); [done|].
    destruct (teas s !! id); simpl; [|done].
    split_and!; [done| |done]. simpl. by apply map_Forall_delete.
  - (* POST /brews *)
    unfold BrewHandler.Create, GetTeapot, GetTea.
    destruct body as [req|err]; [|done].
    destruct (teapots s !! _); simpl; [|done].
    destruct (teas s !! _); simpl; [|done].
    split_and!; [done..|]. simpl. apply map_Forall_insert_2; [|done].
    simpl. split; [done | lia].
  - (* PATCH /brews/:id *)
    unfold BrewHandler.Patch, GetBrew.
    destruct (negb (uuid_Parse id)); [done|].
    destruct (brews s !! id) as [existing|] eqn:Hex; simpl; [|done].
    destruct body as [req|err]; [|done].
    split_and!; [done..|]. simpl.
    destruct (Hbrew id existing Hex) as [Hkey _].
    destruct req as [[?|] [?|] [?|]]; simpl;
      (apply map_Forall_insert_2; [simpl; split; [done | lia] | done]).
  - (* DELETE /brews/:id *)
    unfold BrewHandler.Delete, DeleteBrew.
    destruct (negb (uuid_Parse id)); [done|].
    destruct (brews s !! id); simpl; [|done].
    split_and!; [done..|]. simpl. by apply map_Forall_delete.
  - (* POST /brews/:id/steeps *)
    unfold BrewHandler.CreateSteep, GetBrew.
    destruct (negb (uuid_Parse id)); [done|].
    destruct (brews s !! id); simpl; [|done].
    by destruct body as [req|err].
Qed.

Lemma served_invariant clock s : served clock s → store_invariant clock s.
Proof.
  induction 1 as [clock|clock s r newid now _ IH Hle].
  - split_and!; apply map_Forall_empty.
  - by apply (serve_invariant clock).
Qed.

End Served.

(** C9.  A PATCH of an existing teapot, tea or brew stores and returns a
    record in which exactly the fields supplied non-nil carry the supplied
    values and every other field its prior value; [UpdatedAt] is the clock
    reading of the request, [CreatedAt] and [ID] are unchanged.  On a
    running server, whose clock readings do not decrease, the new
    [UpdatedAt] is therefore not earlier than the previous one, and the
    patched record is what a [Get] of the identifier then returns. *)
Theorem patch_changes_only_supplied_fields `{rt : GoRuntime}
  (s : MemoryStore) (id : string) (now : Time) :
  uuid_Parse id = true →
  (∀ existing req,
     teapots s !! id = Some existing →
     ∃ patched,
       TeapotHandler.Patch s id (BindOk req) now
         = (UpdateTeapot s patched, JSON StatusOK (TeapotBody patched)) ∧
       Teapot_patched req now existing patched ∧
       (∀ clock, served clock s → clock ≤ now →
          Teapot.UpdatedAt existing ≤ Teapot.UpdatedAt patched ∧
          GetTeapot (UpdateTeapot s patched) id = (patched, true))) ∧
  (∀ existing req,
     teas s !! id = Some existing →
     ∃ patched,
       TeaHandler.Patch s id (BindOk req) now
         = (UpdateTea s patched, JSON StatusOK (TeaBody patched)) ∧
       Tea_patched req now existing patched ∧
       (∀ clock, served clock s → clock ≤ now →
          Tea.UpdatedAt existing ≤ Tea.UpdatedAt patched ∧
          GetTea (UpdateTea s patched) id = (patched, true))) ∧
  (∀ existing req,
     brews s !! id = Some existing →
     ∃ patched,
       BrewHandler.Patch s id (BindOk req) now
         = (UpdateBrew s patched, JSON StatusOK (BrewBody patched)) ∧
       Brew_patched req now existing patched ∧
       (∀ clock, served clock s → clock ≤ now →
          Brew.UpdatedAt existing ≤ Brew.UpdatedAt patched ∧
          GetBrew (UpdateBrew s patched) id = (patched, true))).
Proof.
  intros Hid. split_and!; intros existing req Hex.
  - destruct (TeapotHandler_Patch_ok s id req now existing Hid Hex)
      as (patched & Heq & Hp).
    exists patched. split_and!; [done..|].
    intros clock (Hinv & _ & _)%served_invariant Hle.
    destruct (Hinv id existing Hex) as [Hkey Hupd].
    destruct Hp as (_ & _ & _ & _ & _ & -> & _ & HID).
    split; [lia|]. unfold GetTeapot, UpdateTeapot. simpl.
    by rewrite HID, Hkey, lookup_insert_eq.
  - destruct (TeaHandler_Patch_ok s id req now existing Hid Hex)
      as (patched & Heq & Hp).
    exists patched. split_and!; [done..|].
    intros clock (_ & Hinv & _)%served_invariant Hle.
    destruct (Hinv id existing Hex) as [Hkey Hupd].
    destruct Hp as (_ & _ & _ & _ & _ & _ & _ & -> & _ & HID).
    split; [lia|]. unfold GetTea, UpdateTea. simpl.
    by rewrite HID, Hkey, lookup_insert_eq.
  - destruct (BrewHandler_Patch_ok s id req now existing Hid Hex)
      as (patched & Heq & Hp).
    exists patched. split_and!; [done..|].
    intros clock (_ & _ & Hinv)%served_invariant Hle.
    destruct (Hinv id existing Hex) as [Hkey Hupd].
    destruct Hp as (_ & _ & _ & _ & _ & _ & _ & -> & _ & HID).
    split; [lia|]. unfold GetBrew, UpdateBrew. simpl.
    by rewrite HID, Hkey, lookup_insert_eq.
Qed.

(** ** Steep numbers *)

Lemma fits_memory_in_range {V} (m : gmap string V) (k : Z) :
  fits_memory m → 0 ≤ k ≤ 2 ^ 48 → Z.of_nat (size m) + k ≤ GoInt.max_int.
Proof. unfold fits_memory, maxAlloc, GoInt.max_int. lia. Qed.

Lemma count_loop {A} (P : A → Prop) `{∀ x, Decision (P x)} (l : list A) :
  ∀ count, 0 ≤ count → count + len l ≤ GoInt.max_int →
  foldl (λ count x, if bool_decide (P x) then GoInt.add count 1 else count)
    count l = count + len (filter P l).
Proof.
  unfold len. induction l as [|x l IH]; intros count Hc Hmax; simpl.
  - lia.
  - rewrite filter_cons. pose proof (length_filter P l).
    simpl in Hmax. case_bool_decide.
    + rewrite decide_True by done. unfold GoInt.add.
      rewrite wrap_id by (unfold GoInt.in_range, GoInt.min_int; lia).
      rewrite IH by lia. simpl. lia.
    + rewrite decide_False by done. apply IH; lia.
Qed.

Lemma records_insert_fresh {V} (m : gmap string V) k v :
  m !! k = None → records (<[k:=v]> m) ≡ₚ v :: records m.
Proof.
  intros Hk. unfold records. by rewrite map_to_list_insert.
Qed.

Lemma count_matching_insert_fresh {V} (P : V → Prop) `{∀ x, Decision (P x)}
  (m : gmap string V) k v :
  m !! k = None → P v →
  count_matching P (<[k:=v]> m) = count_matching P m + 1.
Proof.
  intros Hk Hv. unfold count_matching, len.
  rewrite (records_insert_fresh m k v Hk), filter_cons, decide_True by done.
  simpl. lia.
Qed.

Section Steeps.
Context `{rt : GoRuntime}.

Lemma CountSteepsByBrew_exact s brewID :
  Z.of_nat (size (steeps s)) ≤ GoInt.max_int →
  CountSteepsByBrew s brewID = steeps_of_brew s brewID.
Proof.
  intros Hsize. unfold CountSteepsByBrew, steeps_of_brew, count_matching.
  rewrite (count_loop (λ st, Steep.BrewID st = brewID)).
  - unfold len. by rewrite map_range_records.
  - done.
  - unfold len. by rewrite map_range_records, length_records.
Qed.

(** One successful [CreateSteep] request. *)
Lemma CreateSteep_numbered s brewID req newid now :
  uuid_Parse brewID = true → is_Some (brews s !! brewID) →
  Z.of_nat (size (steeps s)) + 1 ≤ GoInt.max_int →
  BrewHandler.CreateSteep s brewID (BindOk req) newid now =
    let steep :=
      Steep.mk newid brewID (steeps_of_brew s brewID + 1)
        (CreateSteepRequest.DurationSeconds req)
        (CreateSteepRequest.Rating req) (CreateSteepRequest.Notes req) now in
    (CreateSteep s steep, JSON StatusCreated (SteepBody steep)).
Proof.
  intros Hid [b Hb] Hsize. unfold BrewHandler.CreateSteep, GetBrew.
  rewrite Hid, Hb. simpl.
  rewrite CountSteepsByBrew_exact by lia.
  unfold GoInt.add. rewrite wrap_id; [done|].
  unfold GoInt.in_range, GoInt.min_int, steeps_of_brew, count_matching, len.
  pose proof (length_filter (λ st, Steep.BrewID st = brewID) (records (steeps s))).
  rewrite length_records in *. lia.
Qed.

Lemma steeps_of_brew_CreateSteep s steep :
  steeps s !! Steep.ID steep = None →
  steeps_of_brew (CreateSteep s steep) (Steep.BrewID steep)
    = steeps_of_brew s (Steep.BrewID steep) + 1.
Proof.
  intros Hfresh. unfold steeps_of_brew, CreateSteep. simpl.
  by apply count_matching_insert_fresh.
Qed.

End Steeps.

(** C5.  A steep created for an existing brew gets as [SteepNumber] the
    number of steeps stored for that brew, plus one.  Three creations in a
    row for the same brew, each under a fresh identifier, therefore get
    three consecutive numbers: 1, 2, 3 when the brew had no steep. *)
Theorem steep_number_is_count_plus_one `{rt : GoRuntime} (s : MemoryStore)
  (brewID : string) :
  uuid_Parse brewID = true → is_Some (brews s !! brewID) →
  fits_memory (steeps s) →
  (∀ req newid now, ∃ steep,
     BrewHandler.CreateSteep s brewID (BindOk req) newid now
       = (CreateSteep s steep, JSON StatusCreated (SteepBody steep)) ∧
     Steep.BrewID steep = brewID ∧
     Steep.SteepNumber steep = steeps_of_brew s brewID + 1) ∧
  (∀ req1 req2 req3 id1 id2 id3 now1 now2 now3,
     steeps s !! id1 = None → steeps s !! id2 = None →
     steeps s !! id3 = None → id1 ≠ id2 → id1 ≠ id3 → id2 ≠ id3 →
     let r1 := BrewHandler.CreateSteep s brewID (BindOk req1) id1 now1 in
     let r2 := BrewHandler.CreateSteep r1.1 brewID (BindOk req2) id2 now2 in
     let r3 := BrewHandler.CreateSteep r2.1 brewID (BindOk req3) id3 now3 in
     steep_number_of <$> [r1.2; r2.2; r3.2]
       = [Some (steeps_of_brew s brewID + 1);
          Some (steeps_of_brew s brewID + 2);
          Some (steeps_of_brew s brewID + 3)] ∧
     (steeps_of_brew s brewID = 0 →
      steep_number_of <$> [r1.2; r2.2; r3.2] = [Some 1; Some 2; Some 3])).
Proof.
  intros Hid Hbrew Hfits. split.
  - intros req newid now. eexists. split; [|split].
    + apply CreateSteep_numbered; [done..|].
      by apply fits_memory_in_range.
    + done.
    + done.
  - intros req1 req2 req3 id1 id2 id3 now1 now2 now3 H1 H2 H3 H12 H13 H23.
    pose proof (fits_memory_in_range _ 3 Hfits ltac:(lia)) as Hroom.
    rewrite (CreateSteep_numbered s) by (done || lia).
    set (st1 := Steep.mk id1 brewID _ _ _ _ _). simpl.
    assert (Hsz1 : size (steeps (CreateSteep s st1)) = S (size (steeps s))).
    { simpl. by apply map_size_insert_None. }
    assert (Hn1 : steeps_of_brew (CreateSteep s st1) brewID
                  = steeps_of_brew s brewID + 1).
    { by apply (steeps_of_brew_CreateSteep s st1). }
    rewrite (CreateSteep_numbered (CreateSteep s st1)) by (done || lia).
    rewrite Hn1.
    set (st2 := Steep.mk id2 brewID _ _ _ _ _). simpl.
    set (s1 := CreateSteep s st1) in *.
    assert (Hf2 : steeps s1 !! id2 = None).
    { subst s1. simpl. by rewrite lookup_insert_ne. }
    assert (Hsz2 : size (steeps (CreateSteep s1 st2)) = S (size (steeps s1))).
    { simpl. by apply map_size_insert_None. }
    assert (Hn2 : steeps_of_brew (CreateSteep s1 st2) brewID
                  = steeps_of_brew s1 brewID + 1).
    { by apply (steeps_of_brew_CreateSteep s1 st2). }
    rewrite (CreateSteep_numbered (CreateSteep s1 st2)) by (done || lia).
    rewrite Hn2, Hn1. simpl.
    replace (steeps_of_brew s brewID + 1 + 1) with (steeps_of_brew s brewID + 2)
      by lia.
    replace (steeps_of_brew s brewID + 2 + 1) with (steeps_of_brew s brewID + 3)
      by lia.
    split; [done|]. by intros ->.
Qed.

(** ** Pagination windows *)

Lemma paginate_bounds_at {A} (l : list A) page limit :
  bounds_at (paginate l page limit) (len l) page limit.
Proof.
  split.
  - intros Hp Hl Hmax. rewrite paginate_in_range by done. split; [done|].
    destruct (in_range_window page limit) as (Hs & He & Hle); [done..|].
    rewrite window_start_exact, window_end_exact by done. lia.
  - intros Hp Hl Hmin Htotal.
    assert (Hr : GoInt.in_range ((page - 1) * limit)).
    { unfold GoInt.in_range, GoInt.max_int, GoInt.min_int in *. nia. }
    assert (Hneg : window_start page limit < 0).
    { rewrite window_start_exact by done. nia. }
    split; [done|]. unfold paginate.
    destruct (Z.leb_spec (len l) (window_start page limit)); [lia|].
    by rewrite slice_expr_negative.
Qed.

Lemma effective_query_range q :
  effective_query q →
  1 ≤ PaginationQuery.Page q ∧ 1 ≤ PaginationQuery.Limit q ≤ 100.
Proof.
  intros ([page limit] & Hb & ->). unfold binding_PaginationQuery in Hb.
  simpl in Hb.
  rewrite !andb_true_iff, !orb_true_iff, !andb_true_iff, !Z.eqb_eq,
    !Z.leb_le in Hb.
  unfold set_defaults. simpl.
  destruct (Z.eqb_spec page 0); simpl;
    destruct (Z.eqb_spec limit 0); simpl; lia.
Qed.

Lemma totalPages_is_Some total limit :
  limit ≠ 0 → is_Some (totalPages total limit).
Proof.
  intros Hl. unfold totalPages, GoInt.div.
  destruct (Z.eqb_spec limit 0); [done|]. eauto.
Qed.

(** Within the representable range every list operation returns the
    window the specification describes: the page of the sorted filtered
    list, with the number of filtered entries as total.  It is empty
    exactly when its start lies at or beyond the total. *)
Lemma list_window_in_range `{rt : GoRuntime} (s : MemoryStore) :
  (∀ q, 1 ≤ TeapotQuery.Page q → 0 ≤ TeapotQuery.Limit q →
     TeapotQuery.Page q * TeapotQuery.Limit q ≤ GoInt.max_int →
     let sorted := sort_Slice teapot_less (ListTeapots_filtered s q) in
     ListTeapots s q =
       Some (page_of sorted (TeapotQuery.Page q) (TeapotQuery.Limit q),
             len sorted)) ∧
  (∀ q, 1 ≤ TeaQuery.Page q → 0 ≤ TeaQuery.Limit q →
     TeaQuery.Page q * TeaQuery.Limit q ≤ GoInt.max_int →
     let sorted := sort_Slice tea_less (ListTeas_filtered s q) in
     ListTeas s q =
       Some (page_of sorted (TeaQuery.Page q) (TeaQuery.Limit q),
             len sorted)) ∧
  (∀ q, 1 ≤ BrewQuery.Page q → 0 ≤ BrewQuery.Limit q →
     BrewQuery.Page q * BrewQuery.Limit q ≤ GoInt.max_int →
     let sorted := sort_Slice brew_less (ListBrews_filtered s q) in
     ListBrews s q =
       Some (page_of sorted (BrewQuery.Page q) (BrewQuery.Limit q),
             len sorted)) ∧
  (∀ teapotID page limit, 1 ≤ page → 0 ≤ limit →
     page * limit ≤ GoInt.max_int →
     let sorted :=
       sort_Slice brew_less (ListBrewsByTeapot_filtered s teapotID) in
     ListBrewsByTeapot s teapotID page limit =
       Some (page_of sorted page limit, len sorted)) ∧
  (∀ brewID page limit, 1 ≤ page → 0 ≤ limit →
     page * limit ≤ GoInt.max_int →
     let sorted :=
       sort_Slice steep_less (ListSteepsByBrew_filtered s brewID) in
     ListSteepsByBrew s brewID page limit =
       Some (page_of sorted page limit, len sorted)).
Proof. split_and!; intros; by apply paginate_in_range. Qed.

Lemma page_of_empty {A} (l : list A) page limit :
  1 ≤ page → 0 ≤ limit → len l ≤ (page - 1) * limit →
  page_of l page limit = [].
Proof.
  intros Hp Hl Hge. unfold page_of, len in *.
  rewrite drop_ge by nia. apply take_nil.
Qed.

Example paginate_second_page :
  paginate [10; 20; 30; 40; 50] 2 2 = Some ([30; 40], 5).
Proof. reflexivity. Qed.

Example paginate_last_page_clipped :
  paginate [10; 20; 30; 40; 50] 3 2 = Some ([50], 5).
Proof. reflexivity. Qed.

Example paginate_beyond_last_page :
  paginate [10; 20; 30; 40; 50] 4 2 = Some ([], 5).
Proof. reflexivity. Qed.

(** The two overflowing requests for [limit = 4]. *)
Lemma paginate_page_2_62 {A} (l : list A) : paginate l (2 ^ 62) 4 = None.
Proof.
  unfold paginate.
  replace (window_start (2 ^ 62) 4) with (-4) by (by vm_compute).
  pose proof (len_nonneg l).
  destruct (Z.leb_spec (len l) (-4)); [lia|].
  by rewrite slice_expr_negative.
Qed.

Lemma paginate_page_2_62_plus_1 {A} (l : list A) :
  paginate l (2 ^ 62 + 1) 4 = Some (take 4 l, len l).
Proof.
  transitivity (paginate l 1 4).
  - unfold paginate, window_end.
    by replace (window_start (2 ^ 62 + 1) 4) with (window_start 1 4)
      by (by vm_compute).
  - rewrite paginate_in_range by (unfold GoInt.max_int; lia).
    unfold page_of. simpl. by rewrite drop_0.
Qed.

(** C1 (the code departs from the claim).  With [limit = 4], page [2^62]
    makes [(page-1)*limit] wrap to [-4] and the operation panics on its
    slice expression, and page [2^62 + 1] makes it wrap to [0], so that the
    first four teapots are returned although the requested window lies far
    beyond the filtered set, where the claim demands an empty slice.  Both
    pages satisfy the binding tags, and the list handler passes them on. *)
Theorem list_window_overflow `{rt : GoRuntime} (s : MemoryStore)
  (material : option TeapotMaterial) (style : option TeapotStyle) :
  let q page := TeapotQuery.mk (PaginationQuery.mk page 4) material style in
  let sorted := sort_Slice teapot_less (ListTeapots_filtered s (q 1)) in
  ListTeapots s (q (2 ^ 62)) = None ∧
  ListTeapots s (q (2 ^ 62 + 1)) = Some (take 4 sorted, len sorted) ∧
  (fits_memory (teapots s) → page_of sorted (2 ^ 62 + 1) 4 = []) ∧
  binding_PaginationQuery (PaginationQuery.mk (2 ^ 62) 4) = true ∧
  TeapotHandler.List s (BindOk (q (2 ^ 62))) = None.
Proof.
  intros q sorted.
  assert (Hpanic : ListTeapots s (q (2 ^ 62)) = None)
    by apply paginate_page_2_62.
  split_and!.
  - done.
  - apply (paginate_page_2_62_plus_1 sorted).
  - intros Hfits. unfold page_of. rewrite drop_ge; [done|].
    subst sorted.
    rewrite (Permutation_length (sort_Slice_perm _ _ _)).
    rewrite ListTeapots_filtered_filter.
    pose proof (length_filter (TeapotQuery_matches (q 1))
                  (map_range (teapots s))) as Hle.
    rewrite (Permutation_length (map_range_records _)), length_records in Hle.
    unfold fits_memory, maxAlloc in Hfits. lia.
  - done.
  - change (TeapotHandler.List s (BindOk (q (2 ^ 62)))) with
      (match ListTeapots s (q (2 ^ 62)) with
       | None => None
       | Some (teapots, total) =>
           match totalPages total 4 with
           | None => None
           | Some totalPages =>
               Some (JSON StatusOK
                       (TeapotListResponse teapots
                          (Pagination.mk (2 ^ 62) 4 total totalPages)))
           end
       end).
    by rewrite Hpanic.
Qed.

Section Bounds.
Context `{rt : GoRuntime}.

Lemma sorted_bounds_at {A} (less : A → A → bool) (filtered : list A)
  page limit :
  bounds_at (paginate (sort_Slice less filtered) page limit)
    (len filtered) page limit.
Proof.
  replace (len filtered) with (len (sort_Slice less filtered)).
  - apply paginate_bounds_at.
  - unfold len. by rewrite (Permutation_length (sort_Slice_perm _ less _)).
Qed.

Lemma paginate_effective {A} (l : list A) q :
  effective_query q → PaginationQuery.Page q * 100 ≤ GoInt.max_int →
  is_Some (paginate l (PaginationQuery.Page q) (PaginationQuery.Limit q)).
Proof.
  intros Hq%effective_query_range Hmax.
  rewrite paginate_in_range; [done|lia..|nia].
Qed.

Lemma set_defaults_Page_bound q :
  binding_PaginationQuery q = true →
  PaginationQuery.Page q * 100 ≤ GoInt.max_int →
  PaginationQuery.Page (set_defaults q) * 100 ≤ GoInt.max_int.
Proof.
  intros _ Hmax. destruct q as [page limit]. unfold set_defaults. simpl in *.
  destruct (Z.eqb_spec page 0); simpl;
    destruct (Z.eqb_spec limit 0); simpl; unfold GoInt.max_int in *; lia.
Qed.

(** A list handler answers whenever its store operation does. *)
Lemma list_handler_answers {A} (q : PaginationQuery.t)
  (result : option (list A * Z)) (respond : list A → Z → Z → Response) :
  effective_query q → is_Some result →
  is_Some
    match result with
    | None => None
    | Some (data, total) =>
        match totalPages total (PaginationQuery.Limit q) with
        | None => None
        | Some totalPages => Some (respond data total totalPages)
        end
    end.
Proof.
  intros Hq%effective_query_range [[data total] ->].
  destruct (totalPages_is_Some total (PaginationQuery.Limit q)) as [n ->];
    [lia | done].
Qed.

End Bounds.

(** C10 (amended).  Every store list operation meets [bounds_at]: from
    page 1 on, with a limit of at least 0 and [page * limit] representable,
    it returns, and on the branch that slices,
    [0 <= start <= end <= total]; with a page of at most 0, a limit of at
    least 1 (and a representable start) and at least one matching record,
    the start index is negative and the slice expression panics.  The
    handlers call the store only with an effective query: the binding
    rejects negative values and the defaults replace zeros, so that
    [page >= 1] and [1 <= limit <= 100]; hence no list handler panics for a
    page up to [max_int / 100]. *)
Theorem list_bounds_precondition `{rt : GoRuntime} (s : MemoryStore) :
  (∀ q, bounds_at (ListTeapots s q) (len (ListTeapots_filtered s q))
          (TeapotQuery.Page q) (TeapotQuery.Limit q)) ∧
  (∀ q, bounds_at (ListTeas s q) (len (ListTeas_filtered s q))
          (TeaQuery.Page q) (TeaQuery.Limit q)) ∧
  (∀ q, bounds_at (ListBrews s q) (len (ListBrews_filtered s q))
          (BrewQuery.Page q) (BrewQuery.Limit q)) ∧
  (∀ teapotID page limit,
     bounds_at (ListBrewsByTeapot s teapotID page limit)
       (len (ListBrewsByTeapot_filtered s teapotID)) page limit) ∧
  (∀ brewID page limit,
     bounds_at (ListSteepsByBrew s brewID page limit)
       (len (ListSteepsByBrew_filtered s brewID)) page limit) ∧
  (∀ q, effective_query q →
     1 ≤ PaginationQuery.Page q ∧ 1 ≤ PaginationQuery.Limit q ≤ 100) ∧
  (∀ q, binding_PaginationQuery (TeapotQuery.PaginationQuery q) = true →
     TeapotQuery.Page q * 100 ≤ GoInt.max_int →
     is_Some (TeapotHandler.List s (BindOk q))) ∧
  (∀ q, binding_PaginationQuery (TeaQuery.PaginationQuery q) = true →
     TeaQuery.Page q * 100 ≤ GoInt.max_int →
     is_Some (TeaHandler.List s (BindOk q))) ∧
  (∀ q, binding_PaginationQuery (BrewQuery.PaginationQuery q) = true →
     BrewQuery.Page q * 100 ≤ GoInt.max_int →
     is_Some (BrewHandler.List s (BindOk q))) ∧
  (∀ id q, binding_PaginationQuery q = true →
     PaginationQuery.Page q * 100 ≤ GoInt.max_int →
     is_Some (BrewHandler.ListByTeapot s id (BindOk q)) ∧
     is_Some (BrewHandler.ListSteeps s id (BindOk q))).
Proof.
  split_and!; try (intros; apply sorted_bounds_at).
  - apply effective_query_range.
  - intros q Hb Hmax. unfold TeapotHandler.List.
    apply (list_handler_answers (set_defaults (TeapotQuery.PaginationQuery q)));
      [by eexists | apply paginate_effective; [by eexists|]].
    by apply set_defaults_Page_bound.
  - intros q Hb Hmax. unfold TeaHandler.List.
    apply (list_handler_answers (set_defaults (TeaQuery.PaginationQuery q)));
      [by eexists | apply paginate_effective; [by eexists|]].
    by apply set_defaults_Page_bound.
  - intros q Hb Hmax. unfold BrewHandler.List.
    apply (list_handler_answers (set_defaults (BrewQuery.PaginationQuery q)));
      [by eexists | apply paginate_effective; [by eexists|]].
    by apply set_defaults_Page_bound.
  - intros id q Hb Hmax. split.
    + unfold BrewHandler.ListByTeapot.
      destruct (negb (uuid_Parse id)); [done|].
      destruct (negb (GetTeapot s id).2); [done|].
      apply (list_handler_answers (set_defaults q));
        [by eexists | apply paginate_effective; [by eexists|]].
      by apply set_defaults_Page_bound.
    + unfold BrewHandler.ListSteeps.
      destruct (negb (uuid_Parse id)); [done|].
      destruct (negb (GetBrew s id).2); [done|].
      apply (list_handler_answers (set_defaults q));
        [by eexists | apply paginate_effective; [by eexists|]].
      by apply set_defaults_Page_bound.
Qed.

(** ** Page counts *)

Lemma ceil_div_spec total limit :
  1 ≤ limit → is_ceil_div ((total + limit - 1) `div` limit) total limit.
Proof.
  intros Hl. unfold is_ceil_div.
  pose proof (Z.div_mod (total + limit - 1) limit ltac:(lia)) as Hdm.
  pose proof (Z.mod_pos_bound (total + limit - 1) limit ltac:(lia)) as Hr.
  nia.
Qed.

Lemma page_count_intro total limit :
  0 ≤ total → 1 ≤ limit →
  is_page_count ((total + limit - 1) `div` limit) total limit.
Proof.
  intros Ht Hl. unfold is_page_count. split_and!; [done..| |].
  - by apply ceil_div_spec.
  - intros Hle. destruct (Z.eqb_spec total 0) as [->|Hne].
    + apply Z.div_small. lia.
    + symmetry. apply (Z.div_unique _ _ 1 (total - 1)); lia.
Qed.

Lemma totalPages_exact total limit :
  0 ≤ total → 1 ≤ limit → total + limit - 1 ≤ GoInt.max_int →
  totalPages total limit = Some ((total + limit - 1) `div` limit).
Proof.
  intros Ht Hl Hmax. unfold totalPages, GoInt.div, GoInt.sub, GoInt.add.
  rewrite wrap_sub_l.
  rewrite (wrap_id (total + limit - 1))
    by (unfold GoInt.in_range, GoInt.min_int; lia).
  destruct (Z.eqb_spec limit 0); [lia|].
  rewrite Z.quot_div_nonneg by lia.
  assert (0 ≤ (total + limit - 1) `div` limit ≤ total + limit - 1) as Hq.
  { split; [apply Z.div_pos; lia | apply Z.div_le_upper_bound; nia]. }
  rewrite wrap_id by (unfold GoInt.in_range, GoInt.min_int; lia).
  by destruct (Z.ltb_spec ((total + limit - 1) `div` limit) 0); [lia|].
Qed.

Lemma totalPages_zero_limit total : totalPages total 0 = None.
Proof. done. Qed.

Lemma totalPages_nonneg total limit n :
  totalPages total limit = Some n → 0 ≤ n.
Proof.
  unfold totalPages. destruct (GoInt.div _ limit) as [m|]; [|done].
  intros [= <-]. destruct (Z.ltb_spec m 0); lia.
Qed.

Section Pages.
Context `{rt : GoRuntime}.

Lemma paginate_total_le {A} (P : A → Prop) `{∀ x, Decision (P x)}
  (less : A → A → bool) (m : gmap string A) page limit window total :
  paginate (sort_Slice less (filter P (map_range m))) page limit
    = Some (window, total) →
  0 ≤ total ≤ Z.of_nat (size m).
Proof.
  intros [-> _]%paginate_Some. unfold len.
  rewrite (Permutation_length (sort_Slice_perm _ less _)).
  pose proof (length_filter P (map_range m)) as Hle.
  rewrite (Permutation_length (map_range_records _)), length_records in Hle.
  lia.
Qed.

(** The page count written by a list handler after its store operation
    returned [result] out of a table of [size] entries. *)
Lemma list_handler_pages {A} (q : PaginationQuery.t) (size : nat)
  (result : option (list A * Z)) (respond : list A → Pagination.t → Body) :
  effective_query q → Z.of_nat size ≤ maxAlloc →
  (∀ data total, result = Some (data, total) → 0 ≤ total ≤ Z.of_nat size) →
  (∀ data p, pagination_of (JSON StatusOK (respond data p)) = Some p) →
  pages_of_response
    match result with
    | None => None
    | Some (data, total) =>
        match totalPages total (PaginationQuery.Limit q) with
        | None => None
        | Some totalPages =>
            Some (JSON StatusOK
                    (respond data
                       (Pagination.mk (PaginationQuery.Page q)
                          (PaginationQuery.Limit q) total totalPages)))
        end
    end.
Proof.
  intros Hq%effective_query_range Hsize Htotal Hresp resp p Hr Hp.
  destruct result as [[data total]|]; [|done].
  specialize (Htotal data total eq_refl).
  rewrite totalPages_exact in Hr
    by (unfold maxAlloc, GoInt.max_int in *; lia).
  injection Hr as <-. rewrite Hresp in Hp. injection Hp as <-. simpl.
  apply page_count_intro; lia.
Qed.

Lemma error_response_pages code e :
  pages_of_response (Some (JSON code (ErrorBody e))).
Proof. intros resp p [= <-] Hp. done. Qed.

End Pages.

(** C4 (amended).  In every list response a handler produces from a query
    that was bound without error, over tables that fit in memory, the
    limit is at least 1, the total at least 0, and [totalPages] equals
    [(total + limit - 1) / limit], which is the ceiling of [total / limit];
    in particular it is 1 when [limit >= total > 0] and 0 when
    [total = 0].  The same holds of the expression itself wherever
    [total + limit - 1] is representable.  The quotient is then never
    negative, so the clamp is idle; and the clamp does not guard a zero
    limit: for [limit = 0] the division panics before the clamp is
    reached. *)
Theorem total_pages_is_ceiling `{rt : GoRuntime} (s : MemoryStore) :
  (∀ total limit,
     0 ≤ total → 1 ≤ limit → total + limit - 1 ≤ GoInt.max_int →
     ∃ n, totalPages total limit = Some n ∧ is_page_count n total limit) ∧
  (∀ q, binding_PaginationQuery (TeapotQuery.PaginationQuery q) = true →
     fits_memory (teapots s) →
     pages_of_response (TeapotHandler.List s (BindOk q))) ∧
  (∀ q, binding_PaginationQuery (TeaQuery.PaginationQuery q) = true →
     fits_memory (teas s) →
     pages_of_response (TeaHandler.List s (BindOk q))) ∧
  (∀ q, binding_PaginationQuery (BrewQuery.PaginationQuery q) = true →
     fits_memory (brews s) →
     pages_of_response (BrewHandler.List s (BindOk q))) ∧
  (∀ id q, binding_PaginationQuery q = true → fits_memory (brews s) →
     pages_of_response (BrewHandler.ListByTeapot s id (BindOk q))) ∧
  (∀ id q, binding_PaginationQuery q = true → fits_memory (steeps s) →
     pages_of_response (BrewHandler.ListSteeps s id (BindOk q))) ∧
  (∀ total, totalPages total 0 = None).
Proof.
  split_and!.
  - intros total limit Ht Hl Hmax. eexists. split.
    + by apply totalPages_exact.
    + by apply page_count_intro.
  - intros q Hb Hfits. unfold TeapotHandler.List.
    apply (list_handler_pages (set_defaults (TeapotQuery.PaginationQuery q))
             (size (teapots s)) _ TeapotListResponse);
      [by eexists | done | | done].
    intros data total. unfold ListTeapots.
    rewrite ListTeapots_filtered_filter. apply paginate_total_le.
  - intros q Hb Hfits. unfold TeaHandler.List.
    apply (list_handler_pages (set_defaults (TeaQuery.PaginationQuery q))
             (size (teas s)) _ TeaListResponse);
      [by eexists | done | | done].
    intros data total. unfold ListTeas.
    rewrite ListTeas_filtered_filter. apply paginate_total_le.
  - intros q Hb Hfits. unfold BrewHandler.List.
    apply (list_handler_pages (set_defaults (BrewQuery.PaginationQuery q))
             (size (brews s)) _ BrewListResponse);
      [by eexists | done | | done].
    intros data total. unfold ListBrews.
    rewrite ListBrews_filtered_filter. apply paginate_total_le.
  - intros id q Hb Hfits. unfold BrewHandler.ListByTeapot.
    destruct (negb (uuid_Parse id)); [apply error_response_pages|].
    destruct (negb (GetTeapot s id).2); [apply error_response_pages|].
    apply (list_handler_pages (set_defaults q) (size (brews s)) _
             BrewListResponse); [by eexists | done | | done].
    intros data total. unfold ListBrewsByTeapot.
    rewrite ListBrewsByTeapot_filtered_filter. apply paginate_total_le.
  - intros id q Hb Hfits. unfold BrewHandler.ListSteeps.
    destruct (negb (uuid_Parse id)); [apply error_response_pages|].
    destruct (negb (GetBrew s id).2); [apply error_response_pages|].
    apply (list_handler_pages (set_defaults q) (size (steeps s)) _
             SteepListResponse); [by eexists | done | | done].
    intros data total. unfold ListSteepsByBrew.
    rewrite ListSteepsByBrew_filtered_filter. apply paginate_total_le.
  - apply totalPages_zero_limit.
Qed.

(** * The properties at work on the sample data *)

(** The end-to-end example of the specification: the brew created without a
    water temperature is answered with 201, temperature 80 and status
    "preparing". *)
Example end_to_end_brew :
  BrewHandler.Create sample_store (BindOk sample_brew_request)
    sample_brew_id 3000
  = (CreateBrew sample_store sample_brew,
     JSON StatusCreated (BrewBody sample_brew)).
Proof. by vm_compute. Qed.

Example overflow_on_three_teapots :
  @ListTeapots reference_runtime three_teapots (teapot_query (2 ^ 62) 4 None)
    = None ∧
  @ListTeapots reference_runtime three_teapots
    (teapot_query (2 ^ 62 + 1) 4 None)
    = Some ([teapot_b; teapot_c; teapot_a], 3) ∧
  @TeapotHandler.List reference_runtime three_teapots
    (BindOk (teapot_query (2 ^ 62) 4 None)) = None.
Proof. by vm_compute. Qed.

Lemma list_pages_ordered_witness :
  @ListTeapots reference_runtime three_teapots (teapot_query 1 2 None)
    = Some ([teapot_b; teapot_c], 3) ∧
  newest_first Teapot.CreatedAt [teapot_b; teapot_c].
Proof.
  assert (Hlist : @ListTeapots reference_runtime three_teapots
                    (teapot_query 1 2 None) = Some ([teapot_b; teapot_c], 3))
    by (vm_compute; reflexivity).
  split; [exact Hlist|].
  destruct (@list_pages_ordered reference_runtime three_teapots)
    as (Hteapots & _).
  exact (proj2 (Hteapots (teapot_query 1 2 None) _ _) Hlist).
Defined.

Lemma list_filter_and_total_witness :
  @ListTeapots reference_runtime three_teapots
    (teapot_query 1 1 (Some "cast-iron")) = Some ([teapot_c], 2) ∧
  2 = count_matching (TeapotQuery_matches (teapot_query 1 1 (Some "cast-iron")))
        (teapots three_teapots).
Proof.
  assert (Hlist : @ListTeapots reference_runtime three_teapots
                    (teapot_query 1 1 (Some "cast-iron"))
                  = Some ([teapot_c], 2)) by (vm_compute; reflexivity).
  split; [exact Hlist|].
  destruct (@list_filter_and_total reference_runtime three_teapots)
    as (Hteapots & _).
  destruct (Hteapots (teapot_query 1 1 (Some "cast-iron")))
    as (_ & _ & Htotal).
  exact (proj1 (Htotal _ _ Hlist)).
Defined.

Lemma total_pages_is_ceiling_witness :
  @TeapotHandler.List reference_runtime three_teapots
    (BindOk (teapot_query 0 2 None))
    = Some (JSON StatusOK
              (TeapotListResponse [teapot_b; teapot_c]
                 (Pagination.mk 1 2 3 2))) ∧
  is_page_count 2 3 2.
Proof.
  assert (Hresp : @TeapotHandler.List reference_runtime three_teapots
                    (BindOk (teapot_query 0 2 None))
                  = Some (JSON StatusOK
                            (TeapotListResponse [teapot_b; teapot_c]
                               (Pagination.mk 1 2 3 2))))
    by (vm_compute; reflexivity).
  split; [exact Hresp|].
  destruct (@total_pages_is_ceiling reference_runtime three_teapots)
    as (_ & Hteapots & _).
  refine (Hteapots (teapot_query 0 2 None) _ _ _ _ Hresp eq_refl).
  - reflexivity.
  - unfold fits_memory, maxAlloc. vm_compute. discriminate.
Defined.

Lemma list_bounds_precondition_witness :
  is_Some (@ListTeapots reference_runtime three_teapots
             (teapot_query 2 2 None)) ∧
  @ListTeapots reference_runtime three_teapots (teapot_query 0 2 None) = None ∧
  is_Some (@TeapotHandler.List reference_runtime three_teapots
             (BindOk (teapot_query 0 2 None))).
Proof.
  destruct (@list_bounds_precondition reference_runtime three_teapots)
    as (Hteapots & _ & _ & _ & _ & _ & Hhandler & _).
  split_and!.
  - destruct (Hteapots (teapot_query 2 2 None)) as [Hup _].
    apply Hup; by vm_compute.
  - destruct (Hteapots (teapot_query 0 2 None)) as [_ Hdown].
    apply Hdown; by vm_compute.
  - apply Hhandler; by vm_compute.
Defined.

Lemma create_brew_missing_reference_witness :
  teapots sample_store !! missing_id = None ∧
  ∃ message,
    BrewHandler.Create sample_store
      (BindOk (CreateBrewRequest.mk missing_id sample_tea_id None None))
      sample_brew_id 3000
    = (sample_store,
       JSON StatusBadRequest (ErrorBody (Error.mk "VALIDATION_ERROR" message))) ∧
    (message = "Teapot not found" ∨ message = "Tea not found").
Proof.
  assert (Hmissing : teapots sample_store !! missing_id = None)
    by (vm_compute; reflexivity).
  split; [exact Hmissing|].
  destruct (create_brew_missing_reference sample_store
              (CreateBrewRequest.mk missing_id sample_tea_id None None)
              sample_brew_id 3000 (or_introl Hmissing))
    as (message & Hcreate & Hmessage & _).
  exists message. by split.
Defined.

Lemma create_brew_default_temperature_witness :
  ∃ brew s',
    BrewHandler.Create sample_store (BindOk sample_brew_request)
      sample_brew_id 3000 = (s', JSON StatusCreated (BrewBody brew)) ∧
    GetBrew s' sample_brew_id = (brew, true) ∧
    Brew.WaterTempCelsius brew = 80 ∧
    Brew.Status brew = "preparing".
Proof.
  destruct (@create_brew_default_temperature reference_runtime sample_store
              sample_brew_request sample_brew_id 3000
              (Teapot.mk sample_teapot_id "My Kyusu" "clay" 350 "kyusu" None
                 1000 1000)
              (Tea.mk sample_tea_id "Dragon Well" "green" None "medium" 80 120
                 None 2000 2000))
    as (brew & s' & Hcreate & Hget & Htemp & Hstatus & _).
  - vm_compute. reflexivity.
  - vm_compute. reflexivity.
  - reflexivity.
  - exists brew, s'. by split_and!.
Defined.

Lemma served_brewing_store : @served reference_runtime 3000 brewing_store.
Proof.
  apply (@served_request reference_runtime 2000 sample_store
           (POST_brews (BindOk sample_brew_request)) sample_brew_id 3000);
    [|lia].
  apply (@served_request reference_runtime 1000 _
           (POST_teas
              (BindOk (CreateTeaRequest.mk "Dragon Well" "green" None "" 80
                         120 None)))
           sample_tea_id 2000); [|lia].
  apply (@served_request reference_runtime 0 NewMemoryStore
           (POST_teapots
              (BindOk (CreateTeapotRequest.mk "My Kyusu" "clay" 350 "kyusu"
                         None)))
           sample_teapot_id 1000); [|lia].
  apply served_Setup.
Qed.

Lemma patch_changes_only_supplied_fields_witness :
  ∃ patched,
    @BrewHandler.Patch reference_runtime brewing_store sample_brew_id
      (BindOk (PatchBrewRequest.mk (Some "steeping") None None)) 4000
    = (UpdateBrew brewing_store patched, JSON StatusOK (BrewBody patched)) ∧
    Brew_patched (PatchBrewRequest.mk (Some "steeping") None None) 4000
      sample_brew patched ∧
    Brew.UpdatedAt sample_brew ≤ Brew.UpdatedAt patched ∧
    GetBrew (UpdateBrew brewing_store patched) sample_brew_id = (patched, true).
Proof.
  destruct (@patch_changes_only_supplied_fields reference_runtime
              brewing_store sample_brew_id 4000) as (_ & _ & Hbrew).
  - vm_compute. reflexivity.
  - destruct (Hbrew sample_brew (PatchBrewRequest.mk (Some "steeping") None None))
      as (patched & Hpatch & Hfields & Hclock).
    + vm_compute. reflexivity.
    + exists patched. split_and!; [done..| |];
        apply (Hclock 3000 served_brewing_store); lia.
Defined.

Lemma steep_number_is_count_plus_one_witness :
  let req := CreateSteepRequest.mk 30 None None in
  let r1 := @BrewHandler.CreateSteep reference_runtime brewing_store
              sample_brew_id (BindOk req) first_steep_id 5000 in
  let r2 := @BrewHandler.CreateSteep reference_runtime r1.1
              sample_brew_id (BindOk req) second_steep_id 6000 in
  let r3 := @BrewHandler.CreateSteep reference_runtime r2.1
              sample_brew_id (BindOk req) third_steep_id 7000 in
  steep_number_of <$> [r1.2; r2.2; r3.2] = [Some 1; Some 2; Some 3].
Proof.
  destruct (@steep_number_is_count_plus_one reference_runtime brewing_store
              sample_brew_id) as (_ & Hthree).
  - vm_compute. reflexivity.
  - vm_compute. eauto.
  - unfold fits_memory, maxAlloc. vm_compute. discriminate.
  - intros req.
    apply (Hthree req req req first_steep_id second_steep_id third_steep_id
             5000 6000 7000);
      first [ by vm_compute | discriminate ].
Defined.

(** C10 as stated fails where the code follows its arithmetic: with page 0
    and limit 0 over one matching teapot the start index is 0, not
    negative, and the operation returns the empty page instead of
    panicking.  (It also fails at the overflowing page [2^62], which binds
    without error and makes the handler panic.) *)
Lemma nonpositive_page_in_bounds :
  len (@ListTeapots_filtered reference_runtime sample_store
         (teapot_query 0 0 None)) = 1 ∧
  window_start 0 0 = 0 ∧
  @ListTeapots reference_runtime sample_store (teapot_query 0 0 None)
    = Some ([], 1) ∧
  binding_PaginationQuery (PaginationQuery.mk (2 ^ 62) 4) = true ∧
  @TeapotHandler.List reference_runtime sample_store
    (BindOk (teapot_query (2 ^ 62) 4 None)) = None.
Proof. by vm_compute. Qed.

(** C4 as stated fails for the degenerate limit it names: with [limit = 0]
    the division panics, so no page count, clamped or not, is produced. *)
Lemma zero_limit_not_clamped :
  totalPages 5 0 = None ∧ ¬ ∃ n, totalPages 5 0 = Some n ∧ 0 ≤ n.
Proof. split; [done | by intros (n & [=] & _)]. Qed.

(** * Further properties of the code *)

(** ** Store operations *)

Lemma size_delete_Some {V} (m : gmap string V) k v :
  m !! k = Some v → S (size (delete k m)) = size m.
Proof.
  intros Hk. rewrite <- (insert_delete_id m k v Hk) at 2.
  by rewrite map_size_insert_None by apply lookup_delete_eq.
Qed.

Lemma records_delete {V} (m : gmap string V) k v :
  m !! k = Some v → v :: records (delete k m) ≡ₚ records m.
Proof.
  intros Hk. unfold records. by rewrite <- (map_to_list_delete m k v Hk).
Qed.

(** X1.  [Delete] answers whether the identifier was stored.  When it was
    not, the store is returned as it is; when it was, that entry alone is
    gone: every other identifier reads as before, the table has one entry
    less and the other tables are the same. *)
Theorem delete_removes_one_entry (s : MemoryStore) (id : string) :
  ((DeleteTeapot s id).2 = (GetTeapot s id).2 ∧
   ((DeleteTeapot s id).2 = false → (DeleteTeapot s id).1 = s) ∧
   ((DeleteTeapot s id).2 = true →
    S (size (teapots (DeleteTeapot s id).1)) = size (teapots s)) ∧
   (∀ id', id' ≠ id →
      GetTeapot (DeleteTeapot s id).1 id' = GetTeapot s id') ∧
   teas (DeleteTeapot s id).1 = teas s ∧
   brews (DeleteTeapot s id).1 = brews s ∧
   steeps (DeleteTeapot s id).1 = steeps s) ∧
  ((DeleteTea s id).2 = (GetTea s id).2 ∧
   ((DeleteTea s id).2 = false → (DeleteTea s id).1 = s) ∧
   ((DeleteTea s id).2 = true →
    S (size (teas (DeleteTea s id).1)) = size (teas s)) ∧
   (∀ id', id' ≠ id → GetTea (DeleteTea s id).1 id' = GetTea s id') ∧
   teapots (DeleteTea s id).1 = teapots s ∧
   brews (DeleteTea s id).1 = brews s ∧
   steeps (DeleteTea s id).1 = steeps s) ∧
  ((DeleteBrew s id).2 = (GetBrew s id).2 ∧
   ((DeleteBrew s id).2 = false → (DeleteBrew s id).1 = s) ∧
   ((DeleteBrew s id).2 = true →
    S (size (brews (DeleteBrew s id).1)) = size (brews s)) ∧
   (∀ id', id' ≠ id → GetBrew (DeleteBrew s id).1 id' = GetBrew s id') ∧
   teapots (DeleteBrew s id).1 = teapots s ∧
   teas (DeleteBrew s id).1 = teas s ∧
   steeps (DeleteBrew s id).1 = steeps s).
Proof.
  split; [|split].
  - unfold DeleteTeapot, GetTeapot.
    destruct (teapots s !! id) eqn:Hid; simpl; split_and!; try done.
    + intros _. by eapply size_delete_Some.
    + intros id' Hne. by rewrite lookup_delete_ne.
  - unfold DeleteTea, GetTea.
    destruct (teas s !! id) eqn:Hid; simpl; split_and!; try done.
    + intros _. by eapply size_delete_Some.
    + intros id' Hne. by rewrite lookup_delete_ne.
  - unfold DeleteBrew, GetBrew.
    destruct (brews s !! id) eqn:Hid; simpl; split_and!; try done.
    + intros _. by eapply size_delete_Some.
    + intros id' Hne. by rewrite lookup_delete_ne.
Qed.

(** X2.  [Create] and [Update] are the same write: the store checks
    nothing, so an [Update] of an absent identifier inserts and a [Create]
    of a present one overwrites.  Either way only the entry under the
    record's own identifier changes: every other identifier reads as
    before and the other tables are the same. *)
Theorem create_update_write_one_entry (s : MemoryStore) :
  (∀ t, UpdateTeapot s t = CreateTeapot s t ∧
        GetTeapot (UpdateTeapot s t) (Teapot.ID t) = (t, true) ∧
        (∀ id', id' ≠ Teapot.ID t →
           GetTeapot (CreateTeapot s t) id' = GetTeapot s id') ∧
        teas (CreateTeapot s t) = teas s ∧
        brews (CreateTeapot s t) = brews s ∧
        steeps (CreateTeapot s t) = steeps s) ∧
  (∀ t, UpdateTea s t = CreateTea s t ∧
        GetTea (UpdateTea s t) (Tea.ID t) = (t, true) ∧
        (∀ id', id' ≠ Tea.ID t →
           GetTea (CreateTea s t) id' = GetTea s id') ∧
        teapots (CreateTea s t) = teapots s ∧
        brews (CreateTea s t) = brews s ∧
        steeps (CreateTea s t) = steeps s) ∧
  (∀ b, UpdateBrew s b = CreateBrew s b ∧
        GetBrew (UpdateBrew s b) (Brew.ID b) = (b, true) ∧
        (∀ id', id' ≠ Brew.ID b →
           GetBrew (CreateBrew s b) id' = GetBrew s id') ∧
        teapots (CreateBrew s b) = teapots s ∧
        teas (CreateBrew s b) = teas s ∧
        steeps (CreateBrew s b) = steeps s) ∧
  (∀ st, (∀ id', id' ≠ Steep.ID st →
            GetSteep (CreateSteep s st) id' = GetSteep s id') ∧
         teapots (CreateSteep s st) = teapots s ∧
         teas (CreateSteep s st) = teas s ∧
         brews (CreateSteep s st) = brews s).
Proof.
  split; [|split; [|split]]; intros x; split_and!; try done;
    first [ unfold GetTeapot, GetTea, GetBrew; simpl;
            by rewrite lookup_insert_eq
          | intros id' Hne;
            unfold GetTeapot, GetTea, GetBrew, GetSteep; simpl;
            by rewrite lookup_insert_ne ].
Qed.

(** ** More on the pagination tail *)

Lemma wrap_above z :
  GoInt.max_int < z < 2 ^ 64 → GoInt.wrap z = z - 2 ^ 64.
Proof.
  unfold GoInt.max_int, GoInt.wrap. intros Hz.
  assert ((z + 2 ^ 63) mod 2 ^ 64 = z + 2 ^ 63 - 2 ^ 64) as ->
    by (symmetry; apply (Z.mod_unique _ _ 1); lia).
  lia.
Qed.

Lemma window_stop_bound (start limit total : Z) :
  0 ≤ limit ≤ GoInt.max_int → 0 ≤ start ≤ GoInt.max_int →
  let stop := GoInt.add start limit in
  start ≤ (if total <? stop then total else stop) →
  (if total <? stop then total else stop) - start ≤ limit.
Proof.
  intros Hl Hs stop. subst stop. unfold GoInt.add.
  destruct (Z.le_gt_cases (start + limit) GoInt.max_int) as [Hfit|Hover].
  - rewrite wrap_id by (unfold GoInt.in_range, GoInt.min_int; lia).
    destruct (Z.ltb_spec total (start + limit)); lia.
  - rewrite wrap_above by (unfold GoInt.max_int in *; lia).
    destruct (Z.ltb_spec total (start + limit - 2 ^ 64));
      unfold GoInt.max_int in *; lia.
Qed.

Lemma window_start_in_range page limit :
  GoInt.in_range (window_start page limit).
Proof. rewrite window_start_wrap. apply wrap_in_range. Qed.

Lemma paginate_within {A} (l : list A) page limit window total :
  0 ≤ limit ≤ GoInt.max_int →
  paginate l page limit = Some (window, total) →
  len window ≤ limit ∧ len window ≤ total ∧ total = len l.
Proof.
  intros Hl Hp. unfold paginate in Hp.
  pose proof (len_nonneg l) as Hlen.
  destruct (Z.leb_spec (len l) (window_start page limit)) as [Hge|Hlt].
  { injection Hp as <- <-. unfold len at 1 2. simpl. lia. }
  pose proof (window_start_in_range page limit) as [_ Hr].
  pose proof (window_stop_bound (window_start page limit) limit (len l) Hl)
    as Hstop.
  unfold slice_expr, window_end in *.
  destruct (Z.leb_spec 0 (window_start page limit)) as [H0|]; [|done].
  destruct (Z.leb_spec (window_start page limit)
              (if len l <? GoInt.add (window_start page limit) limit
               then len l else GoInt.add (window_start page limit) limit))
    as [H1|]; [|done].
  destruct (Z.leb_spec
              (if len l <? GoInt.add (window_start page limit) limit
               then len l else GoInt.add (window_start page limit) limit)
              (len l)) as [H2|]; [|done].
  simpl in Hp. injection Hp as <- <-.
  specialize (Hstop ltac:(lia) H1).
  unfold len in *. rewrite length_take, length_drop. lia.
Qed.

Section Windows.
Context `{rt : GoRuntime}.

Lemma sorted_filtered_size {A} (P : A → Prop) `{∀ x, Decision (P x)}
  (less : A → A → bool) (m : gmap string A) :
  len (sort_Slice less (filter P (map_range m))) ≤ Z.of_nat (size m).
Proof.
  unfold len. rewrite (Permutation_length (sort_Slice_perm _ less _)).
  pose proof (length_filter P (map_range m)) as Hle.
  rewrite (Permutation_length (map_range_records _)), length_records in Hle.
  lia.
Qed.

Lemma sorted_window_within {A} (P : A → Prop) `{∀ x, Decision (P x)}
  (less : A → A → bool) (m : gmap string A) page limit :
  0 ≤ limit ≤ GoInt.max_int →
  window_within
    (paginate (sort_Slice less (filter P (map_range m))) page limit)
    limit (size m).
Proof.
  intros Hl window total Hp.
  destruct (paginate_within _ _ _ _ _ Hl Hp) as (? & ? & ->).
  pose proof (sorted_filtered_size P less m). pose proof (len_nonneg window).
  lia.
Qed.

End Windows.

(** X3.  Whatever the page, a list operation asked for a limit between 0
    and the largest int returns, when it returns, at most [limit] records
    and at most as many as the total it reports, and that total lies
    between 0 and the size of the table. *)
Theorem list_window_within_limit `{rt : GoRuntime} (s : MemoryStore) :
  (∀ q, 0 ≤ TeapotQuery.Limit q ≤ GoInt.max_int →
     window_within (ListTeapots s q) (TeapotQuery.Limit q)
       (size (teapots s))) ∧
  (∀ q, 0 ≤ TeaQuery.Limit q ≤ GoInt.max_int →
     window_within (ListTeas s q) (TeaQuery.Limit q) (size (teas s))) ∧
  (∀ q, 0 ≤ BrewQuery.Limit q ≤ GoInt.max_int →
     window_within (ListBrews s q) (BrewQuery.Limit q) (size (brews s))) ∧
  (∀ teapotID page limit, 0 ≤ limit ≤ GoInt.max_int →
     window_within (ListBrewsByTeapot s teapotID page limit) limit
       (size (brews s))) ∧
  (∀ brewID page limit, 0 ≤ limit ≤ GoInt.max_int →
     window_within (ListSteepsByBrew s brewID page limit) limit
       (size (steeps s))).
Proof.
  split_and!; intros.
  - unfold ListTeapots. rewrite ListTeapots_filtered_filter.
    by apply sorted_window_within.
  - unfold ListTeas. rewrite ListTeas_filtered_filter.
    by apply sorted_window_within.
  - unfold ListBrews. rewrite ListBrews_filtered_filter.
    by apply sorted_window_within.
  - unfold ListBrewsByTeapot. rewrite ListBrewsByTeapot_filtered_filter.
    by apply sorted_window_within.
  - unfold ListSteepsByBrew. rewrite ListSteepsByBrew_filtered_filter.
    by apply sorted_window_within.
Qed.

Lemma concat_pages {A} (l : list A) (limit : Z) (n : nat) :
  0 ≤ limit →
  concat ((λ p : nat, page_of l (Z.of_nat p) limit) <$> seq 1 n)
  = take (n * Z.to_nat limit) l.
Proof.
  intros Hl. induction n as [|n IH].
  - done.
  - rewrite seq_S, fmap_app, concat_app, IH. simpl. rewrite app_nil_r.
    unfold page_of.
    replace (Z.to_nat ((Z.of_nat (S n) - 1) * limit))
      with (n * Z.to_nat limit)%nat by nia.
    rewrite take_take_drop. f_equal. lia.
Qed.

(** X4.  Over one list the pages tile: for a limit of at least 1, pages 1
    to [n] are all returned while [n * limit] is representable, none holds
    more than [limit] elements, and laid end to end they are the first
    [n * limit] elements of the list; so they are the whole list, each
    element once and in order, as soon as [n * limit] reaches its
    length. *)
Theorem pages_tile_the_list {A} (l : list A) (limit : Z) (n : nat) :
  1 ≤ limit → Z.of_nat n * limit ≤ GoInt.max_int →
  ∃ windows,
    first_pages l limit n = Some windows ∧
    Forall (λ window, len window ≤ limit) windows ∧
    concat windows = take (n * Z.to_nat limit) l ∧
    (len l ≤ Z.of_nat n * limit → concat windows = l).
Proof.
  intros Hl Hmax.
  exists ((λ p : nat, page_of l (Z.of_nat p) limit) <$> seq 1 n).
  assert (Hcat := concat_pages l limit n ltac:(lia)).
  split_and!.
  - unfold first_pages. apply mapM_Some. apply Forall2_fmap_r.
    apply Forall_Forall2_diag, Forall_forall. intros p Hp.
    apply list_elem_of_In, in_seq in Hp.
    rewrite paginate_in_range; [done|lia..|nia].
  - apply Forall_fmap, Forall_forall. intros p _. simpl.
    unfold page_of, len. rewrite length_take. lia.
  - done.
  - intros Hlen. rewrite Hcat. apply take_ge. unfold len in Hlen. nia.
Qed.

(** X5.  The page count and the pages agree: for a page of at least 1 and
    a limit of at least 1, without overflow, the page returned is non-empty
    exactly when its number is at most the [totalPages] computed from the
    same total and limit. *)
Theorem page_nonempty_iff_within_total_pages {A} (l : list A)
  (page limit : Z) :
  1 ≤ page → 1 ≤ limit → page * limit ≤ GoInt.max_int →
  len l + limit - 1 ≤ GoInt.max_int →
  ∃ window n,
    paginate l page limit = Some (window, len l) ∧
    totalPages (len l) limit = Some n ∧
    (window ≠ [] ↔ page ≤ n).
Proof.
  intros Hp Hl Hmax Hsum. pose proof (len_nonneg l) as Hlen.
  exists (page_of l page limit), ((len l + limit - 1) `div` limit).
  split_and!.
  - apply paginate_in_range; lia.
  - apply totalPages_exact; lia.
  - pose proof (ceil_div_spec (len l) limit Hl) as Hceil.
    unfold is_ceil_div in Hceil.
    set (n := (len l + limit - 1) `div` limit) in *. clearbody n.
    rewrite <- length_zero_iff_nil. unfold page_of.
    rewrite length_take, length_drop. unfold len in *.
    assert (0 ≤ (page - 1) * limit) as Hk by nia.
    assert ((Z.to_nat limit `min`
               (length l - Z.to_nat ((page - 1) * limit)))%nat ≠ 0%nat
            ↔ (page - 1) * limit < Z.of_nat (length l)) as ->.
    { generalize dependent ((page - 1) * limit). intros k; intros. lia. }
    split; intros; nia.
Qed.

(** ** Listings across runtimes and across writes *)

Lemma slice_expr_fmap {A K} (key : A → K) (l : list A) lo hi :
  slice_expr (key <$> l) lo hi =
  match slice_expr l lo hi with
  | Some window => Some (key <$> window)
  | None => None
  end.
Proof.
  unfold slice_expr, len. rewrite length_fmap.
  case_match; [|done]. by rewrite fmap_take, fmap_drop.
Qed.

Lemma keys_of_paginate {A K} (key : A → K) (l : list A) page limit :
  keys_of key (paginate l page limit) = paginate (key <$> l) page limit.
Proof.
  unfold paginate, keys_of. rewrite slice_expr_fmap.
  unfold len. rewrite length_fmap.
  destruct (_ <=? _); [done|]. by destruct (slice_expr l _ _).
Qed.

Lemma sorted_keys_determined {A} (key : A → Z) (R : relation Z)
  `{!AntiSymm (=) R} (less : A → A → bool) (l1 l2 : list A) :
  (∀ a b, less b a = false → R (key a) (key b)) →
  l1 ≡ₚ l2 → sorted_by less l1 → sorted_by less l2 →
  key <$> l1 = key <$> l2.
Proof.
  intros Hless Hperm Hs1 Hs2.
  apply (StronglySorted_unique R).
  - by eapply StronglySorted_fmap; [|exact Hs1].
  - by eapply StronglySorted_fmap; [|exact Hs2].
  - by rewrite Hperm.
Qed.

Lemma newest_first_keys_determined {A} (created : A → Time)
  (rt1 rt2 : GoRuntime) (l1 l2 : list A) page limit :
  l1 ≡ₚ l2 →
  keys_of created
    (paginate (@sort_Slice rt1 _ (λ a b, After (created a) (created b)) l1)
       page limit)
  = keys_of created
      (paginate (@sort_Slice rt2 _ (λ a b, After (created a) (created b)) l2)
         page limit).
Proof.
  intros Hperm. rewrite !keys_of_paginate. f_equal.
  assert (AntiSymm (=) (λ x y : Z, y ≤ x)) by (intros x y ??; lia).
  apply (sorted_keys_determined created (λ x y, y ≤ x)
           (λ a b, After (created a) (created b))).
  - intros a b. unfold After. rewrite Z.ltb_ge. lia.
  - by rewrite !sort_Slice_perm.
  - apply sort_by_CreatedAt.
  - apply sort_by_CreatedAt.
Qed.

Lemma ascending_keys_determined (rt1 rt2 : GoRuntime) (l1 l2 : list Steep.t)
  page limit :
  l1 ≡ₚ l2 →
  keys_of Steep.SteepNumber
    (paginate (@sort_Slice rt1 _ steep_less l1) page limit)
  = keys_of Steep.SteepNumber
      (paginate (@sort_Slice rt2 _ steep_less l2) page limit).
Proof.
  intros Hperm. rewrite !keys_of_paginate. f_equal.
  apply (sorted_keys_determined Steep.SteepNumber Z.le steep_less).
  - intros a b. unfold steep_less. rewrite Z.ltb_ge. lia.
  - by rewrite !sort_Slice_perm.
  - apply sort_Slice_sorted;
      [apply steep_less_asymmetric | apply steep_less_negatively_transitive].
  - apply sort_Slice_sorted;
      [apply steep_less_asymmetric | apply steep_less_negatively_transitive].
Qed.

Lemma filter_map_range (rt1 rt2 : GoRuntime) {V} (P : V → Prop)
  `{∀ x, Decision (P x)} (m : gmap string V) :
  filter P (@map_range rt1 _ m) ≡ₚ filter P (@map_range rt2 _ m).
Proof. by rewrite !map_range_records. Qed.

(** X6.  The order of a map's iteration and the way [sort.Slice] breaks
    ties cannot be seen in the sort keys: under any two runtimes a list
    operation on the same store and query either panics under both or
    returns the same total and pages carrying the same sequence of
    [CreatedAt] values (of [SteepNumber] values for steeps). *)
Theorem listing_keys_independent_of_runtime (rt1 rt2 : GoRuntime)
  (s : MemoryStore) :
  (∀ q, keys_of Teapot.CreatedAt (@ListTeapots rt1 s q)
        = keys_of Teapot.CreatedAt (@ListTeapots rt2 s q)) ∧
  (∀ q, keys_of Tea.CreatedAt (@ListTeas rt1 s q)
        = keys_of Tea.CreatedAt (@ListTeas rt2 s q)) ∧
  (∀ q, keys_of Brew.CreatedAt (@ListBrews rt1 s q)
        = keys_of Brew.CreatedAt (@ListBrews rt2 s q)) ∧
  (∀ teapotID page limit,
     keys_of Brew.CreatedAt (@ListBrewsByTeapot rt1 s teapotID page limit)
     = keys_of Brew.CreatedAt (@ListBrewsByTeapot rt2 s teapotID page limit)) ∧
  (∀ brewID page limit,
     keys_of Steep.SteepNumber (@ListSteepsByBrew rt1 s brewID page limit)
     = keys_of Steep.SteepNumber
         (@ListSteepsByBrew rt2 s brewID page limit)).
Proof.
  split_and!; intros.
  - unfold ListTeapots. rewrite !ListTeapots_filtered_filter.
    apply newest_first_keys_determined, filter_map_range.
  - unfold ListTeas. rewrite !ListTeas_filtered_filter.
    apply newest_first_keys_determined, filter_map_range.
  - unfold ListBrews. rewrite !ListBrews_filtered_filter.
    apply newest_first_keys_determined, filter_map_range.
  - unfold ListBrewsByTeapot. rewrite !ListBrewsByTeapot_filtered_filter.
    apply newest_first_keys_determined, filter_map_range.
  - unfold ListSteepsByBrew. rewrite !ListSteepsByBrew_filtered_filter.
    apply ascending_keys_determined, filter_map_range.
Qed.

(** X7.  The two relationship listings filter by the parent alone: the
    loop of [ListBrewsByTeapot] keeps exactly the brews whose [TeapotID]
    is the given identifier, that of [ListSteepsByBrew] exactly the steeps
    whose [BrewID] is, and the total returned with any page is the number
    of such entries in the table. *)
Theorem relationship_lists_filter_by_parent `{rt : GoRuntime}
  (s : MemoryStore) (page limit : Z) :
  @filter_contract _ _ belongs_to_teapot belongs_to_teapot_dec (brews s)
    (ListBrewsByTeapot_filtered s)
    (λ id, ListBrewsByTeapot s id page limit) ∧
  @filter_contract _ _ belongs_to_brew belongs_to_brew_dec (steeps s)
    (ListSteepsByBrew_filtered s)
    (λ id, ListSteepsByBrew s id page limit).
Proof.
  split.
  - apply (@filter_contract_intro _ _ _ belongs_to_teapot
             belongs_to_teapot_dec _ _ _ brew_less (λ _, page) (λ _, limit));
      [apply ListBrewsByTeapot_filtered_filter | done].
  - apply (@filter_contract_intro _ _ _ belongs_to_brew
             belongs_to_brew_dec _ _ _ steep_less (λ _, page) (λ _, limit));
      [apply ListSteepsByBrew_filtered_filter | done].
Qed.

Lemma count_matching_insert {V} (P : V → Prop) `{∀ x, Decision (P x)}
  (m : gmap string V) k v :
  m !! k = None →
  count_matching P (<[k:=v]> m)
  = count_matching P m + (if decide (P v) then 1 else 0).
Proof.
  intros Hk. unfold count_matching, len.
  rewrite (records_insert_fresh m k v Hk), filter_cons.
  destruct (decide (P v)); simpl; lia.
Qed.

Lemma count_matching_delete {V} (P : V → Prop) `{∀ x, Decision (P x)}
  (m : gmap string V) k v :
  m !! k = Some v →
  count_matching P m
  = count_matching P (delete k m) + (if decide (P v) then 1 else 0).
Proof.
  intros Hk. unfold count_matching, len.
  rewrite <- (records_delete m k v Hk), filter_cons.
  destruct (decide (P v)); simpl; lia.
Qed.

Section Totals.
Context `{rt : GoRuntime}.

Lemma paginate_total_count {A} (P : A → Prop) `{∀ x, Decision (P x)}
  (less : A → A → bool) (m : gmap string A) page limit window total :
  paginate (sort_Slice less (filter P (map_range m))) page limit
    = Some (window, total) →
  total = count_matching P m.
Proof.
  intros [-> _]%paginate_Some. unfold count_matching, len.
  by rewrite (Permutation_length (sort_Slice_perm _ less _)),
    map_range_records.
Qed.

Lemma ListTeapots_total s q window total :
  ListTeapots s q = Some (window, total) →
  total = count_matching (TeapotQuery_matches q) (teapots s).
Proof.
  unfold ListTeapots. rewrite ListTeapots_filtered_filter.
  apply paginate_total_count.
Qed.

Lemma ListTeas_total s q window total :
  ListTeas s q = Some (window, total) →
  total = count_matching (TeaQuery_matches q) (teas s).
Proof.
  unfold ListTeas. rewrite ListTeas_filtered_filter.
  apply paginate_total_count.
Qed.

Lemma ListBrews_total s q window total :
  ListBrews s q = Some (window, total) →
  total = count_matching (BrewQuery_matches q) (brews s).
Proof.
  unfold ListBrews. rewrite ListBrews_filtered_filter.
  apply paginate_total_count.
Qed.

End Totals.

(** X8.  Totals follow the writes.  Creating a record under an identifier
    not yet stored raises the total of every later listing whose filters
    the record satisfies by exactly one and leaves the others alone;
    deleting a stored record lowers it in the same way. *)
Theorem list_total_after_create_and_delete `{rt : GoRuntime}
  (s : MemoryStore) :
  (∀ t q w total w' total',
     teapots s !! Teapot.ID t = None →
     ListTeapots s q = Some (w, total) →
     ListTeapots (CreateTeapot s t) q = Some (w', total') →
     total' = total + (if decide (TeapotQuery_matches q t) then 1 else 0)) ∧
  (∀ t q w total w' total',
     teas s !! Tea.ID t = None →
     ListTeas s q = Some (w, total) →
     ListTeas (CreateTea s t) q = Some (w', total') →
     total' = total + (if decide (TeaQuery_matches q t) then 1 else 0)) ∧
  (∀ b q w total w' total',
     brews s !! Brew.ID b = None →
     ListBrews s q = Some (w, total) →
     ListBrews (CreateBrew s b) q = Some (w', total') →
     total' = total + (if decide (BrewQuery_matches q b) then 1 else 0)) ∧
  (∀ id t q w total w' total',
     teapots s !! id = Some t →
     ListTeapots s q = Some (w, total) →
     ListTeapots (DeleteTeapot s id).1 q = Some (w', total') →
     total = total' + (if decide (TeapotQuery_matches q t) then 1 else 0)) ∧
  (∀ id t q w total w' total',
     teas s !! id = Some t →
     ListTeas s q = Some (w, total) →
     ListTeas (DeleteTea s id).1 q = Some (w', total') →
     total = total' + (if decide (TeaQuery_matches q t) then 1 else 0)) ∧
  (∀ id b q w total w' total',
     brews s !! id = Some b →
     ListBrews s q = Some (w, total) →
     ListBrews (DeleteBrew s id).1 q = Some (w', total') →
     total = total' + (if decide (BrewQuery_matches q b) then 1 else 0)).
Proof.
  split_and!.
  - intros t q w total w' total' Hfresh ->%ListTeapots_total
      ->%ListTeapots_total. by apply count_matching_insert.
  - intros t q w total w' total' Hfresh ->%ListTeas_total
      ->%ListTeas_total. by apply count_matching_insert.
  - intros b q w total w' total' Hfresh ->%ListBrews_total
      ->%ListBrews_total. by apply count_matching_insert.
  - intros id t q w total w' total' Hid ->%ListTeapots_total
      ->%ListTeapots_total. unfold DeleteTeapot. rewrite Hid. simpl.
    by apply count_matching_delete.
  - intros id t q w total w' total' Hid ->%ListTeas_total
      ->%ListTeas_total. unfold DeleteTea. rewrite Hid. simpl.
    by apply count_matching_delete.
  - intros id b q w total w' total' Hid ->%ListBrews_total
      ->%ListBrews_total. unfold DeleteBrew. rewrite Hid. simpl.
    by apply count_matching_delete.
Qed.

(** ** Requests *)

(** Case analysis along the paths of a handler. *)
Ltac handler_paths :=
  repeat (simpl in *; try done;
          match goal with
          | |- context [uuid_Parse ?id] =>
              lazymatch goal with
              | H : uuid_Parse id = _ |- _ => rewrite H
              | _ => destruct (uuid_Parse id) eqn:?
              end
          | |- context [teapots ?s !! ?id] =>
              lazymatch goal with
              | H : teapots s !! id = _ |- _ => rewrite H
              | _ => destruct (teapots s !! id) eqn:?
              end
          | |- context [teas ?s !! ?id] =>
              lazymatch goal with
              | H : teas s !! id = _ |- _ => rewrite H
              | _ => destruct (teas s !! id) eqn:?
              end
          | |- context [brews ?s !! ?id] =>
              lazymatch goal with
              | H : brews s !! id = _ |- _ => rewrite H
              | _ => destruct (brews s !! id) eqn:?
              end
          | |- context [match ?body with BindOk _ => _ | BindErr _ => _ end] =>
              destruct body
          end).

Ltac unfold_handlers :=
  unfold serve, TeapotHandler.Create, TeapotHandler.Update,
    TeapotHandler.Patch, TeapotHandler.Delete, TeapotHandler.Get,
    TeaHandler.Create, TeaHandler.Update, TeaHandler.Patch,
    TeaHandler.Delete, TeaHandler.Get, BrewHandler.Create, BrewHandler.Patch,
    BrewHandler.Delete, BrewHandler.Get, BrewHandler.CreateSteep,
    GetTeapot, GetTea, GetBrew, DeleteTeapot, DeleteTea, DeleteBrew,
    validation_error, not_found in *.

(** X9.  A request is all or nothing.  When a mutating route answers with
    an error body, the status is 400 or 404 and the store is exactly what
    it was; otherwise the status is 200, 201 or 204. *)
Theorem error_response_leaves_store `{rt : GoRuntime} (s : MemoryStore)
  (r : Request) (newid : string) (now : Time) :
  (is_error (serve s r newid now).2 →
   (serve s r newid now).1 = s ∧
   (status_of (serve s r newid now).2 = StatusBadRequest ∨
    status_of (serve s r newid now).2 = StatusNotFound)) ∧
  (¬ is_error (serve s r newid now).2 →
   status_of (serve s r newid now).2 = StatusOK ∨
   status_of (serve s r newid now).2 = StatusCreated ∨
   status_of (serve s r newid now).2 = StatusNoContent).
Proof.
  destruct r; unfold_handlers; handler_paths;
    split; intros; try done; auto.
Qed.

Lemma GetTeapot_missing s id :
  (GetTeapot s id).2 = false → teapots s !! id = None.
Proof. unfold GetTeapot. by destruct (teapots s !! id). Qed.

Lemma GetTea_missing s id : (GetTea s id).2 = false → teas s !! id = None.
Proof. unfold GetTea. by destruct (teas s !! id). Qed.

Lemma GetBrew_missing s id : (GetBrew s id).2 = false → brews s !! id = None.
Proof. unfold GetBrew. by destruct (brews s !! id). Qed.

(** X10.  The checks of a route with a path parameter come in a fixed
    order.  A parameter that [uuid.Parse] rejects is answered 400,
    whatever the store holds and whatever the body; a well-formed
    parameter that addresses no stored record (for the steeps route: no
    stored brew) is answered 404, even when the body could not be bound.
    The reads follow the same order. *)
Theorem path_parameter_checked_first `{rt : GoRuntime} (s : MemoryStore) :
  (∀ r id newid now, route_id r = Some id →
     (uuid_Parse id = false →
      ∃ message, serve s r newid now = (s, validation_error message)) ∧
     (uuid_Parse id = true → addressed s r id = false →
      ∃ message, serve s r newid now = (s, not_found message))) ∧
  (∀ id,
     (uuid_Parse id = false →
      (∃ message, TeapotHandler.Get s id = validation_error message) ∧
      (∃ message, TeaHandler.Get s id = validation_error message) ∧
      (∃ message, BrewHandler.Get s id = validation_error message) ∧
      (∀ query, ∃ message,
         BrewHandler.ListByTeapot s id query
         = Some (validation_error message)) ∧
      (∀ query, ∃ message,
         BrewHandler.ListSteeps s id query
         = Some (validation_error message))) ∧
     (uuid_Parse id = true →
      (teapots s !! id = None →
       (∃ message, TeapotHandler.Get s id = not_found message) ∧
       (∀ query, ∃ message,
          BrewHandler.ListByTeapot s id query = Some (not_found message))) ∧
      (teas s !! id = None →
       ∃ message, TeaHandler.Get s id = not_found message) ∧
      (brews s !! id = None →
       (∃ message, BrewHandler.Get s id = not_found message) ∧
       (∀ query, ∃ message,
          BrewHandler.ListSteeps s id query = Some (not_found message))))).
Proof.
  split.
  - intros r id newid now Hid.
    destruct r; simpl in Hid; try discriminate; injection Hid as ->;
      (split;
       [ intros Hbad; unfold_handlers; rewrite Hbad; simpl; eauto
       | intros Hok Hmissing; unfold addressed in Hmissing;
         simpl in Hmissing;
         first [ apply GetTeapot_missing in Hmissing
               | apply GetTea_missing in Hmissing
               | apply GetBrew_missing in Hmissing ];
         unfold_handlers; rewrite Hok, Hmissing; simpl; eauto ]).
  - intros id. split.
    + intros Hbad.
      unfold TeapotHandler.Get, TeaHandler.Get, BrewHandler.Get,
        BrewHandler.ListByTeapot, BrewHandler.ListSteeps.
      rewrite Hbad. simpl. split_and!; eauto.
    + intros Hok.
      unfold TeapotHandler.Get, TeaHandler.Get, BrewHandler.Get,
        BrewHandler.ListByTeapot, BrewHandler.ListSteeps,
        GetTeapot, GetTea, GetBrew.
      rewrite Hok. simpl.
      split_and!; intros ->; simpl; split_and?; eauto.
Qed.
(** X11.  A route works on its own table only.  A teapot request leaves
    teas, brews and steeps as they are, and likewise for the others: in
    particular deleting a teapot or a tea deletes no brew, and deleting a
    brew deletes none of its steeps. *)
Theorem route_touches_own_table `{rt : GoRuntime} (s : MemoryStore)
  (r : Request) (newid : string) (now : Time) :
  (route_table r ≠ Teapots →
   teapots (serve s r newid now).1 = teapots s) ∧
  (route_table r ≠ Teas → teas (serve s r newid now).1 = teas s) ∧
  (route_table r ≠ Brews → brews (serve s r newid now).1 = brews s) ∧
  (route_table r ≠ Steeps → steeps (serve s r newid now).1 = steeps s).
Proof.
  destruct r; unfold_handlers; handler_paths; split_and!; done.
Qed.

(** X12.  What a creation stores.  A bound creation request is always
    answered 201 with a record whose [ID] is the fresh identifier and whose
    [CreatedAt] and [UpdatedAt] are both the clock reading, and a read of
    that identifier returns the record.  A teapot gets the style
    ["english"], a tea the caffeine level ["medium"], exactly when the
    request leaves the field empty; a brew (given its teapot and tea)
    starts at the same instant, is not completed, and takes the water
    temperature of the request when there is one. *)
Theorem creation_stores_fresh_record `{rt : GoRuntime} (s : MemoryStore)
  (newid : string) (now : Time) :
  (∀ req, ∃ teapot,
     TeapotHandler.Create s (BindOk req) newid now
       = (CreateTeapot s teapot, JSON StatusCreated (TeapotBody teapot)) ∧
     GetTeapot (CreateTeapot s teapot) newid = (teapot, true) ∧
     Teapot.ID teapot = newid ∧
     Teapot.CreatedAt teapot = now ∧ Teapot.UpdatedAt teapot = now ∧
     Teapot.Style teapot =
       (if decide (CreateTeapotRequest.Style req = "") then "english"
        else CreateTeapotRequest.Style req) ∧
     Teapot.Name teapot = CreateTeapotRequest.Name req ∧
     Teapot.Material teapot = CreateTeapotRequest.Material req ∧
     Teapot.CapacityMl teapot = CreateTeapotRequest.CapacityMl req ∧
     Teapot.Description teapot = CreateTeapotRequest.Description req) ∧
  (∀ req, ∃ tea,
     TeaHandler.Create s (BindOk req) newid now
       = (CreateTea s tea, JSON StatusCreated (TeaBody tea)) ∧
     GetTea (CreateTea s tea) newid = (tea, true) ∧
     Tea.ID tea = newid ∧
     Tea.CreatedAt tea = now ∧ Tea.UpdatedAt tea = now ∧
     Tea.CaffeineLevel tea =
       (if decide (CreateTeaRequest.CaffeineLevel req = "") then "medium"
        else CreateTeaRequest.CaffeineLevel req) ∧
     Tea.SteepTempCelsius tea = CreateTeaRequest.SteepTempCelsius req) ∧
  (∀ req,
     is_Some (teapots s !! CreateBrewRequest.TeapotID req) →
     is_Some (teas s !! CreateBrewRequest.TeaID req) →
     ∃ brew,
       BrewHandler.Create s (BindOk req) newid now
         = (CreateBrew s brew, JSON StatusCreated (BrewBody brew)) ∧
       GetBrew (CreateBrew s brew) newid = (brew, true) ∧
       Brew.ID brew = newid ∧
       Brew.TeapotID brew = CreateBrewRequest.TeapotID req ∧
       Brew.TeaID brew = CreateBrewRequest.TeaID req ∧
       Brew.StartedAt brew = now ∧ Brew.CompletedAt brew = None ∧
       Brew.CreatedAt brew = now ∧ Brew.UpdatedAt brew = now ∧
       Brew.Status brew = "preparing" ∧
       (∀ w, CreateBrewRequest.WaterTempCelsius req = Some w →
          Brew.WaterTempCelsius brew = w)).
Proof.
  split_and!.
  - intros req. unfold TeapotHandler.Create. eexists. split; [done|].
    unfold GetTeapot. simpl. rewrite lookup_insert_eq.
    split_and!; try done. by case_bool_decide; case_decide.
  - intros req. unfold TeaHandler.Create. eexists. split; [done|].
    unfold GetTea. simpl. rewrite lookup_insert_eq.
    split_and!; try done. by case_bool_decide; case_decide.
  - intros req [teapot Htp] [tea Htea].
    unfold BrewHandler.Create, GetTeapot, GetTea. rewrite Htp, Htea. simpl.
    eexists. split; [done|]. unfold GetBrew. simpl. rewrite lookup_insert_eq.
    split_and!; try done. by intros w ->.
Qed.

(** X13.  The life of a stored record, through the handlers.  For a
    well-formed identifier that is stored, the read returns the record and
    the DELETE answers 204; after it the read and a second DELETE answer
    404.  Deleting a brew keeps its steeps in the store, but a steep can no
    longer be added to it. *)
Theorem delete_then_not_found `{rt : GoRuntime} (s : MemoryStore)
  (id : string) :
  uuid_Parse id = true →
  (∀ t, teapots s !! id = Some t →
     TeapotHandler.Get s id = JSON StatusOK (TeapotBody t) ∧
     ∃ s', TeapotHandler.Delete s id = (s', Status StatusNoContent) ∧
           TeapotHandler.Get s' id = not_found "Teapot not found" ∧
           TeapotHandler.Delete s' id = (s', not_found "Teapot not found")) ∧
  (∀ t, teas s !! id = Some t →
     TeaHandler.Get s id = JSON StatusOK (TeaBody t) ∧
     ∃ s', TeaHandler.Delete s id = (s', Status StatusNoContent) ∧
           TeaHandler.Get s' id = not_found "Tea not found" ∧
           TeaHandler.Delete s' id = (s', not_found "Tea not found")) ∧
  (∀ b, brews s !! id = Some b →
     BrewHandler.Get s id = JSON StatusOK (BrewBody b) ∧
     ∃ s', BrewHandler.Delete s id = (s', Status StatusNoContent) ∧
           BrewHandler.Get s' id = not_found "Brew not found" ∧
           BrewHandler.Delete s' id = (s', not_found "Brew not found") ∧
           steeps s' = steeps s ∧
           ∀ body newid now,
             BrewHandler.CreateSteep s' id body newid now
             = (s', not_found "Brew not found")).
Proof.
  intros Hid. split_and!.
  - intros t Ht.
    unfold TeapotHandler.Get, TeapotHandler.Delete, DeleteTeapot, GetTeapot.
    rewrite Hid, Ht. simpl. split; [done|]. eexists. split; [done|].
    simpl. by rewrite lookup_delete_eq.
  - intros t Ht.
    unfold TeaHandler.Get, TeaHandler.Delete, DeleteTea, GetTea.
    rewrite Hid, Ht. simpl. split; [done|]. eexists. split; [done|].
    simpl. by rewrite lookup_delete_eq.
  - intros b Hb.
    unfold BrewHandler.Get, BrewHandler.Delete, BrewHandler.CreateSteep,
      DeleteBrew, GetBrew.
    rewrite Hid, Hb. simpl. split; [done|]. eexists. split; [done|].
    simpl. by rewrite lookup_delete_eq.
Qed.

(** X14.  PUT replaces the whole record.  For a well-formed identifier
    that is stored, a bound PUT is answered 200 with a record that carries
    every field of the request (a nil description clears the description,
    where PATCH would keep it), the path parameter as [ID], the previous
    [CreatedAt] and the clock reading as [UpdatedAt]; the record is stored
    under the path parameter, and a read returns it. *)
Theorem put_replaces_record `{rt : GoRuntime} (s : MemoryStore)
  (id : string) (now : Time) :
  uuid_Parse id = true →
  (∀ existing req, teapots s !! id = Some existing →
     ∃ updated,
       TeapotHandler.Update s id (BindOk req) now
         = (UpdateTeapot s updated, JSON StatusOK (TeapotBody updated)) ∧
       TeapotHandler.Get (UpdateTeapot s updated) id
         = JSON StatusOK (TeapotBody updated) ∧
       Teapot.ID updated = id ∧
       Teapot.Name updated = UpdateTeapotRequest.Name req ∧
       Teapot.Material updated = UpdateTeapotRequest.Material req ∧
       Teapot.CapacityMl updated = UpdateTeapotRequest.CapacityMl req ∧
       Teapot.Style updated = UpdateTeapotRequest.Style req ∧
       Teapot.Description updated = UpdateTeapotRequest.Description req ∧
       Teapot.CreatedAt updated = Teapot.CreatedAt existing ∧
       Teapot.UpdatedAt updated = now) ∧
  (∀ existing req, teas s !! id = Some existing →
     ∃ updated,
       TeaHandler.Update s id (BindOk req) now
         = (UpdateTea s updated, JSON StatusOK (TeaBody updated)) ∧
       TeaHandler.Get (UpdateTea s updated) id
         = JSON StatusOK (TeaBody updated) ∧
       Tea.ID updated = id ∧
       Tea.Name updated = UpdateTeaRequest.Name req ∧
       Tea.Type_ updated = UpdateTeaRequest.Type_ req ∧
       Tea.Origin updated = UpdateTeaRequest.Origin req ∧
       Tea.CaffeineLevel updated = UpdateTeaRequest.CaffeineLevel req ∧
       Tea.SteepTempCelsius updated = UpdateTeaRequest.SteepTempCelsius req ∧
       Tea.SteepTimeSeconds updated = UpdateTeaRequest.SteepTimeSeconds req ∧
       Tea.Description updated = UpdateTeaRequest.Description req ∧
       Tea.CreatedAt updated = Tea.CreatedAt existing ∧
       Tea.UpdatedAt updated = now).
Proof.
  intros Hid. split.
  - intros existing req Hex.
    unfold TeapotHandler.Update, TeapotHandler.Get, GetTeapot.
    rewrite Hid, Hex. simpl. eexists. split; [done|]. simpl.
    by rewrite lookup_insert_eq.
  - intros existing req Hex.
    unfold TeaHandler.Update, TeaHandler.Get, GetTea.
    rewrite Hid, Hex. simpl. eexists. split; [done|]. simpl.
    by rewrite lookup_insert_eq.
Qed.

(** ** Invariants of a running server *)

Lemma records_consistent_mono clock now s :
  clock ≤ now → records_consistent clock s → records_consistent now s.
Proof.
  intros Hle (Htp & Htea & Hbrew & Hsteep).
  split_and!; (eapply map_Forall_impl; [eassumption|]); simpl;
    intros k x; intuition lia.
Qed.

Section Running.
Context `{rt : GoRuntime}.

Lemma serve_records_consistent clock s r newid now :
  clock ≤ now → records_consistent clock s →
  records_consistent now (serve s r newid now).1.
Proof.
  intros Hle Hold.
  pose proof (records_consistent_mono clock now s Hle Hold)
    as (Htp & Htea & Hbrew & Hsteep).
  destruct Hold as (Htp0 & Htea0 & Hbrew0 & _).
  destruct r as [body|id body|id body|id|body|id body|id body|id|body
                |id body|id|id body]; simpl.
  - unfold TeapotHandler.Create. destruct body as [req|err]; [|done].
    split_and!; [|done..]. simpl. apply map_Forall_insert_2; [|done].
    simpl. split; [done | lia].
  - unfold TeapotHandler.Update, GetTeapot.
    destruct (negb (uuid_Parse id)); [done|].
    destruct (teapots s !! id) as [existing|] eqn:Hex; simpl; [|done].
    destruct body as [req|err]; [|done].
    split_and!; [|done..]. simpl. apply map_Forall_insert_2; [|done].
    destruct (Htp0 id existing Hex) as (_ & ? & ?). simpl.
    split; [done | lia].
  - unfold TeapotHandler.Patch, GetTeapot.
    destruct (negb (uuid_Parse id)); [done|].
    destruct (teapots s !! id) as [existing|] eqn:Hex; simpl; [|done].
    destruct body as [req|err]; [|done].
    split_and!; [|done..]. simpl.
    destruct (Htp0 id existing Hex) as (Hkey & ? & ?).
    destruct req as [[?|] [?|] [?|] [?|] [?|]]; simpl;
      (apply map_Forall_insert_2; [simpl; split; [done | lia] | done]).
  - unfold TeapotHandler.Delete, DeleteTeapot.
    destruct (negb (uuid_Parse id)); [done|].
    destruct (teapots s !! id); simpl; [|done].
    split_and!; [|done..]. simpl. by apply map_Forall_delete.
  - unfold TeaHandler.Create. destruct body as [req|err]; [|done].
    split_and!; [done| |done..]. simpl. apply map_Forall_insert_2; [|done].
    simpl. split; [done | lia].
  - unfold TeaHandler.Update, GetTea.
    destruct (negb (uuid_Parse id)); [done|].
    destruct (teas s !! id) as [existing|] eqn:Hex; simpl; [|done].
    destruct body as [req|err]; [|done].
    split_and!; [done| |done..]. simpl. apply map_Forall_insert_2; [|done].
    destruct (Htea0 id existing Hex) as (_ & ? & ?). simpl.
    split; [done | lia].
  - unfold TeaHandler.Patch, GetTea.
    destruct (negb (uuid_Parse id)); [done|].
    destruct (teas s !! id) as [existing|] eqn:Hex; simpl; [|done].
    destruct body as [req|err]; [|done].
    split_and!; [done| |done..]. simpl.
    destruct (Htea0 id existing Hex) as (Hkey & ? & ?).
    destruct req as [[?|] [?|] [?|] [?|] [?|] [?|] [?|]]; simpl;
      (apply map_Forall_insert_2; [simpl; split; [done | lia] | done]).
  - unfold TeaHandler.Delete, DeleteTea.
    destruct (negb (uuid_Parse id)); [done|].
    destruct (teas s !! id); simpl; [|done].
    split_and!; [done| |done..]. simpl. by apply map_Forall_delete.
  - unfold BrewHandler.Create, GetTeapot, GetTea.
    destruct body as [req|err]; [|done].
    destruct (teapots s !! _); simpl; [|done].
    destruct (teas s !! _); simpl; [|done].
    split_and!; [done..| |done]. simpl. apply map_Forall_insert_2; [|done].
    simpl. split_and!; [done | lia | lia | done].
  - unfold BrewHandler.Patch, GetBrew.
    destruct (negb (uuid_Parse id)); [done|].
    destruct (brews s !! id) as [existing|] eqn:Hex; simpl; [|done].
    destruct body as [req|err]; [|done].
    split_and!; [done..| |done]. simpl.
    destruct (Hbrew0 id existing Hex) as (Hkey & [? ?] & ?).
    destruct req as [[?|] [?|] [?|]]; simpl;
      (apply map_Forall_insert_2;
       [simpl; split_and!; [done | lia | lia | done] | done]).
  - unfold BrewHandler.Delete, DeleteBrew.
    destruct (negb (uuid_Parse id)); [done|].
    destruct (brews s !! id); simpl; [|done].
    split_and!; [done..| |done]. simpl. by apply map_Forall_delete.
  - unfold BrewHandler.CreateSteep, GetBrew.
    destruct (negb (uuid_Parse id)); [done|].
    destruct (brews s !! id); simpl; [|done].
    destruct body as [req|err]; [|done].
    split_and!; [done..|]. simpl. apply map_Forall_insert_2; [|done].
    simpl. split; [done | lia].
Qed.


End Running.

(** X15.  On a running server whose clock readings never decrease, every
    teapot, tea, brew and steep is stored under its own [ID]; every
    teapot, tea and brew has [CreatedAt <= UpdatedAt], both no later than
    the last clock reading; a brew's [StartedAt] is its [CreatedAt]. *)
Theorem served_records_are_consistent `{rt : GoRuntime} (clock : Time)
  (s : MemoryStore) :
  served clock s → records_consistent clock s.
Proof.
  induction 1 as [clock|clock s r newid now _ IH Hle].
  - split_and!; apply map_Forall_empty.
  - by apply (serve_records_consistent clock).
Qed.

(** X16.  On a running server a request changes at most one entry: the
    one under the identifier it writes (the fresh identifier for a
    creation, the path parameter otherwise).  Every other identifier reads
    the same in all four tables. *)
Theorem request_writes_one_identifier `{rt : GoRuntime} (clock : Time)
  (s : MemoryStore) (r : Request) (newid : string) (now : Time)
  (k : string) :
  served clock s → k ≠ written_id r newid →
  teapots (serve s r newid now).1 !! k = teapots s !! k ∧
  teas (serve s r newid now).1 !! k = teas s !! k ∧
  brews (serve s r newid now).1 !! k = brews s !! k ∧
  steeps (serve s r newid now).1 !! k = steeps s !! k.
Proof.
  intros (Htp & Htea & Hbrew)%served_invariant Hk.
  destruct r as [body|id body|id body|id|body|id body|id body|id|body
                |id body|id|id body]; simpl in Hk |- *.
  - unfold TeapotHandler.Create. destruct body; [|done]. simpl.
    by rewrite lookup_insert_ne.
  - unfold TeapotHandler.Update, GetTeapot.
    destruct (negb (uuid_Parse id)); [done|].
    destruct (teapots s !! id); simpl; [|done].
    destruct body; [|done]. simpl. by rewrite lookup_insert_ne.
  - unfold TeapotHandler.Patch, GetTeapot.
    destruct (negb (uuid_Parse id)); [done|].
    destruct (teapots s !! id) as [existing|] eqn:Hex; simpl; [|done].
    destruct body as [req|]; [|done]. simpl.
    destruct (Htp id existing Hex) as [Hkey _].
    destruct req as [[?|] [?|] [?|] [?|] [?|]]; simpl;
      by rewrite lookup_insert_ne by congruence.
  - unfold TeapotHandler.Delete, DeleteTeapot.
    destruct (negb (uuid_Parse id)); [done|].
    destruct (teapots s !! id); simpl; [|done].
    by rewrite lookup_delete_ne.
  - unfold TeaHandler.Create. destruct body; [|done]. simpl.
    by rewrite lookup_insert_ne.
  - unfold TeaHandler.Update, GetTea.
    destruct (negb (uuid_Parse id)); [done|].
    destruct (teas s !! id); simpl; [|done].
    destruct body; [|done]. simpl. by rewrite lookup_insert_ne.
  - unfold TeaHandler.Patch, GetTea.
    destruct (negb (uuid_Parse id)); [done|].
    destruct (teas s !! id) as [existing|] eqn:Hex; simpl; [|done].
    destruct body as [req|]; [|done]. simpl.
    destruct (Htea id existing Hex) as [Hkey _].
    destruct req as [[?|] [?|] [?|] [?|] [?|] [?|] [?|]]; simpl;
      by rewrite lookup_insert_ne by congruence.
  - unfold TeaHandler.Delete, DeleteTea.
    destruct (negb (uuid_Parse id)); [done|].
    destruct (teas s !! id); simpl; [|done].
    by rewrite lookup_delete_ne.
  - unfold BrewHandler.Create, GetTeapot, GetTea.
    destruct body; [|done].
    destruct (teapots s !! _); simpl; [|done].
    destruct (teas s !! _); simpl; [|done].
    by rewrite lookup_insert_ne.
  - unfold BrewHandler.Patch, GetBrew.
    destruct (negb (uuid_Parse id)); [done|].
    destruct (brews s !! id) as [existing|] eqn:Hex; simpl; [|done].
    destruct body as [req|]; [|done]. simpl.
    destruct (Hbrew id existing Hex) as [Hkey _].
    destruct req as [[?|] [?|] [?|]]; simpl;
      by rewrite lookup_insert_ne by congruence.
  - unfold BrewHandler.Delete, DeleteBrew.
    destruct (negb (uuid_Parse id)); [done|].
    destruct (brews s !! id); simpl; [|done].
    by rewrite lookup_delete_ne.
  - unfold BrewHandler.CreateSteep, GetBrew.
    destruct (negb (uuid_Parse id)); [done|].
    destruct (brews s !! id); simpl; [|done].
    destruct body; [|done]. simpl. by rewrite lookup_insert_ne.
Qed.



Section Numbering.
Context `{rt : GoRuntime}.


End Numbering.


(** X19.  Deleting a teapot that brews refer to is allowed and cascades
    nowhere: the brews are all still stored and every brew listing, also
    the store's listing by that teapot, returns what it returned before;
    only the route that lists the brews of the teapot now answers 404. *)
Theorem deleted_teapot_leaves_brews `{rt : GoRuntime} (s : MemoryStore)
  (id : string) :
  uuid_Parse id = true → is_Some (teapots s !! id) →
  ∃ s',
    TeapotHandler.Delete s id = (s', Status StatusNoContent) ∧
    brews s' = brews s ∧
    (∀ q, ListBrews s' q = ListBrews s q) ∧
    (∀ page limit,
       ListBrewsByTeapot s' id page limit
       = ListBrewsByTeapot s id page limit) ∧
    (∀ b, BrewHandler.Get s' b = BrewHandler.Get s b) ∧
    (∀ query,
       BrewHandler.ListByTeapot s' id query
       = Some (not_found "Teapot not found")).
Proof.
  intros Hid [t Ht]. unfold TeapotHandler.Delete, DeleteTeapot.
  rewrite Hid, Ht. simpl. eexists. split; [done|].
  split_and!; try done.
  intros query. unfold BrewHandler.ListByTeapot, GetTeapot. simpl.
  by rewrite Hid, lookup_delete_eq.
Qed.


(** ** Health endpoints *)

Lemma allOk_Forall (checks : list HealthCheck.t) :
  HealthHandler.allOk checks = true ↔
  Forall (λ check, HealthCheck.Status check = "ok") checks.
Proof.
  induction checks as [|check checks IH]; simpl.
  - split; [constructor | done].
  - rewrite Forall_cons. case_bool_decide; [|tauto].
    split; [done | tauto].
Qed.

(** X18.  The readiness loop answers 200 and ["ok"] exactly when every
    check has status ["ok"], and 503 and ["degraded"] as soon as one has
    not; either way the response lists the checks as they are.  With the
    two checks that [Ready] builds in, the answer is always 200. *)
Theorem ready_reports_every_check (checks : list HealthCheck.t) (now : Time) :
  (Forall (λ check, HealthCheck.Status check = "ok") checks →
   HealthHandler.Ready_with checks now
   = (StatusOK,
      HealthResponseBody (HealthResponse.mk "ok" now None checks))) ∧
  (¬ Forall (λ check, HealthCheck.Status check = "ok") checks →
   HealthHandler.Ready_with checks now
   = (StatusServiceUnavailable,
      HealthResponseBody (HealthResponse.mk "degraded" now None checks))) ∧
  (HealthHandler.Ready now).1 = StatusOK.
Proof.
  split_and!.
  - intros Hok%allOk_Forall. unfold HealthHandler.Ready_with.
    by rewrite Hok.
  - intros Hbad. unfold HealthHandler.Ready_with.
    destruct (HealthHandler.allOk checks) eqn:Hall; [|done].
    by apply allOk_Forall in Hall.
  - done.
Qed.

(** ** List responses *)

Section ListResponses.
Context `{rt : GoRuntime}.

Lemma list_handler_response_ok {A} (P : A → Prop) `{∀ x, Decision (P x)}
  (less : A → A → bool) (m : gmap string A) (q : PaginationQuery.t)
  (respond : list A → Pagination.t → Body) :
  binding_PaginationQuery q = true →
  (∀ data p, list_summary (JSON StatusOK (respond data p))
             = Some (len data, p)) →
  list_response_ok
    match paginate (sort_Slice less (filter P (map_range m)))
            (PaginationQuery.Page (set_defaults q))
            (PaginationQuery.Limit (set_defaults q)) with
    | None => None
    | Some (data, total) =>
        match totalPages total (PaginationQuery.Limit (set_defaults q)) with
        | None => None
        | Some totalPages =>
            Some (JSON StatusOK
                    (respond data
                       (Pagination.mk (PaginationQuery.Page (set_defaults q))
                          (PaginationQuery.Limit (set_defaults q)) total
                          totalPages)))
        end
    end
    q (count_matching P m).
Proof.
  intros Hb Hsum resp n p Hr Hs.
  assert (Hq : effective_query (set_defaults q)) by by eexists.
  apply effective_query_range in Hq.
  destruct (paginate _ _ _) as [[data total]|] eqn:Hp; [|done].
  destruct (totalPages _ _); [|done].
  injection Hr as <-. rewrite Hsum in Hs. injection Hs as <- <-. simpl.
  pose proof (paginate_total_count _ _ _ _ _ _ _ Hp) as ->.
  apply paginate_within in Hp as (? & ? & ?);
    [|unfold GoInt.max_int; lia].
  split_and!; first [done | lia].
Qed.

Lemma error_response_ok code e q matching :
  list_response_ok (Some (JSON code (ErrorBody e))) q matching.
Proof. by intros resp n p [= <-] Hs. Qed.

End ListResponses.

(** X20.  What a list response carries.  Whenever a list handler answers
    a bound query with a list, the status is 200, [page] and [limit] are
    those of the query with 1 and 20 in place of absent values, [total] is
    the number of entries that pass the filters, and the list holds at most
    [limit] records, hence at most 100, and at most [total]. *)
Theorem list_response_reports_query `{rt : GoRuntime} (s : MemoryStore)
  (q : PaginationQuery.t) :
  binding_PaginationQuery q = true →
  (∀ material style,
     let query := TeapotQuery.mk q material style in
     list_response_ok (TeapotHandler.List s (BindOk query)) q
       (count_matching (TeapotQuery_matches query) (teapots s))) ∧
  (∀ type caffeine,
     let query := TeaQuery.mk q type caffeine in
     list_response_ok (TeaHandler.List s (BindOk query)) q
       (count_matching (TeaQuery_matches query) (teas s))) ∧
  (∀ status teapotID teaID,
     let query := BrewQuery.mk q status teapotID teaID in
     list_response_ok (BrewHandler.List s (BindOk query)) q
       (count_matching (BrewQuery_matches query) (brews s))) ∧
  (∀ id,
     list_response_ok (BrewHandler.ListByTeapot s id (BindOk q)) q
       (count_matching (λ b, Brew.TeapotID b = id) (brews s))) ∧
  (∀ id,
     list_response_ok (BrewHandler.ListSteeps s id (BindOk q)) q
       (steeps_of_brew s id)).
Proof.
  intros Hb. split_and!.
  - intros material style query.
    unfold TeapotHandler.List, ListTeapots.
    rewrite ListTeapots_filtered_filter.
    by apply (list_handler_response_ok (TeapotQuery_matches query)
                teapot_less (teapots s) q TeapotListResponse).
  - intros type caffeine query. unfold TeaHandler.List, ListTeas.
    rewrite ListTeas_filtered_filter.
    by apply (list_handler_response_ok (TeaQuery_matches query) tea_less
                (teas s) q TeaListResponse).
  - intros status teapotID teaID query. unfold BrewHandler.List, ListBrews.
    rewrite ListBrews_filtered_filter.
    by apply (list_handler_response_ok (BrewQuery_matches query) brew_less
                (brews s) q BrewListResponse).
  - intros id. unfold BrewHandler.ListByTeapot, ListBrewsByTeapot.
    destruct (negb (uuid_Parse id)); [apply error_response_ok|].
    destruct (negb (GetTeapot s id).2); [apply error_response_ok|].
    rewrite ListBrewsByTeapot_filtered_filter.
    by apply (list_handler_response_ok (λ b, Brew.TeapotID b = id)
                brew_less (brews s) q BrewListResponse).
  - intros id. unfold BrewHandler.ListSteeps, ListSteepsByBrew.
    destruct (negb (uuid_Parse id)); [apply error_response_ok|].
    destruct (negb (GetBrew s id).2); [apply error_response_ok|].
    rewrite ListSteepsByBrew_filtered_filter.
    by apply (list_handler_response_ok (λ st, Steep.BrewID st = id)
                steep_less (steeps s) q SteepListResponse).
Qed.

Lemma map_range_empty `{rt : GoRuntime} {V} : map_range (∅ : gmap string V) = [].
Proof.
  apply Permutation_nil_r. rewrite map_range_records.
  unfold records. by rewrite map_to_list_empty.
Qed.

(** X21.  The empty store.  On a new store every point read misses, every
    listing from page 1 on (while [page * limit] is representable) returns
    the empty page with total 0, and the three top-level list handlers
    answer a bound query with 200, an empty list, total 0 and 0 pages. *)
Theorem new_store_is_empty `{rt : GoRuntime} :
  (∀ id, GetTeapot NewMemoryStore id = (Teapot.zero, false) ∧
         GetTea NewMemoryStore id = (Tea.zero, false) ∧
         GetBrew NewMemoryStore id = (Brew.zero, false) ∧
         GetSteep NewMemoryStore id = (Steep.zero, false) ∧
         CountSteepsByBrew NewMemoryStore id = 0) ∧
  (∀ page limit, 1 ≤ page → 0 ≤ limit → page * limit ≤ GoInt.max_int →
     (∀ material style,
        ListTeapots NewMemoryStore
          (TeapotQuery.mk (PaginationQuery.mk page limit) material style)
        = Some ([], 0)) ∧
     (∀ type caffeine,
        ListTeas NewMemoryStore
          (TeaQuery.mk (PaginationQuery.mk page limit) type caffeine)
        = Some ([], 0)) ∧
     (∀ status teapotID teaID,
        ListBrews NewMemoryStore
          (BrewQuery.mk (PaginationQuery.mk page limit) status teapotID teaID)
        = Some ([], 0)) ∧
     (∀ id, ListBrewsByTeapot NewMemoryStore id page limit = Some ([], 0)) ∧
     (∀ id, ListSteepsByBrew NewMemoryStore id page limit = Some ([], 0))) ∧
  (∀ q, binding_PaginationQuery q = true →
     PaginationQuery.Page q * 100 ≤ GoInt.max_int →
     let empty :=
       Pagination.mk (PaginationQuery.Page (set_defaults q))
         (PaginationQuery.Limit (set_defaults q)) 0 0 in
     (∀ material style,
        TeapotHandler.List NewMemoryStore
          (BindOk (TeapotQuery.mk q material style))
        = Some (JSON StatusOK (TeapotListResponse [] empty))) ∧
     (∀ type caffeine,
        TeaHandler.List NewMemoryStore (BindOk (TeaQuery.mk q type caffeine))
        = Some (JSON StatusOK (TeaListResponse [] empty))) ∧
     (∀ status teapotID teaID,
        BrewHandler.List NewMemoryStore
          (BindOk (BrewQuery.mk q status teapotID teaID))
        = Some (JSON StatusOK (BrewListResponse [] empty)))).
Proof.
  assert (Hsort : ∀ A (less : A → A → bool), sort_Slice less [] = []).
  { intros A less. apply Permutation_nil_r. by rewrite sort_Slice_perm. }
  assert (Hlist : ∀ A (less : A → A → bool) page limit,
            1 ≤ page → 0 ≤ limit → page * limit ≤ GoInt.max_int →
            paginate (sort_Slice less (@nil A)) page limit = Some ([], 0)).
  { intros A less page limit ???. rewrite Hsort, paginate_in_range by done.
    unfold page_of. by rewrite drop_nil, take_nil. }
  split_and!.
  - intros id. unfold CountSteepsByBrew. simpl. by rewrite map_range_empty.
  - intros page limit Hp Hl Hmax. split_and!; intros.
    + unfold ListTeapots, ListTeapots_filtered. simpl.
      rewrite map_range_empty. by apply Hlist.
    + unfold ListTeas, ListTeas_filtered. simpl.
      rewrite map_range_empty. by apply Hlist.
    + unfold ListBrews, ListBrews_filtered. simpl.
      rewrite map_range_empty. by apply Hlist.
    + unfold ListBrewsByTeapot, ListBrewsByTeapot_filtered. simpl.
      rewrite map_range_empty. by apply Hlist.
    + unfold ListSteepsByBrew, ListSteepsByBrew_filtered. simpl.
      rewrite map_range_empty. by apply Hlist.
  - intros q Hb Hmax empty.
    assert (Hq : effective_query (set_defaults q)) by by eexists.
    apply effective_query_range in Hq.
    pose proof (set_defaults_Page_bound q Hb Hmax) as Hmax'.
    assert (Hpages : totalPages 0 (PaginationQuery.Limit (set_defaults q))
                     = Some 0).
    { rewrite totalPages_exact by (unfold GoInt.max_int in *; lia).
      f_equal. apply Z.div_small. lia. }
    split_and!; intros.
    + unfold TeapotHandler.List, ListTeapots, ListTeapots_filtered. simpl.
      rewrite map_range_empty. simpl.
      unfold TeapotQuery.Page, TeapotQuery.Limit. simpl.
      rewrite Hlist by (lia || nia). by rewrite Hpages.
    + unfold TeaHandler.List, ListTeas, ListTeas_filtered. simpl.
      rewrite map_range_empty. simpl.
      unfold TeaQuery.Page, TeaQuery.Limit. simpl.
      rewrite Hlist by (lia || nia). by rewrite Hpages.
    + unfold BrewHandler.List, ListBrews, ListBrews_filtered. simpl.
      rewrite map_range_empty. simpl.
      unfold BrewQuery.Page, BrewQuery.Limit. simpl.
      rewrite Hlist by (lia || nia). by rewrite Hpages.
Qed.

(** * The further properties at work on the sample data *)

Lemma pages_tile_the_list_witness :
  ∃ windows,
    first_pages [10; 20; 30; 40; 50] 2 3 = Some windows ∧
    concat windows = [10; 20; 30; 40; 50].
Proof.
  destruct (pages_tile_the_list [10; 20; 30; 40; 50] 2 3)
    as (windows & Hpages & _ & _ & Hall); [lia | by vm_compute |].
  exists windows. split; [done|]. apply Hall. by vm_compute.
Defined.

Lemma page_nonempty_iff_within_total_pages_witness :
  ∃ window n,
    paginate [10; 20; 30; 40; 50] 3 2
      = Some (window, len [10; 20; 30; 40; 50]) ∧
    totalPages (len [10; 20; 30; 40; 50]) 2 = Some n ∧
    (window ≠ [] ↔ 3 ≤ n).
Proof.
  apply (page_nonempty_iff_within_total_pages [10; 20; 30; 40; 50] 3 2);
    by vm_compute.
Defined.

Lemma delete_then_not_found_witness :
  @BrewHandler.Get reference_runtime brewing_store sample_brew_id
    = JSON StatusOK (BrewBody sample_brew) ∧
  ∃ s',
    @BrewHandler.Delete reference_runtime brewing_store sample_brew_id
      = (s', Status StatusNoContent) ∧
    @BrewHandler.Get reference_runtime s' sample_brew_id
      = not_found "Brew not found".
Proof.
  destruct (@delete_then_not_found reference_runtime brewing_store
              sample_brew_id) as (_ & _ & Hbrew).
  - by vm_compute.
  - destruct (Hbrew sample_brew) as (Hget & s' & Hdel & Hgone & _).
    + by vm_compute.
    + split; [done|]. by exists s'.
Defined.

Lemma put_replaces_record_witness :
  ∃ updated,
    @TeapotHandler.Update reference_runtime sample_store sample_teapot_id
      (BindOk (UpdateTeapotRequest.mk "Big pot" "glass" 900 "english" None))
      4000
    = (UpdateTeapot sample_store updated,
       JSON StatusOK (TeapotBody updated)) ∧
    Teapot.ID updated = sample_teapot_id ∧
    Teapot.CreatedAt updated = 1000 ∧ Teapot.UpdatedAt updated = 4000.
Proof.
  destruct (@put_replaces_record reference_runtime sample_store
              sample_teapot_id 4000) as (Hteapot & _).
  - by vm_compute.
  - destruct (Hteapot
                (Teapot.mk sample_teapot_id "My Kyusu" "clay" 350 "kyusu"
                   None 1000 1000)
                (UpdateTeapotRequest.mk "Big pot" "glass" 900 "english" None))
      as (updated & Hput & _ & HID & _ & _ & _ & _ & _ & Hcreated & Hupdated).
    + by vm_compute.
    + exists updated. by split_and!.
Defined.

Lemma served_records_are_consistent_witness :
  records_consistent 3000 brewing_store.
Proof.
  apply (@served_records_are_consistent reference_runtime).
  apply served_brewing_store.
Defined.

Lemma request_writes_one_identifier_witness :
  brews (@serve reference_runtime brewing_store
           (DELETE_teapots_id sample_teapot_id) missing_id 4000).1
    !! sample_brew_id
  = brews brewing_store !! sample_brew_id.
Proof.
  destruct (@request_writes_one_identifier reference_runtime 3000
              brewing_store (DELETE_teapots_id sample_teapot_id) missing_id
              4000 sample_brew_id) as (_ & _ & Hbrews & _).
  - apply served_brewing_store.
  - discriminate.
  - exact Hbrews.
Defined.



Lemma deleted_teapot_leaves_brews_witness :
  ∃ s',
    @TeapotHandler.Delete reference_runtime brewing_store sample_teapot_id
      = (s', Status StatusNoContent) ∧
    @BrewHandler.Get reference_runtime s' sample_brew_id
      = JSON StatusOK (BrewBody sample_brew) ∧
    @BrewHandler.ListByTeapot reference_runtime s' sample_teapot_id
      (BindOk (PaginationQuery.mk 1 20))
      = Some (not_found "Teapot not found").
Proof.
  destruct (@deleted_teapot_leaves_brews reference_runtime brewing_store
              sample_teapot_id) as (s' & Hdel & _ & _ & _ & Hget & Hlist).
  - by vm_compute.
  - vm_compute. eauto.
  - exists s'. split_and!; [done| |done].
    rewrite Hget. by vm_compute.
Defined.

Lemma list_response_reports_query_witness :
  binding_PaginationQuery (PaginationQuery.mk 0 0) = true ∧
  list_response_ok
    (@TeapotHandler.List reference_runtime sample_store
       (BindOk (TeapotQuery.mk (PaginationQuery.mk 0 0) (Some "clay") None)))
    (PaginationQuery.mk 0 0)
    (count_matching
       (TeapotQuery_matches
          (TeapotQuery.mk (PaginationQuery.mk 0 0) (Some "clay") None))
       (teapots sample_store)).
Proof.
  split; [reflexivity|].
  by apply (@list_response_reports_query reference_runtime sample_store
              (PaginationQuery.mk 0 0)).
Defined.

Lemma new_store_is_empty_witness :
  1 ≤ 3 ∧ 0 ≤ 20 ∧ 3 * 20 ≤ GoInt.max_int ∧
  @ListBrewsByTeapot reference_runtime NewMemoryStore sample_teapot_id 3 20
  = Some ([], 0).
Proof.
  split_and!; [by vm_compute..|].
  destruct (@new_store_is_empty reference_runtime) as (_ & Hlist & _).
  destruct (Hlist 3 20) as (_ & _ & _ & Hbrews & _); [by vm_compute..|].
  apply Hbrews.
Defined.
